(** * The fitness agent pipeline: tools, guardrail and run driver

    A shallow embedding of [ai-agent-pipeline.py].

    The two tool functions ([get_exercise_info], [calculate_calories]) are
    pure Python: they are embedded as executable functions over strings,
    integers and IEEE 754 binary64 floats, with [json.dumps], [str.lower],
    [round] and the conversion of an [int] to a [float] written out, and the
    exceptions those can raise returned as values.

    The guardrail ([fitness_goal_guardrail]) and the demo loop ([demo]) call
    the agent runtime ([Runner.run]), a library outside the repository: they
    are embedded as functions of an oracle for that call, in a monad that
    threads the state of the world and what was printed, and in which a call
    returns a value or raises.

    A raised object is an instance of [Exception] or derives from
    [BaseException] only (task cancellation, keyboard interrupt, interpreter
    exit); an [except Exception] clause catches the former and lets the
    latter through.

    Outside the model: characters beyond Latin-1, and failures of [print]
    itself.

    The first part of the file holds the definitions, the second part the
    lemmas and theorems. *)

From Stdlib Require Import ZArith QArith Qabs Qpower List String Ascii Bool Lia Lqa.
From Stdlib Require Import DecimalString.
From Stdlib Require Import Floats.SpecFloat.
Import ListNotations.

Local Open Scope string_scope.
Local Open Scope Z_scope.

(* ===================================================================== *)
(** * Part I: definitions *)
(* ===================================================================== *)

(** ** Python strings

    A [str] is modelled by a [string] whose characters are code points
    below 256 (the Latin-1 repertoire).  On that repertoire [str.lower]
    maps [A-Z] and the accented capitals U+00C0..U+00DE (the multiplication
    sign U+00D7 apart) to the character 32 places further, and leaves every
    other character alone. *)
Module PyStr.

Definition lower_char (c : ascii) : ascii :=
  let n := nat_of_ascii c in
  if ((65 <=? n) && (n <=? 90))%nat then ascii_of_nat (n + 32)
  else if ((192 <=? n) && (n <=? 222) && negb (n =? 215))%nat
       then ascii_of_nat (n + 32)
       else c.

Fixpoint lower (s : string) : string :=
  match s with
  | EmptyString => EmptyString
  | String c r => String (lower_char c) (lower r)
  end.

(** [x in [a, b, ...]] on strings: equality with one of the elements. *)
Definition in_list (x : string) (l : list string) : bool :=
  existsb (String.eqb x) l.

(** A [dict] literal with string keys, kept in source order; lookup finds
    the first binding of the key. *)
Fixpoint dict_get {A : Type} (d : list (string * A)) (k : string) : option A :=
  match d with
  | [] => None
  | (k', v) :: rest => if String.eqb k k' then Some v else dict_get rest k
  end.

Definition dict_keys {A : Type} (d : list (string * A)) : list string :=
  map fst d.

End PyStr.

(** ** [json.dumps]

    The values the tools serialise are strings, integers, lists and
    dictionaries with string keys.  [dumps] is [json.dumps] with its default
    arguments: items separated by a comma and a blank, keys from values by a
    colon and a blank, and [ensure_ascii] on. *)
Module Json.

#[local] Set Warnings "-register-all".

Inductive json : Type :=
| JStr (s : string)
| JInt (n : Z)
| JList (items : list json)
| JObj (members : list (string * json)).

Definition dq : string := String "034"%char EmptyString.
Definition backslash : string := String "092"%char EmptyString.

Definition hex_digit (n : nat) : ascii :=
  if (n <? 10)%nat then ascii_of_nat (48 + n) else ascii_of_nat (87 + n).

(** The escape of one character: a backslash before a double quote and
    before a backslash, the five short escapes (n, r, t, b, f), and
    backslash-u00XX for every other character outside the printable ASCII
    range (blank to tilde). *)
Definition escape_char (c : ascii) : string :=
  let n := nat_of_ascii c in
  if (n =? 34)%nat then backslash ++ dq
  else if (n =? 92)%nat then backslash ++ backslash
  else if (n =? 10)%nat then backslash ++ "n"
  else if (n =? 13)%nat then backslash ++ "r"
  else if (n =? 9)%nat then backslash ++ "t"
  else if (n =? 8)%nat then backslash ++ "b"
  else if (n =? 12)%nat then backslash ++ "f"
  else if ((32 <=? n) && (n <=? 126))%nat then String c EmptyString
  else backslash ++ "u00"
       ++ String (hex_digit (n / 16)) (String (hex_digit (n mod 16)) EmptyString).

Fixpoint escape (s : string) : string :=
  match s with
  | EmptyString => EmptyString
  | String c r => escape_char c ++ escape r
  end.

Definition dumps_str (s : string) : string := dq ++ escape s ++ dq.

Definition dumps_int (n : Z) : string := NilZero.string_of_int (Z.to_int n).

Fixpoint dumps (j : json) : string :=
  match j with
  | JStr s => dumps_str s
  | JInt n => dumps_int n
  | JList items =>
      "[" ++ (fix go (l : list json) : string :=
                match l with
                | [] => ""
                | x :: r =>
                    match r with
                    | [] => dumps x
                    | _ :: _ => dumps x ++ ", " ++ go r
                    end
                end) items ++ "]"
  | JObj members =>
      "{" ++ (fix go (l : list (string * json)) : string :=
                match l with
                | [] => ""
                | (k, v) :: r =>
                    match r with
                    | [] => dumps_str k ++ ": " ++ dumps v
                    | _ :: _ => dumps_str k ++ ": " ++ dumps v ++ ", " ++ go r
                    end
                end) members ++ "}"
  end.

End Json.

(** ** Python exceptions of the tool functions and the error monad *)
Module Py.

Inductive exception : Type :=
| OverflowError   (* int too large to convert to float; round of an infinity *)
| ValueError.     (* round of a NaN *)

Inductive result (A : Type) : Type :=
| Ok (a : A)
| Raise (e : exception).

Arguments Ok {A} a.
Arguments Raise {A} e.

Definition bind {A B : Type} (r : result A) (k : A -> result B) : result B :=
  match r with
  | Ok a => k a
  | Raise e => Raise e
  end.

End Py.

Notation "x <- c1 ;; c2" := (Py.bind c1 (fun x => c2))
  (at level 61, c1 at next level, right associativity).

(** ** Python floats: IEEE 754 binary64

    [float] arithmetic is the Standard Library's executable specification of
    IEEE 754 at precision 53 and maximal exponent 1024, rounding to nearest
    with ties to even.  Python's [+], [-], [*] on floats never raise, and the
    only divisors of the source are the constants 4 and 9. *)
Module Float.

Definition prec : Z := 53.
Definition emax : Z := 1024.

Definition float : Type := spec_float.

Definition add : float -> float -> float := SFadd prec emax.
Definition sub : float -> float -> float := SFsub prec emax.
Definition mul : float -> float -> float := SFmul prec emax.
Definition div : float -> float -> float := SFdiv prec emax.

(** The float nearest to an integer (an infinity past the largest float). *)
Definition of_Z (n : Z) : float := binary_normalize prec emax n 0 false.

(** The float of a decimal literal [num / den] of the source: the literal
    denotes the float nearest to its decimal value, which is the correctly
    rounded quotient of two integers that are floats themselves. *)
Definition literal (num den : Z) : float := div (of_Z num) (of_Z den).

(** An [int] operand of a float operation is converted first;
    the conversion raises [OverflowError] past the largest float. *)
Definition float_of_int (n : Z) : Py.result float :=
  match of_Z n with
  | S754_infinity _ => Py.Raise Py.OverflowError
  | f => Py.Ok f
  end.

(** [n / d] rounded to the nearest integer, ties to the even one ([0 < d]). *)
Definition round_half_even (n d : Z) : Z :=
  let q := n / d in
  match (2 * (n mod d)) ?= d with
  | Lt => q
  | Gt => q + 1
  | Eq => if Z.even q then q else q + 1
  end.

(** [round(x)] with one argument: the nearest [int], ties to even;
    [ValueError] on a NaN and [OverflowError] on an infinity. *)
Definition round (x : float) : Py.result Z :=
  match x with
  | S754_nan => Py.Raise Py.ValueError
  | S754_infinity _ => Py.Raise Py.OverflowError
  | S754_zero _ => Py.Ok 0
  | S754_finite s m e =>
      Py.Ok (cond_Zopp s
               (if 0 <=? e then Z.pos m * 2 ^ e
                else round_half_even (Z.pos m) (2 ^ (- e))))
  end.

(** The rational a float stands for (0 for the values that are no number). *)
Definition to_Q (x : float) : Q :=
  match x with
  | S754_finite s m e => (inject_Z (cond_Zopp s (Z.pos m)) * 2 ^ e)%Q
  | _ => 0%Q
  end.

(** *** Vocabulary of the rounding lemmas *)

(** The sign as a rational factor. *)
Definition sgn (s : bool) : Q := if s then (-1)%Q else 1%Q.

(** A float that is a number: a zero or a finite value. *)
Definition is_number (x : float) : Prop :=
  match x with
  | S754_zero _ | S754_finite _ _ _ => True
  | _ => False
  end.

(** The shift record [mrs] (a mantissa, a round bit and a sticky bit) locates
    the rational [N / D]: the mantissa is its integer part, and the two bits
    tell whether it lies on the mantissa, below the midpoint to the next
    integer, on the midpoint or above it. *)
Definition locates (N D : Z) (mrs : shr_record) : Prop :=
  let m := shr_m mrs in
  match shr_r mrs, shr_s mrs with
  | false, false => N = m * D
  | false, true => m * D < N /\ 2 * N < (2 * m + 1) * D
  | true, false => 2 * N = (2 * m + 1) * D
  | true, true => (2 * m + 1) * D < 2 * N /\ N < (m + 1) * D
  end.

(** [z] is the float of sign [sx] and magnitude [m1 * 2 ^ e1]. *)
Definition represents (z : spec_float) (sx : bool) (m1 e1 : Z) : Prop :=
  (m1 = 0 /\ z = S754_zero sx)
  \/ (exists (m : positive) (e : Z),
         z = S754_finite sx m e /\ e1 <= e /\ Z.pos m * 2 ^ (e - e1) = m1).

End Float.

(** ** The tool functions *)
Module Tools.

Import PyStr Json Py Float.

(** *** [get_exercise_info] *)

Definition exercise_data : list (string * list string) :=
  [ ("chest",
      [ "Push-ups: 3 sets of 10-15 reps";
        "Bench Press: 3 sets of 8-12 reps";
        "Chest Flyes: 3 sets of 12-15 reps";
        "Incline Push-ups: 3 sets of 10-15 reps" ]);
    ("back",
      [ "Pull-ups: 3 sets of 6-10 reps";
        "Bent-over Rows: 3 sets of 8-12 reps";
        "Lat Pulldowns: 3 sets of 10-12 reps";
        "Superman Holds: 3 sets of 30 seconds" ]);
    ("legs",
      [ "Squats: 3 sets of 10-15 reps";
        "Lunges: 3 sets of 10 per leg";
        "Calf Raises: 3 sets of 15-20 reps";
        "Glute Bridges: 3 sets of 15 reps" ]);
    ("arms",
      [ "Bicep Curls: 3 sets of 10-12 reps";
        "Tricep Dips: 3 sets of 10-15 reps";
        "Hammer Curls: 3 sets of 10-12 reps";
        "Overhead Tricep Extensions: 3 sets of 10-12 reps" ]);
    ("core",
      [ "Planks: 3 sets of 30-60 seconds";
        "Crunches: 3 sets of 15-20 reps";
        "Russian Twists: 3 sets of 20 total reps";
        "Mountain Climbers: 3 sets of 20 total reps" ]) ].

(** The dictionary handed to [json.dumps] on a hit. *)
Definition exercise_record (muscle_group : string) (exercises : list string)
  : json :=
  JObj [ ("muscle_group", JStr muscle_group);
         ("exercises", JList (map JStr exercises));
         ("recommendation",
           JStr ("For " ++ muscle_group
                 ++ " training, complete exercises with 60-90 seconds rest between sets.")) ].

(** The plain sentence returned on a miss. *)
Definition not_available (muscle_group : string) : string :=
  "Exercise information for " ++ muscle_group ++ " is not available.".

(** The value the function builds before it is turned into the returned
    [str]: a dictionary on a hit, a sentence on a miss. *)
Inductive lookup_result : Type :=
| Structured (record : json)
| Plain (message : string).

Definition get_exercise_info_value (muscle_group : string) : lookup_result :=
  let muscle_group := lower muscle_group in
  match dict_get exercise_data muscle_group with
  | Some exercises => Structured (exercise_record muscle_group exercises)
  | None => Plain (not_available muscle_group)
  end.

Definition render (r : lookup_result) : string :=
  match r with
  | Structured record => dumps record
  | Plain message => message
  end.

Definition get_exercise_info (muscle_group : string) : string :=
  render (get_exercise_info_value muscle_group).

(** The muscle groups the specification lists as supported. *)
Definition supported : list string := ["chest"; "back"; "legs"; "arms"; "core"].

(** A member of a JSON object, by key. *)
Definition member (key : string) (j : json) : option json :=
  match j with
  | JObj members => dict_get members key
  | _ => None
  end.

(** *** [calculate_calories] *)

(** The float constants of the source. *)
Definition c_6_25 : float := literal 625 100.
Definition c_1_55 : float := literal 155 100.
Definition c_0_40 : float := literal 40 100.
Definition c_0_30 : float := literal 30 100.
Definition c_0_25 : float := literal 25 100.
Definition c_0_45 : float := literal 45 100.

(** [bmr]: the sum is evaluated left to right; [10], [5] and [161] are small
    [int] literals, [5 * age] is an exact [int] product converted when it is
    subtracted from a float. *)
Definition bmr (weight_kg height_cm : float) (age : Z) (gender : string)
  : result float :=
  if in_list (lower gender) ["male"; "m"] then
    a <- float_of_int (5 * age) ;;
    Ok (add (sub (add (mul (of_Z 10) weight_kg) (mul c_6_25 height_cm)) a)
            (of_Z 5))
  else
    a <- float_of_int (5 * age) ;;
    Ok (sub (sub (add (mul (of_Z 10) weight_kg) (mul c_6_25 height_cm)) a)
            (of_Z 161)).

Definition tdee (bmr : float) : float := mul bmr c_1_55.

Definition calorie_target (goal : string) (tdee : float) : float :=
  if String.eqb (lower goal) "weight loss" then sub tdee (of_Z 500)
  else if String.eqb (lower goal) "muscle gain" then add tdee (of_Z 300)
  else tdee.

(** [(protein_pct, fat_pct, carb_pct)]. *)
Definition macro_pcts (goal : string) : float * float * float :=
  if String.eqb (lower goal) "weight loss" then (c_0_40, c_0_30, c_0_30)
  else if String.eqb (lower goal) "muscle gain" then (c_0_30, c_0_25, c_0_45)
  else (c_0_30, c_0_30, c_0_40).

(** The dictionary [result] of the source. *)
Record calories : Type := {
  goal_of : string;
  daily_calories : Z;
  protein : Z;
  fat : Z;
  carbs : Z
}.

Definition calories_json (r : calories) : json :=
  JObj [ ("goal", JStr (goal_of r));
         ("daily_calories", JInt (daily_calories r));
         ("macros", JObj [ ("protein", JInt (protein r));
                           ("fat", JInt (fat r));
                           ("carbs", JInt (carbs r)) ]) ].

Definition calculate_calories_value
  (goal : string) (weight_kg height_cm : float) (age : Z) (gender : string)
  : result calories :=
  bmr <- bmr weight_kg height_cm age gender ;;
  let tdee := tdee bmr in
  let calorie_target := calorie_target goal tdee in
  let '(protein_pct, fat_pct, carb_pct) := macro_pcts goal in
  let protein_cal := mul calorie_target protein_pct in
  let fat_cal := mul calorie_target fat_pct in
  let carb_cal := mul calorie_target carb_pct in
  protein_grams <- round (div protein_cal (of_Z 4)) ;;
  fat_grams <- round (div fat_cal (of_Z 9)) ;;
  carb_grams <- round (div carb_cal (of_Z 4)) ;;
  daily <- round calorie_target ;;
  Ok {| goal_of := goal;
        daily_calories := daily;
        protein := protein_grams;
        fat := fat_grams;
        carbs := carb_grams |}.

Definition calculate_calories
  (goal : string) (weight_kg height_cm : float) (age : Z) (gender : string)
  : result string :=
  r <- calculate_calories_value goal weight_kg height_cm age gender ;;
  Ok (dumps (calories_json r)).

(** *** The rule as the specification words it

    The specification names three kinds of goal and two kinds of gender,
    told apart by the lower-cased strings, and gives one formula and one
    table per kind. *)
Inductive goal_kind : Type := WeightLoss | MuscleGain | OtherGoal.

Definition spec_goal_kind (goal : string) : goal_kind :=
  if String.eqb (lower goal) "weight loss" then WeightLoss
  else if String.eqb (lower goal) "muscle gain" then MuscleGain
  else OtherGoal.

Definition spec_is_male (gender : string) : bool :=
  String.eqb (lower gender) "male" || String.eqb (lower gender) "m".

(** Mifflin-St Jeor, with [a] the float of [5 * age]. *)
Definition spec_bmr (male : bool) (w h a : float) : float :=
  let base := sub (add (mul (of_Z 10) w) (mul c_6_25 h)) a in
  if male then add base (of_Z 5) else sub base (of_Z 161).

Definition spec_target (k : goal_kind) (tdee : float) : float :=
  match k with
  | WeightLoss => sub tdee (of_Z 500)
  | MuscleGain => add tdee (of_Z 300)
  | OtherGoal => tdee
  end.

(** Protein, fat and carbohydrate shares. *)
Definition spec_pcts (k : goal_kind) : float * float * float :=
  match k with
  | WeightLoss => (c_0_40, c_0_30, c_0_30)
  | MuscleGain => (c_0_30, c_0_25, c_0_45)
  | OtherGoal => (c_0_30, c_0_30, c_0_40)
  end.

(** The calorie equivalent of the macros: 4 kcal per gram of protein and of
    carbohydrate, 9 per gram of fat. *)
Definition macro_calories (r : calories) : Z :=
  protein r * 4 + carbs r * 4 + fat r * 9.

End Tools.

(** ** The agent side: schemas, exceptions and the effect monad *)
Module Agents.

Import Float.

(** *** Output schemas and the user context *)

Record WorkoutPlan : Type := {
  focus_area : string;
  difficulty : string;
  exercises : list string;
  notes : string
}.

Record MealPlan : Type := {
  daily_calories : Z;
  protein_grams : Z;
  carbs_grams : Z;
  fat_grams : Z;
  meal_suggestions : list string;
  meal_notes : string
}.

Record GoalAnalysis : Type := {
  is_realistic : bool;
  reasoning : string
}.

Record UserContext : Type := {
  user_id : string;
  fitness_level : string;
  fitness_goal : string;
  dietary_preference : string;
  available_equipment : list string;
  weight_kg : float;
  height_cm : float;
  age : Z;
  gender : string
}.

(** What a guardrail function hands back to the runtime. *)
Record GuardrailFunctionOutput : Type := {
  output_info : GoalAnalysis;
  tripwire_triggered : bool
}.

(** The runtime's record of a guardrail that ran ([InputGuardrailResult]): of
    its attributes the model keeps [output], what the guardrail function
    returned. *)
Record InputGuardrailResult : Type := {
  output : GuardrailFunctionOutput
}.

(** *** Exceptions

    The source tells three kinds of raised object apart: the runtime's
    [InputGuardrailTripwireTriggered], every other instance of [Exception],
    and what derives from [BaseException] only ([asyncio.CancelledError],
    [KeyboardInterrupt], [SystemExit]), which no [except Exception] clause
    catches.

    An [InputGuardrailTripwireTriggered] is built by the runtime from the
    result of the guardrail that tripped and keeps it in its one data
    attribute, [guardrail_result]; its message is fixed by its class. *)
Record tripwire : Type := {
  tripwire_str : string;
  guardrail_result : InputGuardrailResult
}.

Inductive exc : Type :=
| InputGuardrailTripwireTriggered (e : tripwire)
| OtherException (message : string)
| BaseExceptionOnly (class_name message : string).

(** The classes the [except] clauses of the source name. *)
Inductive exception_class : Type :=
| InputGuardrailTripwireTriggered_
| Exception_.

(** [isinstance(e, c)] *)
Definition isinstance (e : exc) (c : exception_class) : bool :=
  match c, e with
  | InputGuardrailTripwireTriggered_, InputGuardrailTripwireTriggered _ => true
  | InputGuardrailTripwireTriggered_, _ => false
  | Exception_, BaseExceptionOnly _ _ => false
  | Exception_, _ => true
  end.

(** [str(e)] *)
Definition str (e : exc) : string :=
  match e with
  | InputGuardrailTripwireTriggered t => tripwire_str t
  | OtherException message => message
  | BaseExceptionOnly _ message => message
  end.

(** *** Attributes

    [o.name] and [hasattr(o, name)] on the objects the source can reach from
    an exception, by the data attributes their classes give them.  The
    methods and the special attributes every Python object has are left
    out: none of them is named [guardrail_output] or [reasoning], the two
    names the source probes. *)
Inductive object : Type :=
| ExceptionObject (e : exc)
| ResultObject (r : InputGuardrailResult)
| OutputObject (o : GuardrailFunctionOutput)
| AnalysisObject (a : GoalAnalysis)
| StrObject (s : string)
| BoolObject (b : bool).

Definition getattr (o : object) (name : string) : option object :=
  match o with
  | ExceptionObject (InputGuardrailTripwireTriggered t) =>
      if String.eqb name "guardrail_result"
      then Some (ResultObject (guardrail_result t))
      else None
  | ExceptionObject _ => None
  | ResultObject r =>
      if String.eqb name "output" then Some (OutputObject (output r)) else None
  | OutputObject o =>
      if String.eqb name "output_info" then Some (AnalysisObject (output_info o))
      else if String.eqb name "tripwire_triggered"
           then Some (BoolObject (tripwire_triggered o))
           else None
  | AnalysisObject a =>
      if String.eqb name "is_realistic" then Some (BoolObject (is_realistic a))
      else if String.eqb name "reasoning" then Some (StrObject (reasoning a))
           else None
  | StrObject _ => None
  | BoolObject _ => None
  end.

Definition hasattr (o : object) (name : string) : bool :=
  match getattr o name with
  | Some _ => true
  | None => false
  end.

(** *** The effect monad: a state, and a result or a raised exception *)

Inductive outcome (A : Type) : Type :=
| Returned (a : A)
| Raised (e : exc).

Arguments Returned {A} a.
Arguments Raised {A} e.

Definition M (S A : Type) : Type := S -> outcome A * S.

Definition ret {S A : Type} (a : A) : M S A := fun s => (Returned a, s).

Definition raise {S A : Type} (e : exc) : M S A := fun s => (Raised e, s).

Definition bind {S A B : Type} (c : M S A) (k : A -> M S B) : M S B :=
  fun s =>
    match c s with
    | (Returned a, s') => k a s'
    | (Raised e, s') => (Raised e, s')
    end.

(** The [except] clauses of a [try], in order: the first clause whose class
    the exception is an instance of handles it; an exception of none of the
    classes goes on to the caller. *)
Fixpoint handle_with {S A : Type}
  (clauses : list (exception_class * (exc -> M S A))) (e : exc) : M S A :=
  match clauses with
  | [] => raise e
  | (c, handler) :: rest =>
      if isinstance e c then handler e else handle_with rest e
  end.

(** [try: body / except c1 as e: handler1 e / except c2 as e: ...] *)
Definition try_except {S A : Type} (body : M S A)
  (clauses : list (exception_class * (exc -> M S A))) : M S A :=
  fun s =>
    match body s with
    | (Returned a, s') => (Returned a, s')
    | (Raised e, s') => handle_with clauses e s'
    end.

End Agents.

(** ** The guardrail *)
Module Guardrail.

Import Agents.

Section WithRuntime.

(** The state of the world the agent runtime lives in (the model backend). *)
Variable World : Type.

(** [await Runner.run(goal_analysis_agent, prompt)] followed by
    [result.final_output_as(GoalAnalysis)]: the runtime is outside the
    repository, so the call is an oracle that returns an analysis or raises. *)
Variable run_goal_analysis : string -> M World GoalAnalysis.

Definition analysis_prompt (input_data : string) : string :=
  "The user said: " ++ input_data
  ++ ". Analyze whether this fitness goal is realistic and safe.".

Definition fitness_goal_guardrail (input_data : string)
  : M World GuardrailFunctionOutput :=
  try_except
    (bind (run_goal_analysis (analysis_prompt input_data))
       (fun final_output =>
          ret {| output_info := final_output;
                 tripwire_triggered := negb (is_realistic final_output) |}))
    [ (Exception_,
       fun e =>
         ret {| output_info :=
                  {| is_realistic := true;
                     reasoning := "Error analyzing goal: " ++ str e |};
                tripwire_triggered := false |}) ].

(** What the handler of the [except] clause returns for the exception [e]. *)
Definition fail_open (e : exc) : GuardrailFunctionOutput :=
  {| output_info := {| is_realistic := true;
                       reasoning := "Error analyzing goal: " ++ str e |};
     tripwire_triggered := false |}.

End WithRuntime.

(** A runtime that has no state and judges every goal unrealistic. *)
Definition strict_runtime (_ : string) : M unit GoalAnalysis :=
  ret {| is_realistic := false; reasoning := "more than 2 pounds per week" |}.

(** A runtime whose call always fails. *)
Definition broken_runtime (_ : string) : M unit GoalAnalysis :=
  raise (OtherException "connection refused").

(** A runtime whose call is cancelled: [asyncio.CancelledError] derives from
    [BaseException] only. *)
Definition cancelled_runtime (_ : string) : M unit GoalAnalysis :=
  raise (BaseExceptionOnly "CancelledError" "").

End Guardrail.

(** ** The run driver ([demo]) *)
Module Driver.

Import Agents.

(** [result.final_output] by its runtime type, as the [isinstance] chain
    tells it apart. *)
Inductive final_output : Type :=
| IsWorkoutPlan (plan : WorkoutPlan)
| IsMealPlan (plan : MealPlan)
| IsOther (text : string).

(** One constructor per [print] call of the loop body. *)
Inductive line : Type :=
| RuleAbove                          (* a newline and fifty equal signs *)
| QueryLine (query : string)         (* QUERY: query *)
| RuleBelow                          (* fifty equal signs *)
| WorkoutHeader                      (* [WORKOUT SPECIALIST] *)
| NutritionHeader                    (* [NUTRITION SPECIALIST] *)
| CoachHeader                        (* [GENERAL FITNESS COACH] *)
| ResponseLabel                      (* RESPONSE: *)
| ResponseBody (output : final_output)
| GuardrailHeader                    (* [GUARDRAIL TRIGGERED] *)
| ReasonLine (reasoning : object)    (* Reason: reasoning *)
| UnsafeGoalNotice                   (* An unrealistic or unsafe fitness goal was detected. *)
| ErrorLine (message : string).      (* [ERROR]: message *)

(** The five branches of the dispatch on a query's result. *)
Inductive branch : Type :=
| WorkoutBranch
| MealBranch
| GeneralBranch
| RejectionBranch
| ErrorBranch.

(** The branch a printed line opens, if it is the first line of one. *)
Definition opens (l : line) : option branch :=
  match l with
  | WorkoutHeader => Some WorkoutBranch
  | NutritionHeader => Some MealBranch
  | CoachHeader => Some GeneralBranch
  | GuardrailHeader => Some RejectionBranch
  | ErrorLine _ => Some ErrorBranch
  | _ => None
  end.

Fixpoint branches (out : list line) : list branch :=
  match out with
  | [] => []
  | l :: rest =>
      match opens l with
      | Some b => b :: branches rest
      | None => branches rest
      end
  end.

Section WithRuntime.

Variable World : Type.

(** The state of a run: the world of the runtime and what was printed. *)
Record state : Type := {
  world : World;
  stdout : list line
}.

(** [await Runner.run(fitness_agent, query, context=user_context)]: the
    runtime runs the input guardrail, the coordinator and the specialists;
    it returns a result or raises. *)
Variable run_fitness_agent : string -> UserContext -> M World final_output.

Definition print (l : line) : M state unit :=
  fun s => (Returned tt, {| world := world s; stdout := (stdout s ++ [l])%list |}).

(** A call of the runtime inside a run: it changes the world and prints nothing. *)
Definition lift {A : Type} (c : M World A) : M state A :=
  fun s =>
    let '(r, w) := c (world s) in
    (r, {| world := w; stdout := stdout s |}).

Definition user_context : UserContext :=
  {| user_id := "user123";
     fitness_level := "beginner";
     fitness_goal := "I want to lose 20 pounds in 2 weeks";
     dietary_preference := "no restrictions";
     available_equipment := ["dumbbells"; "resistance bands"];
     weight_kg := Float.of_Z 80;
     height_cm := Float.of_Z 175;
     age := 28;
     gender := "male" |}.


(** The body of the [for] loop. *)
Definition handle_query (context : UserContext) (query : string)
  : M state unit :=
  bind (print RuleAbove) (fun _ =>
  bind (print (QueryLine query)) (fun _ =>
  bind (print RuleBelow) (fun _ =>
  try_except
    (bind (lift (run_fitness_agent query context)) (fun result =>
     bind (match result with
           | IsWorkoutPlan _ => print WorkoutHeader
           | IsMealPlan _ => print NutritionHeader
           | IsOther _ => print CoachHeader
           end) (fun _ =>
     bind (print ResponseLabel) (fun _ =>
     print (ResponseBody result)))))
    [ (InputGuardrailTripwireTriggered_,
       fun e =>
         bind (print GuardrailHeader) (fun _ =>
         match getattr (ExceptionObject e) "guardrail_output" with
         | Some guardrail_output =>
             match getattr guardrail_output "reasoning" with
             | Some reasoning => print (ReasonLine reasoning)
             | None => print UnsafeGoalNotice
             end
         | None => print UnsafeGoalNotice
         end));
      (Exception_,
       fun e => print (ErrorLine (str e))) ]))).

(** [for query in queries: ...]: an exception that leaves the body ends the
    loop. *)
Fixpoint for_each (context : UserContext) (qs : list string) : M state unit :=
  match qs with
  | [] => ret tt
  | q :: rest => bind (handle_query context q) (fun _ => for_each context rest)
  end.


End WithRuntime.

Arguments world {World} s.
Arguments stdout {World} s.

(** *** Vocabulary of the driver's properties *)

(** What the rejection branch prints under its header. *)
Definition rejection_line (e : exc) : line :=
  match getattr (ExceptionObject e) "guardrail_output" with
  | Some guardrail_output =>
      match getattr guardrail_output "reasoning" with
      | Some reasoning => ReasonLine reasoning
      | None => UnsafeGoalNotice
      end
  | None => UnsafeGoalNotice
  end.

(** The lines the dispatch prints, by what the runtime call did; a signal
    that is no [Exception] passes both clauses and nothing is printed. *)
Definition dispatch_lines (r : outcome final_output) : list line :=
  match r with
  | Returned (IsWorkoutPlan p) =>
      [WorkoutHeader; ResponseLabel; ResponseBody (IsWorkoutPlan p)]
  | Returned (IsMealPlan p) =>
      [NutritionHeader; ResponseLabel; ResponseBody (IsMealPlan p)]
  | Returned (IsOther t) =>
      [CoachHeader; ResponseLabel; ResponseBody (IsOther t)]
  | Raised (InputGuardrailTripwireTriggered t) =>
      [GuardrailHeader; rejection_line (InputGuardrailTripwireTriggered t)]
  | Raised (OtherException message) => [ErrorLine message]
  | Raised (BaseExceptionOnly _ _) => []
  end.

(** The branch of the dispatch, by what the runtime call did: none for a
    signal that is no [Exception]. *)
Definition dispatch_branch (r : outcome final_output) : option branch :=
  match r with
  | Returned (IsWorkoutPlan _) => Some WorkoutBranch
  | Returned (IsMealPlan _) => Some MealBranch
  | Returned (IsOther _) => Some GeneralBranch
  | Raised (InputGuardrailTripwireTriggered _) => Some RejectionBranch
  | Raised (OtherException _) => Some ErrorBranch
  | Raised (BaseExceptionOnly _ _) => None
  end.

(** How one pass of the loop body ends, by what the runtime call did. *)
Definition pass_outcome (r : outcome final_output) : outcome unit :=
  match r with
  | Returned _ => Returned tt
  | Raised (BaseExceptionOnly class_name message) =>
      Raised (BaseExceptionOnly class_name message)
  | Raised _ => Returned tt
  end.

(** The call ended within reach of the dispatch: it returned, or raised an
    instance of [Exception]. *)
Definition dispatched (r : outcome final_output) : Prop :=
  match r with
  | Returned _ => True
  | Raised e => isinstance e Exception_ = true
  end.

(** A runtime none of whose calls is cut short by a signal that is no
    [Exception]. *)
Definition raises_only_exceptions {World : Type}
  (run : string -> UserContext -> M World final_output) : Prop :=
  forall (query : string) (context : UserContext) (w : World),
    dispatched (fst (run query context w)).

(** The queries whose banner was printed, in order. *)
Fixpoint queries_printed (out : list line) : list string :=
  match out with
  | [] => []
  | QueryLine q :: rest => q :: queries_printed rest
  | _ :: rest => queries_printed rest
  end.

(** Example runtimes without state: one that rejects every query with the
    tripwire of a guardrail whose analysis gave a reasoning, one whose every
    call fails, one that answers in free text, and one whose call is
    cancelled. *)
Definition reasoned_tripwire : tripwire :=
  {| tripwire_str := "Guardrail InputGuardrail triggered tripwire";
     guardrail_result :=
       {| output :=
            {| output_info := {| is_realistic := false;
                                 reasoning := "unsafe rate of loss" |};
               tripwire_triggered := true |} |} |}.

Definition rejecting_runtime (t : tripwire) (_ : string) (_ : UserContext)
  : M unit final_output :=
  raise (InputGuardrailTripwireTriggered t).

Definition failing_runtime (_ : string) (_ : UserContext)
  : M unit final_output :=
  raise (OtherException "model backend unreachable").



Definition empty_run : state unit := {| world := tt; stdout := [] |}.

End Driver.

(** ** The calorie rule over the rationals

    The formulas of [calculate_calories] with exact arithmetic in place of
    floating-point arithmetic: the value the code approximates. *)
Module ExactRule.

Import PyStr.

Local Open Scope Q_scope.

Definition exact_bmr (weight_kg height_cm : Q) (age : Z) (gender : string) : Q :=
  if in_list (lower gender) ["male"; "m"]
  then 10 * weight_kg + (625 # 100) * height_cm - inject_Z (5 * age) + 5
  else 10 * weight_kg + (625 # 100) * height_cm - inject_Z (5 * age) - 161.

Definition exact_tdee (bmr : Q) : Q := bmr * (155 # 100).

Definition exact_target (goal : string) (tdee : Q) : Q :=
  if String.eqb (lower goal) "weight loss" then tdee - 500
  else if String.eqb (lower goal) "muscle gain" then tdee + 300
  else tdee.

(** [(protein_pct, fat_pct, carb_pct)]. *)
Definition exact_pcts (goal : string) : Q * Q * Q :=
  if String.eqb (lower goal) "weight loss" then (40 # 100, 30 # 100, 30 # 100)
  else if String.eqb (lower goal) "muscle gain" then (30 # 100, 25 # 100, 45 # 100)
  else (30 # 100, 30 # 100, 40 # 100).

Definition exact_calories
  (goal : string) (weight_kg height_cm : Q) (age : Z) (gender : string) : Q :=
  exact_target goal (exact_tdee (exact_bmr weight_kg height_cm age gender)).

End ExactRule.



(** ** Text: classes of characters *)
Module Text.

Import Json.

(** Every character of [s] satisfies [p]. *)
Fixpoint all_chars (p : ascii -> bool) (s : string) : bool :=
  match s with
  | EmptyString => true
  | String c r => p c && all_chars p r
  end.

(** Printable ASCII: blank to tilde. *)
Definition printable_char (c : ascii) : bool :=
  let n := nat_of_ascii c in ((32 <=? n) && (n <=? 126))%nat.

Definition printable (s : string) : bool := all_chars printable_char s.

(** The characters of a decimal integer: the digits and the minus sign. *)
Definition number_char (c : ascii) : bool :=
  let n := nat_of_ascii c in (((48 <=? n) && (n <=? 57)) || (n =? 45))%nat.

End Text.

(* ===================================================================== *)
(** * Part II: properties *)
(* ===================================================================== *)

(** ** Binary64 arithmetic: the error of one operation

    The operations of the Standard Library's specification round a located
    value (a mantissa, a round bit and a sticky bit) to the nearest float.
    This module follows that rounding through its two normalisations, first
    over the integers and then over the rationals, and derives from it the
    error of a product, of a quotient and of [round]. *)
Module FloatProps.

(** *** Digits *)

(** A positive number lies between the two powers of two its number of
    binary digits names. *)
Lemma digits2_pos_bounds (m : positive) :
  2 ^ (Z.pos (digits2_pos m) - 1) <= Z.pos m < 2 ^ Z.pos (digits2_pos m).
Proof.
  induction m as [m IH | m IH |]; simpl digits2_pos.
  - rewrite Pos2Z.inj_succ.
    replace (Z.succ (Z.pos (digits2_pos m)) - 1)
      with (Z.succ (Z.pos (digits2_pos m) - 1)) by lia.
    rewrite !Z.pow_succ_r by lia. lia.
  - rewrite Pos2Z.inj_succ.
    replace (Z.succ (Z.pos (digits2_pos m)) - 1)
      with (Z.succ (Z.pos (digits2_pos m) - 1)) by lia.
    rewrite !Z.pow_succ_r by lia. lia.
  - simpl. lia.
Qed.

Lemma Zdigits2_le_iff (m k : Z) :
  0 < m -> 0 <= k -> (Zdigits2 m <= k <-> m < 2 ^ k).
Proof.
  destruct m as [| p | p]; try lia. intros _ Hk. simpl.
  pose proof (digits2_pos_bounds p) as [Hlo Hhi].
  split; intros H.
  - eapply Z.lt_le_trans; [exact Hhi |]. apply Z.pow_le_mono_r; lia.
  - destruct (Z_le_gt_dec (Z.pos (digits2_pos p)) k) as [|Hgt]; [assumption | exfalso].
    assert (2 ^ k <= 2 ^ (Z.pos (digits2_pos p) - 1)) by (apply Z.pow_le_mono_r; lia).
    lia.
Qed.

(** *** Shifting and rounding a located value *)

(** One shift to the right keeps the location, read against twice the
    denominator. *)
Lemma shr_1_locates (N D : Z) (mrs : shr_record) :
  0 < D -> 0 <= shr_m mrs -> Float.locates N D mrs ->
  Float.locates N (2 * D) (shr_1 mrs) /\ 0 <= shr_m (shr_1 mrs).
Proof.
  destruct mrs as [m r s]. unfold Float.locates.
  intros HD Hm H. cbn [shr_m] in Hm.
  destruct m as [| [p | p |] | p]; [ | | | | lia].
  - destruct r, s; cbn [shr_1 shr_m shr_r shr_s orb] in *; lia.
  - cbn [shr_m shr_r shr_s] in H. rewrite Pos2Z.inj_xI in H.
    destruct r, s; cbn [shr_1 shr_m shr_r shr_s orb] in *; lia.
  - cbn [shr_m shr_r shr_s] in H. rewrite Pos2Z.inj_xO in H.
    destruct r, s; cbn [shr_1 shr_m shr_r shr_s orb] in *; lia.
  - destruct r, s; cbn [shr_1 shr_m shr_r shr_s orb] in *; lia.
Qed.

Lemma pow2_xO (n : positive) : 2 ^ Z.pos n~0 = 2 ^ Z.pos n * 2 ^ Z.pos n.
Proof.
  replace (Z.pos n~0) with (Z.pos n + Z.pos n) by lia.
  apply Z.pow_add_r; lia.
Qed.

Lemma pow2_xI (n : positive) : 2 ^ Z.pos n~1 = 2 * (2 ^ Z.pos n * 2 ^ Z.pos n).
Proof.
  replace (Z.pos n~1) with (1 + (Z.pos n + Z.pos n)) by lia.
  rewrite Z.pow_add_r, Z.pow_add_r by lia. reflexivity.
Qed.

Lemma iter_shr_1_locates (n : positive) :
  forall (N D : Z) (mrs : shr_record),
    0 < D -> 0 <= shr_m mrs -> Float.locates N D mrs ->
    Float.locates N (2 ^ Z.pos n * D) (iter_pos shr_1 n mrs)
    /\ 0 <= shr_m (iter_pos shr_1 n mrs).
Proof.
  induction n as [n IH | n IH |]; intros N D mrs HD Hm H; simpl iter_pos.
  - assert (Hp : 0 < 2 ^ Z.pos n) by (apply Z.pow_pos_nonneg; lia).
    destruct (shr_1_locates N D mrs HD Hm H) as [H1 Hm1].
    destruct (IH N (2 * D) _ ltac:(lia) Hm1 H1) as [H2 Hm2].
    assert (HD2 : 0 < 2 ^ Z.pos n * (2 * D)) by (apply Z.mul_pos_pos; lia).
    destruct (IH N (2 ^ Z.pos n * (2 * D)) _ HD2 Hm2 H2) as [H3 Hm3].
    split; [| exact Hm3].
    replace (2 ^ Z.pos n~1 * D) with (2 ^ Z.pos n * (2 ^ Z.pos n * (2 * D)));
      [exact H3 | rewrite pow2_xI; ring].
  - assert (Hp : 0 < 2 ^ Z.pos n) by (apply Z.pow_pos_nonneg; lia).
    destruct (IH N D _ HD Hm H) as [H2 Hm2].
    assert (HD2 : 0 < 2 ^ Z.pos n * D) by (apply Z.mul_pos_pos; lia).
    destruct (IH N (2 ^ Z.pos n * D) _ HD2 Hm2 H2) as [H3 Hm3].
    split; [| exact Hm3].
    replace (2 ^ Z.pos n~0 * D) with (2 ^ Z.pos n * (2 ^ Z.pos n * D));
      [exact H3 | rewrite pow2_xO; ring].
  - replace (2 ^ 1 * D) with (2 * D) by (rewrite Z.pow_1_r; reflexivity).
    now apply shr_1_locates.
Qed.

(** Rounding a location to nearest, ties to even, lands within half a unit
    of the located value. *)
Lemma round_nearest_even_close (N D : Z) (mrs : shr_record) :
  0 < D -> Float.locates N D mrs ->
  let z := round_nearest_even (shr_m mrs) (loc_of_shr_record mrs) in
  - D <= 2 * (z * D - N) <= D /\ shr_m mrs <= z <= shr_m mrs + 1.
Proof.
  destruct mrs as [m r s]. unfold Float.locates.
  cbn [shr_m shr_r shr_s loc_of_shr_record round_nearest_even].
  intros HD H. destruct r, s; cbn [round_nearest_even]; try destruct (Z.even m); lia.
Qed.

Lemma locates_bounds (N D : Z) (mrs : shr_record) :
  0 < D -> Float.locates N D mrs ->
  shr_m mrs * D <= N < (shr_m mrs + 1) * D.
Proof.
  destruct mrs as [m r s]. unfold Float.locates. cbn [shr_m shr_r shr_s].
  intros HD H. destruct r, s; lia.
Qed.

Section Rounding.

Variables prec emax : Z.
Hypothesis prec_pos : 0 < prec.

Local Abbreviation fexp := (SpecFloat.fexp prec emax).
Local Abbreviation emin := (SpecFloat.emin prec emax).

(** The first normalisation shifts the mantissa down to at most [prec]
    digits (and to the least exponent at least) and keeps the location. *)
Lemma shr_fexp_locates (N D mx ex : Z) (lx : location) :
  0 <= mx -> 0 < D ->
  Float.locates N D (shr_record_of_loc mx lx) ->
  let e' := Z.max ex (fexp (Zdigits2 mx + ex)) in
  let '(mrs', e1) := shr_fexp prec emax mx ex lx in
  e1 = e'
  /\ Float.locates N (2 ^ (e' - ex) * D) mrs'
  /\ 0 <= shr_m mrs' < 2 ^ prec.
Proof.
  intros Hmx HD Hloc e'. unfold shr_fexp, shr.
  assert (Hm0 : 0 <= shr_m (shr_record_of_loc mx lx))
    by (destruct lx as [| []]; exact Hmx).
  assert (Hmeq : shr_m (shr_record_of_loc mx lx) = mx)
    by (destruct lx as [| []]; reflexivity).
  assert (Hd : mx < 2 ^ (e' - ex + prec)).
  { destruct (Z.eq_dec mx 0) as [-> | Hne].
    - apply Z.pow_pos_nonneg; [lia |]. unfold e'. lia.
    - apply (Zdigits2_le_iff mx (e' - ex + prec)); [lia | unfold e'; lia |].
      unfold e', SpecFloat.fexp. lia. }
  destruct (fexp (Zdigits2 mx + ex) - ex) as [| p | p] eqn:Hn.
  - assert (He : e' = ex) by (unfold e'; lia).
    rewrite He, Z.sub_diag, Z.pow_0_r, Z.mul_1_l.
    split; [reflexivity |]. split; [exact Hloc |].
    rewrite Hmeq. rewrite He, Z.sub_diag, Z.add_0_l in Hd. lia.
  - assert (He : e' = ex + Z.pos p) by (unfold e'; lia).
    destruct (iter_shr_1_locates p N D _ HD Hm0 Hloc) as [Hl Hm].
    replace (e' - ex) with (Z.pos p) in * by lia.
    split; [lia |]. split; [exact Hl |]. split; [exact Hm |].
    assert (Hp : 0 < 2 ^ Z.pos p) by (apply Z.pow_pos_nonneg; lia).
    assert (HD' : 0 < 2 ^ Z.pos p * D) by (apply Z.mul_pos_pos; assumption).
    pose proof (locates_bounds _ _ _ HD' Hl) as [Hlo _].
    pose proof (locates_bounds _ _ _ HD Hloc) as [_ Hhi]. rewrite Hmeq in Hhi.
    rewrite Z.pow_add_r in Hd by lia.
    set (m' := shr_m (iter_pos shr_1 p (shr_record_of_loc mx lx))) in *.
    assert (H1 : m' * 2 ^ Z.pos p * D < (mx + 1) * D) by lia.
    assert (H2 : m' * 2 ^ Z.pos p < mx + 1).
    { apply Z.mul_lt_mono_pos_r with (p := D); assumption. }
    assert (H3 : m' * 2 ^ Z.pos p < 2 ^ prec * 2 ^ Z.pos p) by lia.
    apply Z.mul_lt_mono_pos_r with (p := 2 ^ Z.pos p); assumption.
  - assert (He : e' = ex) by (unfold e'; lia).
    rewrite He, Z.sub_diag, Z.pow_0_r, Z.mul_1_l.
    split; [reflexivity |]. split; [exact Hloc |].
    rewrite Hmeq. rewrite He, Z.sub_diag, Z.add_0_l in Hd. lia.
Qed.

(** The second normalisation: a rounded mantissa that reached [2 ^ prec] is
    halved, any other one is kept. *)
Lemma renormalise (sx : bool) (m1 e' : Z) :
  0 <= m1 <= 2 ^ prec -> emin <= e' -> e' + 1 <= emax - prec ->
  let '(mrs'', e'') := shr_fexp prec emax m1 e' loc_Exact in
  Float.represents
    (match shr_m mrs'' with
     | Z0 => S754_zero sx
     | Zpos m => if e'' <=? emax - prec then S754_finite sx m e''
                 else S754_infinity sx
     | Zneg _ => S754_nan
     end) sx m1 e'.
Proof.
  intros Hm1 Hemin Hemax. unfold shr_fexp, shr.
  destruct (Z.eq_dec m1 0) as [-> | Hne].
  - cbn [Zdigits2]. unfold SpecFloat.fexp.
    destruct (Z.max (0 + e' - prec) emin - e') as [| p | p] eqn:Hn; try lia;
      cbn [shr_record_of_loc shr_m]; left; split; reflexivity.
  - destruct (Z.eq_dec m1 (2 ^ prec)) as [Heq | Hlt].
    + assert (Hdig : Zdigits2 m1 = prec + 1).
      { assert (Hle : Zdigits2 m1 <= prec + 1).
        { apply Zdigits2_le_iff; [lia | lia |].
          rewrite Heq, Z.pow_add_r, Z.pow_1_r by lia. lia. }
        assert (Hge : ~ Zdigits2 m1 <= prec).
        { intros H. apply Zdigits2_le_iff in H; lia. }
        lia. }
      rewrite Hdig. unfold SpecFloat.fexp.
      replace (Z.max (prec + 1 + e' - prec) emin - e') with 1 by lia.
      cbn [iter_pos shr_record_of_loc].
      assert (Hev : m1 = 2 * 2 ^ (prec - 1)).
      { rewrite Heq. replace prec with (1 + (prec - 1)) at 1 by lia.
        rewrite Z.pow_add_r by lia. reflexivity. }
      assert (Hpp : 0 < 2 ^ (prec - 1)) by (apply Z.pow_pos_nonneg; lia).
      destruct m1 as [| [q | q |] | q]; try lia; cbn [shr_1 shr_m orb].
      replace (e' + 1 <=? emax - prec) with true by (symmetry; apply Z.leb_le; lia).
      right. exists q, (e' + 1). split; [reflexivity |]. split; [lia |].
      replace (e' + 1 - e') with 1 by lia. rewrite Z.pow_1_r. lia.
    + assert (Hdig : Zdigits2 m1 <= prec) by (apply Zdigits2_le_iff; lia).
      unfold SpecFloat.fexp.
      destruct (Z.max (Zdigits2 m1 + e' - prec) emin - e') as [| p | p] eqn:Hn;
        try lia; cbn [shr_record_of_loc shr_m];
        (destruct m1 as [| q | q]; try lia;
         replace (e' <=? emax - prec) with true by (symmetry; apply Z.leb_le; lia);
         right; exists q, e'; split; [reflexivity |]; split; [lia |];
         rewrite Z.sub_diag, Z.pow_0_r; lia).
Qed.

(** Rounding a located value: the result is the float of the given sign
    whose magnitude [m1 * 2 ^ e'] is within half a unit in the last place of
    the value [N / D * 2 ^ ex]. *)
Lemma binary_round_aux_correct (sx : bool) (N D mx ex : Z) (lx : location) :
  0 <= mx -> 0 < D ->
  Float.locates N D (shr_record_of_loc mx lx) ->
  let e' := Z.max ex (fexp (Zdigits2 mx + ex)) in
  e' + 1 <= emax - prec ->
  exists m1 : Z,
    0 <= m1
    /\ Float.represents (binary_round_aux prec emax sx mx ex lx) sx m1 e'
    /\ - (2 ^ (e' - ex) * D) <= 2 * (m1 * (2 ^ (e' - ex) * D) - N) <= 2 ^ (e' - ex) * D.
Proof.
  intros Hmx HD Hloc e' Hemax. unfold binary_round_aux.
  pose proof (shr_fexp_locates N D mx ex lx Hmx HD Hloc) as Hshr.
  cbv zeta in Hshr. fold e' in Hshr.
  destruct (shr_fexp prec emax mx ex lx) as [mrs' e1].
  destruct Hshr as (-> & Hl & Hm).
  assert (Hk : 0 < 2 ^ (e' - ex)) by (apply Z.pow_pos_nonneg; unfold e'; lia).
  assert (HD' : 0 < 2 ^ (e' - ex) * D) by (apply Z.mul_pos_pos; assumption).
  pose proof (round_nearest_even_close _ _ _ HD' Hl) as Hr. cbv zeta in Hr.
  set (m1 := round_nearest_even (shr_m mrs') (loc_of_shr_record mrs')) in *.
  destruct Hr as [Hclose Hnear].
  exists m1. split; [lia |]. split; [| exact Hclose].
  pose proof (renormalise sx m1 e') as Hren.
  destruct (shr_fexp prec emax m1 e' loc_Exact) as [mrs'' e''].
  apply Hren; [lia | unfold e', SpecFloat.fexp; lia | exact Hemax].
Qed.

End Rounding.

Local Open Scope Q_scope.

(** *** Powers of two and the value of a float, over the rationals *)

Lemma pow2_pos (a : Z) : 0 < 2 ^ a.
Proof. apply Qpower_0_lt. reflexivity. Qed.

Lemma pow2_add (a b : Z) : 2 ^ (a + b) == 2 ^ a * 2 ^ b.
Proof. apply Qpower_plus. discriminate. Qed.

Lemma pow2_inject (k : Z) : (0 <= k)%Z -> inject_Z (2 ^ k) == 2 ^ k.
Proof. intros Hk. now rewrite Zpower_Qpower. Qed.

Lemma pow2_le (a b : Z) : (a <= b)%Z -> 2 ^ a <= 2 ^ b.
Proof. intros H. apply Qpower_le_compat_l; [exact H | discriminate]. Qed.

Lemma pow2_lt_inv (a b : Z) : 2 ^ a < 2 ^ b -> (a < b)%Z.
Proof.
  intros H. apply Qpower_lt_compat_l_inv with (q := 2); [exact H | reflexivity].
Qed.

Lemma pow2_half (a : Z) : 2 ^ (a - 1) == (1 # 2) * 2 ^ a.
Proof.
  replace (a - 1)%Z with (a + -1)%Z by lia. rewrite pow2_add.
  change (2 ^ (-1)) with (1 # 2). ring.
Qed.

Lemma to_Q_finite (s : bool) (m : positive) (e : Z) :
  Float.to_Q (S754_finite s m e) == Float.sgn s * (inject_Z (Z.pos m) * 2 ^ e).
Proof.
  unfold Float.to_Q, Float.sgn. destruct s; cbn [cond_Zopp].
  - change (Z.opp (Z.pos m)) with (- Z.pos m)%Z. rewrite inject_Z_opp. ring.
  - ring.
Qed.

Lemma represents_to_Q (z : spec_float) (sx : bool) (m1 e1 : Z) :
  Float.represents z sx m1 e1 ->
  Float.to_Q z == Float.sgn sx * (inject_Z m1 * 2 ^ e1).
Proof.
  intros [[-> ->] | (m & e & -> & He & <-)].
  - cbn [Float.to_Q]. change (inject_Z 0) with 0. ring.
  - rewrite to_Q_finite. rewrite inject_Z_mult. rewrite pow2_inject by lia.
    replace e with ((e - e1) + e1)%Z at 1 by lia. rewrite pow2_add. ring.
Qed.

(** Scaling a two-sided bound: from [|u| * d <= b * d] to [|u| * x <= b * x]. *)
Lemma rescale_bound (u b d x : Q) :
  0 < d -> 0 < x ->
  - (b * d) <= u * d <= b * d ->
  - (b * x) <= u * x <= b * x.
Proof.
  intros Hd Hx [Hlo Hhi].
  assert (H1 : u <= b) by (apply (Qmult_le_r _ _ d Hd); exact Hhi).
  assert (H2 : - b <= u).
  { apply (Qmult_le_r _ _ d Hd). lra. }
  split.
  - assert (H3 : (- b) * x <= u * x) by (apply Qmult_le_compat_r; lra). lra.
  - apply Qmult_le_compat_r; lra.
Qed.

Section RoundingError.

Variables prec emax : Z.
Hypothesis prec_pos : (0 < prec)%Z.

(** The error of one rounding, over the rationals. *)
Lemma binary_round_aux_error (sx : bool) (N D mx ex : Z) (lx : location) :
  (0 <= mx)%Z -> (0 < D)%Z ->
  Float.locates N D (shr_record_of_loc mx lx) ->
  let e' := Z.max ex (SpecFloat.fexp prec emax (Zdigits2 mx + ex)) in
  (e' + 1 <= emax - prec)%Z ->
  let z := binary_round_aux prec emax sx mx ex lx in
  let v := inject_Z N / inject_Z D * 2 ^ ex in
  (z = S754_zero sx \/ exists m e, z = S754_finite sx m e)
  /\ Qabs (Float.to_Q z - Float.sgn sx * v) <= (1 # 2) * 2 ^ e'
  /\ (e' = ex -> lx = loc_Exact -> Float.to_Q z == Float.sgn sx * v).
Proof.
  intros Hmx HD Hloc e' Hemax z v.
  destruct (binary_round_aux_correct prec emax prec_pos sx N D mx ex lx Hmx HD Hloc Hemax)
    as (m1 & Hm1 & Hrep & Hlo & Hhi).
  fold e' in Hrep, Hlo, Hhi. fold z in Hrep.
  assert (Hk : (0 <= e' - ex)%Z) by (unfold e'; lia).
  pose proof (represents_to_Q z sx m1 e' Hrep) as Hz.
  split.
  { destruct Hrep as [[_ H] | (m & e & H & _)]; [left; exact H | right; now exists m, e]. }
  set (P := 2 ^ (e' - ex)) in *.
  set (d := inject_Z D).
  assert (Hd : 0 < d) by (unfold d; change 0 with (inject_Z 0); rewrite <- Zlt_Qlt; exact HD).
  assert (Hx : 0 < 2 ^ ex) by apply pow2_pos.
  assert (HP : inject_Z (2 ^ (e' - ex)) == P) by (apply pow2_inject; exact Hk).
  assert (He' : 2 ^ e' == P * 2 ^ ex).
  { unfold P. rewrite <- pow2_add. now replace (e' - ex + ex)%Z with e' by lia. }
  assert (Hv : inject_Z N == (inject_Z N / d) * d) by (field; lra).
  set (y := inject_Z N / d) in *.
  pose proof Hlo as HloZ. pose proof Hhi as HhiZ.
  assert (Hlo' : (2 * N <= 2 * (m1 * (2 ^ (e' - ex) * D)) + 2 ^ (e' - ex) * D)%Z) by lia.
  assert (Hhi' : (2 * (m1 * (2 ^ (e' - ex) * D)) <= 2 * N + 2 ^ (e' - ex) * D)%Z) by lia.
  clear Hlo Hhi.
  rewrite Zle_Qle in Hlo', Hhi'.
  rewrite ?inject_Z_plus, ?inject_Z_mult in Hlo', Hhi'.
  change (inject_Z 2) with 2 in *. fold d in Hlo', Hhi'.
  rewrite HP in Hlo', Hhi'.
  assert (Hb : - ((1 # 2) * P * 2 ^ ex) <= (inject_Z m1 * P - y) * 2 ^ ex <= (1 # 2) * P * 2 ^ ex).
  { apply rescale_bound with (d := d); [exact Hd | exact Hx |]. split; lra. }
  split.
  - apply Qabs_Qle_condition. unfold v. fold d. fold y.
    rewrite Hz, He'. unfold Float.sgn. destruct sx; split; lra.
  - intros Heq Hex. subst lx.
    assert (HP1 : P == 1) by (unfold P; rewrite Heq, Z.sub_diag; reflexivity).
    unfold Float.locates in Hloc. cbn [shr_record_of_loc shr_m shr_r shr_s] in Hloc.
    assert (Hm1eq : m1 = mx).
    { clear - HD HloZ HhiZ Heq Hloc. subst N.
      rewrite Heq, Z.sub_diag, Z.pow_0_r, Z.mul_1_l in HloZ, HhiZ.
      assert (H1 : (- 1 * D <= (2 * (m1 - mx)) * D)%Z) by lia.
      assert (H2 : ((2 * (m1 - mx)) * D <= 1 * D)%Z) by lia.
      apply Z.mul_le_mono_pos_r in H1, H2; try exact HD. lia. }
    unfold v. fold d. fold y. rewrite Hz, He', HP1.
    assert (Hy : y == inject_Z mx).
    { unfold y. subst N. rewrite inject_Z_mult. fold d. field. lra. }
    rewrite Hy, Hm1eq. ring.
Qed.

End RoundingError.

(** *** Signs, magnitudes and digits *)

Lemma sgn_xorb (a b : bool) :
  Float.sgn (xorb a b) == Float.sgn a * Float.sgn b.
Proof. destruct a, b; reflexivity. Qed.

Lemma sgn_square (a : bool) : Float.sgn a * Float.sgn a == 1.
Proof. destruct a; reflexivity. Qed.

Lemma Qabs_sgn_mult (s : bool) (a : Q) : 0 <= a -> Qabs (Float.sgn s * a) == a.
Proof.
  intros Ha. destruct s; unfold Float.sgn.
  - setoid_replace (-1 * a) with (- a) by ring. rewrite Qabs_opp. now apply Qabs_pos.
  - setoid_replace (1 * a) with a by ring. now apply Qabs_pos.
Qed.

Lemma mantissa_nonneg (m : positive) (e : Z) : 0 <= inject_Z (Z.pos m) * 2 ^ e.
Proof.
  apply Qmult_le_0_compat.
  - change 0 with (inject_Z 0). rewrite <- Zle_Qle. lia.
  - apply Qlt_le_weak, pow2_pos.
Qed.

Lemma Qabs_to_Q_finite (s : bool) (m : positive) (e : Z) :
  Qabs (Float.to_Q (S754_finite s m e)) == inject_Z (Z.pos m) * 2 ^ e.
Proof. rewrite to_Q_finite. apply Qabs_sgn_mult, mantissa_nonneg. Qed.

Lemma mantissa_lower (m : positive) (e : Z) :
  2 ^ (Z.pos (digits2_pos m) - 1 + e) <= inject_Z (Z.pos m) * 2 ^ e.
Proof.
  pose proof (digits2_pos_bounds m) as [Hlo _].
  assert (Hd : (0 <= Z.pos (digits2_pos m) - 1)%Z) by lia.
  rewrite Zle_Qle, (pow2_inject _ Hd) in Hlo.
  rewrite pow2_add.
  apply Qmult_le_compat_r; [exact Hlo | apply Qlt_le_weak, pow2_pos].
Qed.

Lemma mantissa_upper (m : positive) (e : Z) :
  inject_Z (Z.pos m) * 2 ^ e < 2 ^ (Z.pos (digits2_pos m) + e).
Proof.
  pose proof (digits2_pos_bounds m) as [_ Hhi].
  assert (Hd : (0 <= Z.pos (digits2_pos m))%Z) by lia.
  rewrite Zlt_Qlt, (pow2_inject _ Hd) in Hhi.
  rewrite pow2_add.
  apply Qmult_lt_compat_r; [apply pow2_pos | exact Hhi].
Qed.

(** A magnitude below [2 ^ K] has its digits and exponent sum to at most [K]. *)
Lemma magnitude_digits (m : Z) (e K : Z) :
  (0 < m)%Z -> inject_Z m * 2 ^ e < 2 ^ K -> (Zdigits2 m + e <= K)%Z.
Proof.
  intros Hm H. destruct m as [| p | p]; try lia. cbn [Zdigits2].
  pose proof (digits2_pos_bounds p) as [Hlo _].
  assert (Hd : (0 <= Z.pos (digits2_pos p) - 1)%Z) by lia.
  rewrite Zle_Qle, (pow2_inject _ Hd) in Hlo.
  assert (H1 : 2 ^ (Z.pos (digits2_pos p) - 1) * 2 ^ e <= inject_Z (Z.pos p) * 2 ^ e).
  { apply Qmult_le_compat_r; [exact Hlo | apply Qlt_le_weak, pow2_pos]. }
  rewrite <- pow2_add in H1.
  assert (H2 : 2 ^ (Z.pos (digits2_pos p) - 1 + e) < 2 ^ K) by (eapply Qle_lt_trans; eassumption).
  apply pow2_lt_inv in H2. lia.
Qed.

Lemma fexp_mono (prec emax a b : Z) :
  (a <= b)%Z -> (SpecFloat.fexp prec emax a <= SpecFloat.fexp prec emax b)%Z.
Proof. unfold SpecFloat.fexp. lia. Qed.

(** The location the division computes from a remainder is the location of
    the exact quotient. *)
Lemma new_location_locates (q D r : Z) :
  (0 < D)%Z -> (0 <= r < D)%Z ->
  Float.locates (q * D + r) D (shr_record_of_loc q (new_location D r)).
Proof.
  intros HD Hr. unfold new_location, new_location_even, new_location_odd.
  destruct (Z.even D) eqn:Hev.
  - destruct (Z.eqb_spec r 0) as [-> | Hne].
    + unfold Float.locates. cbn. lia.
    + destruct (Z.compare_spec (2 * r) D) as [Hc | Hc | Hc];
        unfold Float.locates; cbn [shr_record_of_loc shr_m shr_r shr_s]; lia.
  - assert (Hodd : Z.odd D = true) by (rewrite <- Z.negb_even, Hev; reflexivity).
    apply Z.odd_spec in Hodd. destruct Hodd as [j Hj].
    destruct (Z.eqb_spec r 0) as [-> | Hne].
    + unfold Float.locates. cbn. lia.
    + destruct (Z.compare_spec (2 * r + 1) D) as [Hc | Hc | Hc];
        unfold Float.locates; cbn [shr_record_of_loc shr_m shr_r shr_s]; lia.
Qed.

Section Operations.

Variables prec emax : Z.
Hypothesis prec_pos : (0 < prec)%Z.
Hypothesis prec_lt_emax : (prec < emax)%Z.

Local Abbreviation fexp := (SpecFloat.fexp prec emax).
Local Abbreviation emin := (SpecFloat.emin prec emax).

(** The product of two numbers whose exact product is below [2 ^ K] is a
    number within half of [2 ^ fexp K] of the exact product. *)
Lemma SFmul_error (x y : spec_float) (K : Z) :
  Float.is_number x -> Float.is_number y ->
  Qabs (Float.to_Q x * Float.to_Q y) < 2 ^ K ->
  (K <= emax - prec)%Z ->
  Float.is_number (SFmul prec emax x y)
  /\ Qabs (Float.to_Q (SFmul prec emax x y) - Float.to_Q x * Float.to_Q y) <= (1 # 2) * 2 ^ fexp K.
Proof.
  intros Hx Hy Hlt HK.
  assert (Hpos : 0 <= (1 # 2) * 2 ^ fexp K).
  { pose proof (pow2_pos (fexp K)). lra. }
  destruct x as [sx | sx | | sx mx ex]; try contradiction;
    destruct y as [sy | sy | | sy my ey]; try contradiction;
    cbn [SFmul Float.is_number]; try (split; [exact I |]; cbn [Float.to_Q];
      apply Qabs_Qle_condition; split; lra).
  assert (Hprod : Float.to_Q (S754_finite sx mx ex) * Float.to_Q (S754_finite sy my ey)
                  == Float.sgn (xorb sx sy) * (inject_Z (Z.pos (mx * my)) / inject_Z 1 * 2 ^ (ex + ey))).
  { rewrite !to_Q_finite, sgn_xorb, pow2_add, Pos2Z.inj_mul, inject_Z_mult.
    change (inject_Z 1) with 1. field. }
  assert (Hmag : inject_Z (Z.pos (mx * my)) * 2 ^ (ex + ey) < 2 ^ K).
  { rewrite Hprod in Hlt. rewrite Qabs_sgn_mult in Hlt.
    - change (inject_Z 1) with 1 in Hlt.
      setoid_replace (inject_Z (Z.pos (mx * my)) / 1 * 2 ^ (ex + ey))
        with (inject_Z (Z.pos (mx * my)) * 2 ^ (ex + ey)) in Hlt by field.
      exact Hlt.
    - change (inject_Z 1) with 1.
      setoid_replace (inject_Z (Z.pos (mx * my)) / 1 * 2 ^ (ex + ey))
        with (inject_Z (Z.pos (mx * my)) * 2 ^ (ex + ey)) by field.
      apply mantissa_nonneg. }
  pose proof (magnitude_digits _ _ _ (Pos2Z.is_pos _) Hmag) as Hdig.
  assert (Hexp : (ex + ey < K)%Z).
  { apply pow2_lt_inv. eapply Qle_lt_trans; [| exact Hmag].
    assert (H1 : 1 <= inject_Z (Z.pos (mx * my))).
    { change 1 with (inject_Z 1). rewrite <- Zle_Qle. lia. }
    assert (H2 : 1 * 2 ^ (ex + ey) <= inject_Z (Z.pos (mx * my)) * 2 ^ (ex + ey)).
    { apply Qmult_le_compat_r; [exact H1 | apply Qlt_le_weak, pow2_pos]. }
    lra. }
  pose proof (fexp_mono prec emax _ _ Hdig) as Hfexp.
  set (e' := Z.max (ex + ey) (fexp (Zdigits2 (Z.pos (mx * my)) + (ex + ey)))).
  assert (Hemax : (e' + 1 <= emax - prec)%Z).
  { unfold e'. unfold SpecFloat.fexp, SpecFloat.emin in *. lia. }
  destruct (binary_round_aux_error prec emax prec_pos (xorb sx sy)
              (Z.pos (mx * my)) 1 (Z.pos (mx * my)) (ex + ey) loc_Exact
              (Pos2Z.is_nonneg _) Z.lt_0_1) as (Hnum & Herr & Hexact).
  { unfold Float.locates. cbn. lia. }
  { exact Hemax. }
  fold e' in Herr, Hexact.
  split.
  { destruct Hnum as [-> | (m & e & ->)]; exact I. }
  rewrite Hprod.
  destruct (Z.eq_dec e' (ex + ey)) as [Heq | Hne].
  - rewrite (Hexact Heq eq_refl).
    setoid_replace (Float.sgn (xorb sx sy) * (inject_Z (Z.pos (mx * my)) / inject_Z 1 * 2 ^ (ex + ey))
                    - Float.sgn (xorb sx sy) * (inject_Z (Z.pos (mx * my)) / inject_Z 1 * 2 ^ (ex + ey)))
      with 0 by ring.
    exact Hpos.
  - eapply Qle_trans; [exact Herr |].
    assert (Hle : 2 ^ e' <= 2 ^ fexp K) by (apply pow2_le; unfold e' in *; lia).
    lra.
Qed.

(** The mantissa, exponent and location the division hands to the rounding:
    the quotient of the scaled dividend, located by its remainder. *)
Lemma SFdiv_core_binary_correct (mx my : positive) (ex ey : Z) :
  let '(q, ez, lz) := SFdiv_core_binary prec emax (Z.pos mx) ex (Z.pos my) ey in
  (0 <= q)%Z
  /\ (ez <= ex - ey)%Z
  /\ (ez <= fexp (Z.pos (digits2_pos mx) + ex - (Z.pos (digits2_pos my) + ey)))%Z
  /\ (q * Z.pos my <= Z.pos mx * 2 ^ (ex - ey - ez))%Z
  /\ Float.locates (Z.pos mx * 2 ^ (ex - ey - ez)) (Z.pos my) (shr_record_of_loc q lz).
Proof.
  unfold SFdiv_core_binary. cbn [Zdigits2].
  set (ez := Z.min (fexp (Z.pos (digits2_pos mx) + ex - (Z.pos (digits2_pos my) + ey))) (ex - ey)).
  set (s := (ex - ey - ez)%Z).
  assert (Hs : (0 <= s)%Z) by (unfold s, ez; lia).
  set (m' := match s with Zpos _ => Z.shiftl (Z.pos mx) s | Z0 => Z.pos mx | Zneg _ => 0%Z end).
  assert (Hm' : m' = (Z.pos mx * 2 ^ s)%Z).
  { unfold m'. clearbody s.
    destruct s as [| p | p]; [lia | apply Z.shiftl_mul_pow2; lia | lia]. }
  pose proof (Z_div_mod m' (Z.pos my) ltac:(lia)) as Hdiv.
  destruct (Z.div_eucl m' (Z.pos my)) as [q r]. destruct Hdiv as [Heq Hr].
  assert (Hm'pos : (0 <= m')%Z).
  { rewrite Hm'. apply Z.mul_nonneg_nonneg; [lia | apply Z.pow_nonneg; lia]. }
  assert (Hq : (0 <= q)%Z).
  { destruct (Z_lt_le_dec q 0) as [Hneg | Hok]; [| exact Hok].
    assert (Z.pos my * q <= Z.pos my * (-1))%Z by (apply Z.mul_le_mono_nonneg_l; lia).
    lia. }
  cbv beta iota. fold s.
  split; [exact Hq |]. split; [unfold ez; lia |]. split; [unfold ez; lia |].
  rewrite <- Hm'. split; [lia |].
  replace m' with (q * Z.pos my + r)%Z by lia.
  apply new_location_locates; lia.
Qed.

(** The quotient of a number by a finite float, when the exact quotient is
    below [2 ^ K], is a number; multiplied back by the divisor it is within
    half of [2 ^ fexp K] times the divisor of the dividend. *)
Lemma SFdiv_error (x : spec_float) (sy : bool) (my : positive) (ey K : Z) :
  Float.is_number x ->
  let y := S754_finite sy my ey in
  Qabs (Float.to_Q x) < 2 ^ K * Qabs (Float.to_Q y) ->
  (emin <= K <= emax - prec)%Z ->
  Float.is_number (SFdiv prec emax x y)
  /\ Qabs (Float.to_Q (SFdiv prec emax x y) * Float.to_Q y - Float.to_Q x)
     <= (1 # 2) * 2 ^ fexp K * Qabs (Float.to_Q y).
Proof.
  intros Hx y Hlt HK. unfold y in *.
  pose proof (pow2_pos (fexp K)) as Hpow.
  pose proof (mantissa_nonneg my ey) as Hynn.
  rewrite Qabs_to_Q_finite in *.
  set (Y := inject_Z (Z.pos my) * 2 ^ ey) in *.
  assert (HYpos : 0 < Y).
  { unfold Y. apply Qmult_lt_0_compat; [| apply pow2_pos].
    change 0 with (inject_Z 0). rewrite <- Zlt_Qlt. lia. }
  assert (Hpos : 0 <= (1 # 2) * 2 ^ fexp K * Y).
  { apply Qmult_le_0_compat; lra. }
  destruct x as [sx | sx | | sx mx ex]; try contradiction; cbn [SFdiv Float.is_number].
  { split; [exact I |]. cbn [Float.to_Q].
    setoid_replace (0 * Float.to_Q (S754_finite sy my ey) - 0) with 0 by ring. exact Hpos. }
  pose proof (SFdiv_core_binary_correct mx my ex ey) as Hcore.
  destruct (SFdiv_core_binary prec emax (Z.pos mx) ex (Z.pos my) ey) as [[q ez] lz].
  destruct Hcore as (Hq & Hez1 & Hez2 & Hqle & Hloc).
  set (s := (ex - ey - ez)%Z) in *.
  assert (Hs : (0 <= s)%Z) by (unfold s; lia).
  rewrite Qabs_to_Q_finite in Hlt.
  set (X := inject_Z (Z.pos mx) * 2 ^ ex) in *.
  (* the exact quotient, as the rounding sees it *)
  set (v := inject_Z (Z.pos mx * 2 ^ s) / inject_Z (Z.pos my) * 2 ^ ez).
  assert (Hmy : 0 < inject_Z (Z.pos my)).
  { change 0 with (inject_Z 0). rewrite <- Zlt_Qlt. lia. }
  assert (HvY : v * Y == X).
  { assert (E : 2 ^ ex == 2 ^ s * 2 ^ ez * 2 ^ ey).
    { rewrite <- !pow2_add. now replace (s + ez + ey)%Z with ex by (unfold s; lia). }
    unfold v, Y, X. rewrite inject_Z_mult, (pow2_inject _ Hs), E. field. lra. }
  assert (Hvlt : v < 2 ^ K).
  { apply (Qmult_lt_r _ _ Y HYpos). rewrite HvY. exact Hlt. }
  assert (Hd12 : (Z.pos (digits2_pos mx) + ex - (Z.pos (digits2_pos my) + ey) <= K)%Z).
  { pose proof (mantissa_lower mx ex) as Hlo. fold X in Hlo.
    pose proof (mantissa_upper my ey) as Hhi. fold Y in Hhi.
    assert (H1 : 2 ^ K * Y < 2 ^ K * 2 ^ (Z.pos (digits2_pos my) + ey)).
    { rewrite !(Qmult_comm (2 ^ K)). apply Qmult_lt_compat_r; [apply pow2_pos | exact Hhi]. }
    rewrite <- pow2_add in H1.
    assert (H2 : 2 ^ (Z.pos (digits2_pos mx) - 1 + ex)
                 < 2 ^ (K + (Z.pos (digits2_pos my) + ey))) by lra.
    apply pow2_lt_inv in H2. lia. }
  assert (Hez : (ez <= fexp K)%Z).
  { pose proof (fexp_mono prec emax _ _ Hd12). lia. }
  assert (Hqv : inject_Z q * 2 ^ ez <= v).
  { unfold v. apply Qmult_le_compat_r; [| apply Qlt_le_weak, pow2_pos].
    apply Qle_shift_div_l; [exact Hmy |].
    rewrite <- inject_Z_mult, <- Zle_Qle. exact Hqle. }
  assert (Hdq : (Zdigits2 q + ez <= K)%Z).
  { destruct (Z.eq_dec q 0) as [Hq0 | Hne].
    - rewrite Hq0. cbn [Zdigits2]. unfold SpecFloat.fexp in Hez. lia.
    - apply magnitude_digits; [lia | lra]. }
  pose proof (fexp_mono prec emax _ _ Hdq) as Hfq.
  set (e' := Z.max ez (fexp (Zdigits2 q + ez))).
  assert (He'K : (e' <= fexp K)%Z) by (unfold e'; lia).
  assert (Hemax : (e' + 1 <= emax - prec)%Z).
  { unfold SpecFloat.fexp, SpecFloat.emin in He'K. lia. }
  destruct (binary_round_aux_error prec emax prec_pos (xorb sx sy)
              (Z.pos mx * 2 ^ s) (Z.pos my) q ez lz Hq (Pos2Z.is_pos _) Hloc Hemax)
    as (Hnum & Herr & _).
  fold e' in Herr. fold v in Herr.
  set (z := binary_round_aux prec emax (xorb sx sy) q ez lz) in *.
  split.
  { destruct Hnum as [-> | (m & e & ->)]; exact I. }
  assert (Hid : Float.to_Q z * Float.to_Q (S754_finite sy my ey) - Float.to_Q (S754_finite sx mx ex)
                == (Float.to_Q z - Float.sgn (xorb sx sy) * v) * Float.to_Q (S754_finite sy my ey)).
  { rewrite !to_Q_finite. fold X Y. rewrite sgn_xorb.
    setoid_replace ((Float.to_Q z - Float.sgn sx * Float.sgn sy * v) * (Float.sgn sy * Y))
      with (Float.to_Q z * (Float.sgn sy * Y) - Float.sgn sx * (Float.sgn sy * Float.sgn sy) * (v * Y)) by ring.
    rewrite sgn_square, HvY. ring. }
  rewrite Hid, Qabs_Qmult, Qabs_to_Q_finite. fold Y.
  apply Qmult_le_compat_r; [| exact Hynn].
  eapply Qle_trans; [exact Herr |].
  assert (Hle : 2 ^ e' <= 2 ^ fexp K) by (apply pow2_le; exact He'K).
  lra.
Qed.

End Operations.

Local Close Scope Q_scope.

(** *** [round] *)

Lemma round_half_even_close (n d : Z) :
  0 < d -> - d <= 2 * (Float.round_half_even n d * d - n) <= d.
Proof.
  intros Hd. unfold Float.round_half_even.
  pose proof (Z.div_mod n d ltac:(lia)) as Hdm.
  pose proof (Z.mod_pos_bound n d Hd) as Hmod.
  set (q := n / d) in *. set (r := n mod d) in *.
  assert (Hq : q * d = d * q) by ring.
  destruct (Z.compare_spec (2 * r) d) as [Hc | Hc | Hc];
    [destruct (Z.even q) | |]; lia.
Qed.

Lemma round_half_even_nonneg (n d : Z) :
  0 <= n -> 0 < d -> 0 <= Float.round_half_even n d.
Proof.
  intros Hn Hd. unfold Float.round_half_even.
  assert (Hq : 0 <= n / d) by (apply Z.div_pos; lia).
  destruct (2 * (n mod d) ?= d); [destruct (Z.even (n / d)) | |]; lia.
Qed.

Local Open Scope Q_scope.

(** [round] answers on numbers, and only on them. *)
Lemma round_is_number (x : Float.float) (n : Z) :
  Float.round x = Py.Ok n -> Float.is_number x.
Proof. destruct x; cbn; intros H; (exact I || discriminate H). Qed.

Lemma round_of_number (x : Float.float) :
  Float.is_number x -> exists n : Z, Float.round x = Py.Ok n.
Proof. destruct x; cbn; intros H; try contradiction; eexists; reflexivity. Qed.

(** [round] returns an integer nearest to its argument. *)
Lemma round_nearest (x : Float.float) (n : Z) :
  Float.round x = Py.Ok n -> Qabs (inject_Z n - Float.to_Q x) <= 1 # 2.
Proof.
  destruct x as [s | s | | s m e]; cbn [Float.round]; intros H;
    try discriminate H; injection H as <-.
  - cbn. discriminate.
  - rewrite to_Q_finite.
    destruct (Z.leb_spec 0 e) as [He | He].
    + assert (Hex : inject_Z (cond_Zopp s (Z.pos m * 2 ^ e))
                   == Float.sgn s * (inject_Z (Z.pos m) * 2 ^ e)).
      { rewrite <- (pow2_inject e He), <- inject_Z_mult.
        destruct s; cbn [cond_Zopp Float.sgn]; [rewrite inject_Z_opp |]; ring. }
      rewrite Hex.
      setoid_replace (Float.sgn s * (inject_Z (Z.pos m) * 2 ^ e)
                      - Float.sgn s * (inject_Z (Z.pos m) * 2 ^ e)) with 0 by ring.
      discriminate.
    + set (d := (2 ^ (- e))%Z).
      assert (Hd : (0 < d)%Z) by (apply Z.pow_pos_nonneg; lia).
      pose proof (round_half_even_close (Z.pos m) d Hd) as [Hlo Hhi].
      set (r := Float.round_half_even (Z.pos m) d) in *.
      assert (Hlo' : (2 * Z.pos m <= 2 * (r * d) + d)%Z) by lia.
      assert (Hhi' : (2 * (r * d) <= 2 * Z.pos m + d)%Z) by lia.
      rewrite Zle_Qle in Hlo', Hhi'.
      rewrite ?inject_Z_plus, ?inject_Z_mult in Hlo', Hhi'.
      change (inject_Z 2) with 2 in *.
      assert (HdQ : inject_Z d == 2 ^ (- e)) by (apply pow2_inject; lia).
      assert (Hone : 2 ^ (- e) * 2 ^ e == 1).
      { rewrite <- pow2_add. now replace (- e + e)%Z with 0%Z by lia. }
      assert (Hdpos : 0 < inject_Z d).
      { change 0 with (inject_Z 0). rewrite <- Zlt_Qlt. exact Hd. }
      assert (Hb : - ((1 # 2) * 1) <= (inject_Z r - inject_Z (Z.pos m) * 2 ^ e) * 1
                   <= (1 # 2) * 1).
      { apply rescale_bound with (d := inject_Z d); [exact Hdpos | reflexivity |].
        assert (E : (inject_Z r - inject_Z (Z.pos m) * 2 ^ e) * inject_Z d
                    == inject_Z r * inject_Z d - inject_Z (Z.pos m) * (2 ^ (- e) * 2 ^ e)).
        { rewrite HdQ. ring. }
        rewrite E, Hone. split; lra. }
      assert (Hs : inject_Z (cond_Zopp s r) == Float.sgn s * inject_Z r).
      { destruct s; cbn [cond_Zopp Float.sgn]; [rewrite inject_Z_opp |]; ring. }
      rewrite Hs. apply Qabs_Qle_condition.
      destruct s; cbn [Float.sgn]; split; lra.
Qed.

(** *** The operations at binary64 *)

Lemma mul_error (x y : Float.float) (K : Z) :
  Float.is_number x -> Float.is_number y ->
  Qabs (Float.to_Q x * Float.to_Q y) < 2 ^ K ->
  (K <= 971)%Z ->
  Float.is_number (Float.mul x y)
  /\ Qabs (Float.to_Q (Float.mul x y) - Float.to_Q x * Float.to_Q y)
     <= (1 # 2) * 2 ^ Z.max (K - 53) (-1074).
Proof.
  intros Hx Hy Hlt HK.
  apply (SFmul_error Float.prec Float.emax); try assumption; reflexivity.
Qed.

Lemma div_error (x : Float.float) (sy : bool) (my : positive) (ey K : Z) :
  Float.is_number x ->
  Qabs (Float.to_Q x) < 2 ^ K * Qabs (Float.to_Q (S754_finite sy my ey)) ->
  (-1074 <= K <= 971)%Z ->
  Float.is_number (Float.div x (S754_finite sy my ey))
  /\ Qabs (Float.to_Q (Float.div x (S754_finite sy my ey))
           * Float.to_Q (S754_finite sy my ey) - Float.to_Q x)
     <= (1 # 2) * 2 ^ Z.max (K - 53) (-1074)
        * Qabs (Float.to_Q (S754_finite sy my ey)).
Proof.
  intros Hx Hlt HK.
  apply (SFdiv_error Float.prec Float.emax); try assumption; reflexivity.
Qed.

Local Close Scope Q_scope.

End FloatProps.

(** ** The exercise catalogue *)
Module ExerciseProps.

Import PyStr Json Tools.

Lemma supported_are_the_keys : dict_keys exercise_data = supported.
Proof. reflexivity. Qed.

Lemma dict_get_absent {A : Type} (d : list (string * A)) (k : string) :
  ~ In k (dict_keys d) -> dict_get d k = None.
Proof.
  induction d as [| [k' v] d IH]; simpl; intros Hk.
  - reflexivity.
  - destruct (String.eqb_spec k k') as [-> | Hne].
    + exfalso. apply Hk. now left.
    + apply IH. intros Hin. apply Hk. now right.
Qed.

Lemma dict_get_present {A : Type} (d : list (string * A)) (k : string) :
  In k (dict_keys d) -> exists v, dict_get d k = Some v /\ In (k, v) d.
Proof.
  induction d as [| [k' v] d IH]; simpl; intros Hk.
  - contradiction.
  - destruct (String.eqb_spec k k') as [-> | Hne].
    + exists v. split; [reflexivity | now left].
    + destruct Hk as [Heq | Hin]; [congruence |].
      destruct (IH Hin) as (v' & Hget & Hmem).
      exists v'. split; [exact Hget | now right].
Qed.

(** Every list of the catalogue has four entries. *)
Lemma catalogue_lists_have_four (k : string) (l : list string) :
  In (k, l) exercise_data -> List.length l = 4%nat.
Proof.
  unfold exercise_data. simpl.
  intros [H | [H | [H | [H | [H | []]]]]]; inversion H; reflexivity.
Qed.

(** A serialised dictionary starts with a brace, the sentence of a miss with
    a capital E: the two shapes of the returned string never coincide. *)
Lemma not_available_is_no_object (g : string) (members : list (string * json)) :
  not_available g <> dumps (JObj members).
Proof.
  unfold not_available. simpl. discriminate.
Qed.

(** C3: on an input whose lower-cased form is a supported muscle group the
    function returns the serialised record of that group (the lower-cased
    name, a non-empty list of exercise strings in catalogue order, and a
    recommendation string); on every other input it returns the plain
    sentence that the information is not available, which is no serialised
    record; and two inputs with the same lower-cased form get the same
    answer. *)
Theorem get_exercise_info_hit_or_miss (muscle_group : string) :
  (In (lower muscle_group) supported ->
   exists (exercises : list string) (recommendation : string),
     dict_get exercise_data (lower muscle_group) = Some exercises
     /\ exercises <> []
     /\ get_exercise_info_value muscle_group
        = Structured (JObj [ ("muscle_group", JStr (lower muscle_group));
                             ("exercises", JList (map JStr exercises));
                             ("recommendation", JStr recommendation) ])
     /\ get_exercise_info muscle_group
        = dumps (JObj [ ("muscle_group", JStr (lower muscle_group));
                        ("exercises", JList (map JStr exercises));
                        ("recommendation", JStr recommendation) ]))
  /\ (~ In (lower muscle_group) supported ->
      get_exercise_info muscle_group
      = "Exercise information for " ++ lower muscle_group ++ " is not available."
      /\ forall members, get_exercise_info muscle_group <> dumps (JObj members))
  /\ (forall other : string,
        lower other = lower muscle_group ->
        get_exercise_info other = get_exercise_info muscle_group).
Proof.
  split; [| split].
  - intros Hin. rewrite <- supported_are_the_keys in Hin.
    destruct (dict_get_present _ _ Hin) as (l & Hget & Hmem).
    exists l. eexists. split; [exact Hget |].
    split.
    + apply catalogue_lists_have_four in Hmem. destruct l; [discriminate | discriminate].
    + unfold get_exercise_info, get_exercise_info_value.
      rewrite Hget. unfold exercise_record. split; reflexivity.
  - intros Hout. rewrite <- supported_are_the_keys in Hout.
    unfold get_exercise_info, get_exercise_info_value.
    rewrite (dict_get_absent _ _ Hout). simpl render.
    split; [reflexivity |].
    intros members. apply not_available_is_no_object.
  - intros other Heq.
    unfold get_exercise_info, get_exercise_info_value. now rewrite Heq.
Qed.

(** The theorem at the inputs "ChEsT" (a hit) and "toes" (a miss). *)
Lemma get_exercise_info_hit_or_miss_witness :
  (exists exercises recommendation,
      get_exercise_info "ChEsT"
      = dumps (JObj [ ("muscle_group", JStr "chest");
                      ("exercises", JList (map JStr exercises));
                      ("recommendation", JStr recommendation) ]))
  /\ get_exercise_info "toes" = "Exercise information for toes is not available.".
Proof.
  split.
  - destruct (get_exercise_info_hit_or_miss "ChEsT") as (Hhit & _ & _).
    destruct Hhit as (l & r & _ & _ & _ & H).
    + simpl. now left.
    + exists l, r. exact H.
  - destruct (get_exercise_info_hit_or_miss "toes") as (_ & Hmiss & _).
    apply Hmiss. simpl.
    intros [H | [H | [H | [H | [H | []]]]]]; discriminate H.
Defined.

(** C10: on a supported muscle group (after lower-casing) the returned
    record lists exactly four exercises, and its [muscle_group] member is the
    lower-cased input, whatever the casing the caller used. *)
Theorem get_exercise_info_four_exercises (muscle_group : string) :
  In (lower muscle_group) supported ->
  exists (record : json) (items : list json),
    get_exercise_info_value muscle_group = Structured record
    /\ get_exercise_info muscle_group = dumps record
    /\ member "muscle_group" record = Some (JStr (lower muscle_group))
    /\ member "exercises" record = Some (JList items)
    /\ List.length items = 4%nat.
Proof.
  intros Hin. rewrite <- supported_are_the_keys in Hin.
  destruct (dict_get_present _ _ Hin) as (l & Hget & Hmem).
  exists (exercise_record (lower muscle_group) l), (map JStr l).
  unfold get_exercise_info, get_exercise_info_value. rewrite Hget.
  repeat split.
  rewrite List.length_map. now apply catalogue_lists_have_four with (k := lower muscle_group).
Qed.

(** The theorem at the input "LEGS": the record names "legs". *)
Lemma get_exercise_info_four_exercises_witness :
  exists (record : json) (items : list json),
    get_exercise_info "LEGS" = dumps record
    /\ member "muscle_group" record = Some (JStr "legs")
    /\ member "exercises" record = Some (JList items)
    /\ List.length items = 4%nat.
Proof.
  destruct (get_exercise_info_four_exercises "LEGS") as (r & items & _ & H1 & H2 & H3 & H4).
  - simpl. right. right. now left.
  - exists r, items. repeat split; assumption.
Defined.

End ExerciseProps.

(** ** The guardrail *)
Module GuardrailProps.

Import Agents Guardrail.

Section WithRuntime.

Variable World : Type.
Variable run_goal_analysis : string -> M World GoalAnalysis.

Local Abbreviation guardrail := (fitness_goal_guardrail World run_goal_analysis).

Lemma guardrail_on_success (input_data : string) (w w' : World)
  (analysis : GoalAnalysis) :
  run_goal_analysis (analysis_prompt input_data) w = (Returned analysis, w') ->
  guardrail input_data w
  = (Returned {| output_info := analysis;
                 tripwire_triggered := negb (is_realistic analysis) |}, w').
Proof.
  intros Hrun. unfold fitness_goal_guardrail, try_except, bind, ret.
  now rewrite Hrun.
Qed.

(** An instance of [Exception] is handled by the [except] clause. *)
Lemma guardrail_on_exception (input_data : string) (w w' : World) (e : exc) :
  run_goal_analysis (analysis_prompt input_data) w = (Raised e, w') ->
  isinstance e Exception_ = true ->
  guardrail input_data w = (Returned (fail_open e), w').
Proof.
  intros Hrun He. unfold fitness_goal_guardrail, try_except, bind, ret.
  rewrite Hrun. cbn [handle_with]. now rewrite He.
Qed.

(** A signal that is no [Exception] passes the [except] clause. *)
Lemma guardrail_on_signal (input_data : string) (w w' : World) (e : exc) :
  run_goal_analysis (analysis_prompt input_data) w = (Raised e, w') ->
  isinstance e Exception_ = false ->
  guardrail input_data w = (Raised e, w').
Proof.
  intros Hrun He. unfold fitness_goal_guardrail, try_except, bind, ret.
  rewrite Hrun. cbn [handle_with]. now rewrite He.
Qed.

(** C4, as the code has it: whenever the evaluation call returns or raises
    an instance of [Exception], the guardrail returns an output and raises
    nothing; when the call raises the [Exception] [e], the output says the
    goal is realistic, carries a reasoning string that quotes [str(e)], and
    leaves the tripwire untriggered; a signal that derives from
    [BaseException] only is not caught: the guardrail raises it to its
    caller. *)
Theorem guardrail_swallows_exceptions (input_data : string) (w : World) :
  (forall (r : outcome GoalAnalysis) (w' : World),
      run_goal_analysis (analysis_prompt input_data) w = (r, w') ->
      match r with
      | Returned _ => True
      | Raised e => isinstance e Exception_ = true
      end ->
      exists out : GuardrailFunctionOutput,
        guardrail input_data w = (Returned out, w'))
  /\ (forall (e : exc) (w' : World),
        run_goal_analysis (analysis_prompt input_data) w = (Raised e, w') ->
        isinstance e Exception_ = true ->
        exists out : GuardrailFunctionOutput,
          guardrail input_data w = (Returned out, w')
          /\ is_realistic (output_info out) = true
          /\ reasoning (output_info out) = "Error analyzing goal: " ++ str e
          /\ tripwire_triggered out = false)
  /\ (forall (class_name message : string) (w' : World),
        run_goal_analysis (analysis_prompt input_data) w
        = (Raised (BaseExceptionOnly class_name message), w') ->
        guardrail input_data w
        = (Raised (BaseExceptionOnly class_name message), w')).
Proof.
  split; [| split].
  - intros [a | e] w' Hrun Hr.
    + eexists. exact (guardrail_on_success _ _ _ _ Hrun).
    + exists (fail_open e). exact (guardrail_on_exception _ _ _ _ Hrun Hr).
  - intros e w' Hrun He. exists (fail_open e).
    split; [exact (guardrail_on_exception _ _ _ _ Hrun He) | repeat split].
  - intros class_name message w' Hrun.
    exact (guardrail_on_signal _ _ _ _ Hrun eq_refl).
Qed.

(** C5: when the analysis call returns, the guardrail hands the analysis on
    unchanged, and its tripwire is triggered exactly when the analysis says
    the goal is not realistic. *)
Theorem tripwire_iff_unrealistic (input_data : string) (w w' : World)
  (analysis : GoalAnalysis) :
  run_goal_analysis (analysis_prompt input_data) w = (Returned analysis, w') ->
  exists out : GuardrailFunctionOutput,
    guardrail input_data w = (Returned out, w')
    /\ output_info out = analysis
    /\ (tripwire_triggered out = true <-> is_realistic analysis = false).
Proof.
  intros Hrun. eexists. split; [exact (guardrail_on_success _ _ _ _ Hrun) |].
  split; [reflexivity |]. simpl.
  destruct (is_realistic analysis); simpl; split; congruence.
Qed.

End WithRuntime.

(** C4 at a runtime whose call raises an [Exception]. *)
Lemma guardrail_swallows_exceptions_witness :
  exists out : GuardrailFunctionOutput,
    fitness_goal_guardrail unit broken_runtime "I want to lose 20 pounds in 2 weeks" tt
    = (Returned out, tt)
    /\ is_realistic (output_info out) = true
    /\ reasoning (output_info out) = "Error analyzing goal: connection refused"
    /\ tripwire_triggered out = false.
Proof.
  destruct (guardrail_swallows_exceptions unit broken_runtime
              "I want to lose 20 pounds in 2 weeks" tt) as (_ & H & _).
  apply (H (OtherException "connection refused") tt); reflexivity.
Defined.

(** C4 as the specification words it fails: when the evaluation call is
    cancelled, the guardrail does not return an output: it raises the
    cancellation to its caller. *)
Lemma guardrail_raises_a_cancellation :
  ~ (forall (World : Type) (run : string -> M World GoalAnalysis)
            (input_data : string) (w : World),
        exists (out : GuardrailFunctionOutput) (w' : World),
          fitness_goal_guardrail World run input_data w = (Returned out, w'))
  /\ fitness_goal_guardrail unit cancelled_runtime "I want to lose 20 pounds in 2 weeks" tt
     = (Raised (BaseExceptionOnly "CancelledError" ""), tt).
Proof.
  split.
  - intros H.
    destruct (H unit cancelled_runtime "I want to lose 20 pounds in 2 weeks" tt)
      as (out & w' & Hrun).
    rewrite (guardrail_on_signal unit cancelled_runtime _ tt tt
               (BaseExceptionOnly "CancelledError" "") eq_refl eq_refl) in Hrun.
    discriminate Hrun.
  - exact (guardrail_on_signal unit cancelled_runtime _ tt tt
             (BaseExceptionOnly "CancelledError" "") eq_refl eq_refl).
Qed.

(** C5 at a runtime that rejects the goal: the tripwire is triggered. *)
Lemma tripwire_iff_unrealistic_witness :
  exists out : GuardrailFunctionOutput,
    fitness_goal_guardrail unit strict_runtime "I want to lose 20 pounds in 2 weeks" tt
    = (Returned out, tt)
    /\ output_info out
       = {| is_realistic := false; reasoning := "more than 2 pounds per week" |}
    /\ (tripwire_triggered out = true <-> false = false).
Proof.
  apply (tripwire_iff_unrealistic unit strict_runtime
           "I want to lose 20 pounds in 2 weeks" tt tt
           {| is_realistic := false; reasoning := "more than 2 pounds per week" |}).
  reflexivity.
Defined.

End GuardrailProps.

(** ** The run driver *)
Module DriverProps.

Import Agents Driver.

Lemma branches_app (a b : list line) :
  branches (a ++ b) = (branches a ++ branches b)%list.
Proof.
  induction a as [| l a IH]; simpl; [reflexivity |].
  destruct (opens l); simpl; now rewrite IH.
Qed.

Lemma queries_printed_app (a b : list line) :
  queries_printed (a ++ b) = (queries_printed a ++ queries_printed b)%list.
Proof.
  induction a as [| l a IH]; simpl; [reflexivity |].
  destruct l; simpl; now rewrite IH.
Qed.

(** No exception has an attribute [guardrail_output]: under its header the
    rejection branch prints the fixed notice. *)
Lemma rejection_line_is_the_notice (e : exc) :
  rejection_line e = UnsafeGoalNotice.
Proof. destruct e; reflexivity. Qed.

Lemma dispatch_opens_its_branch (r : outcome final_output) :
  branches (dispatch_lines r)
  = match dispatch_branch r with Some b => [b] | None => [] end.
Proof. destruct r as [[p | p | t] | [t | m | c m]]; reflexivity. Qed.

Lemma dispatch_prints_no_query (r : outcome final_output) :
  queries_printed (dispatch_lines r) = [].
Proof. destruct r as [[p | p | t] | [t | m | c m]]; reflexivity. Qed.

Lemma dispatched_pass_returns (r : outcome final_output) :
  dispatched r -> pass_outcome r = Returned tt.
Proof. destruct r as [o | [t | m | c m]]; simpl; intros H; (reflexivity || discriminate H). Qed.

Lemma dispatched_has_a_branch (r : outcome final_output) :
  dispatched r -> exists b : branch, dispatch_branch r = Some b.
Proof.
  destruct r as [[p | p | t] | [t | m | c m]]; simpl; intros H;
    try (eexists; reflexivity); discriminate H.
Qed.

Section WithRuntime.

Variable World : Type.
Variable run_fitness_agent : string -> UserContext -> M World final_output.

Local Abbreviation handle := (handle_query World run_fitness_agent).
Local Abbreviation loop := (for_each World run_fitness_agent).

(** The state after one pass of the loop body, by what the runtime call did. *)
Local Abbreviation passed :=
  (fun (context : UserContext) (query : string) (s : state World) =>
     {| world := snd (run_fitness_agent query context (world s));
        stdout := (stdout s
                   ++ [RuleAbove; QueryLine query; RuleBelow]
                   ++ dispatch_lines (fst (run_fitness_agent query context (world s))))%list |}).

(** One pass of the loop body: the world is the one the runtime call left,
    the printed lines are the banner of the query followed by the lines of
    the dispatch, and the pass returns unless the call was cut short by a
    signal that is no [Exception], which it raises on. *)
Lemma handle_query_effect (context : UserContext) (query : string)
  (s : state World) :
  handle context query s
  = (pass_outcome (fst (run_fitness_agent query context (world s))),
     passed context query s).
Proof.
  unfold handle_query, bind, try_except, lift, print. simpl.
  destruct (run_fitness_agent query context (world s))
    as [[[p | p | t] | [t | m | c m]] w'];
    simpl; repeat rewrite <- app_assoc; reflexivity.
Qed.

(** The loop, one query at a time. *)
Lemma for_each_step (context : UserContext) (q : string) (qs : list string)
  (s : state World) :
  loop context (q :: qs) s
  = match pass_outcome (fst (run_fitness_agent q context (world s))) with
    | Returned _ => loop context qs (passed context q s)
    | Raised e => (Raised e, passed context q s)
    end.
Proof.
  cbn [for_each]. unfold bind. rewrite handle_query_effect.
  destruct (pass_outcome (fst (run_fitness_agent q context (world s))));
    reflexivity.
Qed.

(** Over a runtime that raises instances of [Exception] only, the loop
    returns from every state and has then printed the banner of every query,
    in order, and opened one branch for each. *)
Lemma for_each_completes (context : UserContext) (qs : list string) :
  raises_only_exceptions run_fitness_agent ->
  forall s : state World,
  exists s' : state World,
    loop context qs s = (Returned tt, s')
    /\ queries_printed (stdout s') = (queries_printed (stdout s) ++ qs)%list
    /\ List.length (branches (stdout s'))
       = (List.length (branches (stdout s)) + List.length qs)%nat.
Proof.
  intros Hrun. induction qs as [| q qs IH]; intros s.
  - exists s. simpl. unfold ret. rewrite app_nil_r, Nat.add_0_r. repeat split.
  - rewrite for_each_step.
    pose proof (Hrun q context (world s)) as Hd.
    rewrite (dispatched_pass_returns _ Hd).
    destruct (dispatched_has_a_branch _ Hd) as (b & Hb).
    destruct (IH (passed context q s)) as (s' & Hloop & Hq & Hn).
    exists s'. split; [exact Hloop |]. cbn [stdout] in Hq, Hn. split.
    + rewrite Hq, !queries_printed_app. simpl.
      rewrite dispatch_prints_no_query, <- app_assoc. reflexivity.
    + rewrite Hn, !branches_app. simpl.
      rewrite dispatch_opens_its_branch, Hb, !List.length_app. simpl. lia.
Qed.


(** C8, at the defect: a tripwire raised by the runtime is caught by the
    clause of its own, apart from other failures, and the pass returns; but
    the handler looks for the reasoning under an attribute
    [guardrail_output], which the exception does not have, so it prints the
    fixed notice under the header and never the reasoning, which is there
    to read under [guardrail_result.output.output_info.reasoning].  The
    rest of the claim holds of instances of [Exception]: any other one is
    caught and printed as one error line, and over a runtime that raises
    nothing else the loop goes through every query of the list. *)
Theorem tripwire_reasoning_is_not_printed (context : UserContext) :
  (forall (query : string) (s : state World) (t : tripwire) (w' : World),
      run_fitness_agent query context (world s)
      = (Raised (InputGuardrailTripwireTriggered t), w') ->
      handle context query s
      = (Returned tt,
         {| world := w';
            stdout := (stdout s ++ [RuleAbove; QueryLine query; RuleBelow;
                                    GuardrailHeader; UnsafeGoalNotice])%list |})
      /\ hasattr (ExceptionObject (InputGuardrailTripwireTriggered t))
           "guardrail_output" = false
      /\ exists res out info : object,
           getattr (ExceptionObject (InputGuardrailTripwireTriggered t))
             "guardrail_result" = Some res
           /\ getattr res "output" = Some out
           /\ getattr out "output_info" = Some info
           /\ getattr info "reasoning"
              = Some (StrObject
                        (reasoning (output_info (output (guardrail_result t))))))
  /\ (forall (query : string) (s : state World) (message : string) (w' : World),
        run_fitness_agent query context (world s)
        = (Raised (OtherException message), w') ->
        handle context query s
        = (Returned tt,
           {| world := w';
              stdout := (stdout s ++ [RuleAbove; QueryLine query; RuleBelow;
                                      ErrorLine message])%list |}))
  /\ (raises_only_exceptions run_fitness_agent ->
      forall (qs : list string) (s : state World),
        exists s' : state World,
          loop context qs s = (Returned tt, s')
          /\ queries_printed (stdout s') = (queries_printed (stdout s) ++ qs)%list).
Proof.
  split; [| split].
  - intros query s t w' Hrun. split; [| split].
    + rewrite handle_query_effect, Hrun. reflexivity.
    + reflexivity.
    + do 3 eexists. repeat split.
  - intros query s message w' Hrun.
    rewrite handle_query_effect, Hrun. reflexivity.
  - intros Honly qs s.
    destruct (for_each_completes context qs Honly s) as (s' & Hloop & Hq & _).
    exists s'. split; assumption.
Qed.


End WithRuntime.

(** C8 at the demo's third query, over a runtime whose guardrail trips with
    a reasoning: the notice is printed, the reasoning is not. *)
Lemma tripwire_reasoning_is_not_printed_witness :
  handle_query unit (rejecting_runtime reasoned_tripwire) user_context
    "I want to lose 20 pounds in 2 weeks" empty_run
  = (Returned tt,
     {| world := tt;
        stdout := [RuleAbove; QueryLine "I want to lose 20 pounds in 2 weeks";
                   RuleBelow; GuardrailHeader; UnsafeGoalNotice] |})
  /\ hasattr (ExceptionObject (InputGuardrailTripwireTriggered reasoned_tripwire))
       "guardrail_output" = false
  /\ exists res out info : object,
       getattr (ExceptionObject (InputGuardrailTripwireTriggered reasoned_tripwire))
         "guardrail_result" = Some res
       /\ getattr res "output" = Some out
       /\ getattr out "output_info" = Some info
       /\ getattr info "reasoning" = Some (StrObject "unsafe rate of loss").
Proof.
  destruct (tripwire_reasoning_is_not_printed unit
              (rejecting_runtime reasoned_tripwire) user_context) as (H & _ & _).
  exact (H "I want to lose 20 pounds in 2 weeks" empty_run reasoned_tripwire tt
           eq_refl).
Defined.



End DriverProps.

(** ** The calorie calculator *)
Module CaloriesProps.

Import PyStr Json Py Float Tools.

Lemma spec_goal_kind_weight_loss (goal : string) :
  spec_goal_kind goal = WeightLoss <-> lower goal = "weight loss".
Proof.
  unfold spec_goal_kind.
  destruct (String.eqb_spec (lower goal) "weight loss") as [H | H].
  - tauto.
  - destruct (String.eqb_spec (lower goal) "muscle gain"); split; intros; congruence.
Qed.

Lemma spec_goal_kind_muscle_gain (goal : string) :
  spec_goal_kind goal = MuscleGain <-> lower goal = "muscle gain".
Proof.
  unfold spec_goal_kind.
  destruct (String.eqb_spec (lower goal) "weight loss") as [H | H].
  - rewrite H. split; intros; discriminate.
  - destruct (String.eqb_spec (lower goal) "muscle gain"); split; intros; congruence.
Qed.

Lemma spec_goal_kind_other (goal : string) :
  spec_goal_kind goal = OtherGoal
  <-> lower goal <> "weight loss" /\ lower goal <> "muscle gain".
Proof.
  unfold spec_goal_kind.
  destruct (String.eqb_spec (lower goal) "weight loss") as [H | H].
  - split; [discriminate | tauto].
  - destruct (String.eqb_spec (lower goal) "muscle gain"); split; intros; try tauto; discriminate.
Qed.

Lemma spec_is_male_iff (gender : string) :
  spec_is_male gender = true <-> lower gender = "male" \/ lower gender = "m".
Proof.
  unfold spec_is_male. rewrite orb_true_iff, !String.eqb_eq. tauto.
Qed.

(** The code and the rule agree on every intermediate value. *)
Lemma bmr_is_spec_bmr (w h : float) (age : Z) (gender : string) :
  bmr w h age gender
  = (a <- float_of_int (5 * age) ;; Ok (spec_bmr (spec_is_male gender) w h a)).
Proof.
  unfold bmr, spec_bmr, spec_is_male, in_list. cbn [existsb].
  rewrite orb_false_r.
  destruct (String.eqb (lower gender) "male" || String.eqb (lower gender) "m")%bool;
    reflexivity.
Qed.

Lemma calorie_target_is_spec (goal : string) (t : float) :
  calorie_target goal t = spec_target (spec_goal_kind goal) t.
Proof.
  unfold calorie_target, spec_target, spec_goal_kind.
  destruct (String.eqb (lower goal) "weight loss"); [reflexivity |].
  destruct (String.eqb (lower goal) "muscle gain"); reflexivity.
Qed.

Lemma macro_pcts_is_spec (goal : string) :
  macro_pcts goal = spec_pcts (spec_goal_kind goal).
Proof.
  unfold macro_pcts, spec_pcts, spec_goal_kind.
  destruct (String.eqb (lower goal) "weight loss"); [reflexivity |].
  destruct (String.eqb (lower goal) "muscle gain"); reflexivity.
Qed.

(** What a successful call did, step by step. *)
Lemma calculate_calories_value_steps
  (goal : string) (w h : float) (age : Z) (gender : string) (r : calories) :
  calculate_calories_value goal w h age gender = Ok r ->
  exists (a : float),
    float_of_int (5 * age) = Ok a
    /\ let target :=
         spec_target (spec_goal_kind goal)
           (mul (spec_bmr (spec_is_male gender) w h a) c_1_55) in
       let '(pp, fp, cp) := spec_pcts (spec_goal_kind goal) in
       goal_of r = goal
       /\ round target = Ok (daily_calories r)
       /\ round (div (mul target pp) (of_Z 4)) = Ok (protein r)
       /\ round (div (mul target fp) (of_Z 9)) = Ok (fat r)
       /\ round (div (mul target cp) (of_Z 4)) = Ok (carbs r).
Proof.
  unfold calculate_calories_value. rewrite bmr_is_spec_bmr.
  destruct (float_of_int (5 * age)) as [a | e]; [| discriminate].
  cbn [bind]. unfold tdee. rewrite calorie_target_is_spec, macro_pcts_is_spec.
  intros H. exists a. split; [reflexivity |]. cbv zeta.
  destruct (spec_pcts (spec_goal_kind goal)) as [[pp fp] cp].
  set (target := spec_target _ _) in *.
  destruct (round (div (mul target pp) (of_Z 4))) as [p | e]; [| discriminate].
  destruct (round (div (mul target fp) (of_Z 9))) as [f | e]; [| discriminate].
  destruct (round (div (mul target cp) (of_Z 4))) as [c | e]; [| discriminate].
  destruct (round target) as [d | e]; [| discriminate].
  cbn [bind] in H. injection H as <-. cbn. repeat split.
Qed.

(** C1, with the worked example as the code computes it.  For every
    weight, height, age and gender the BMR is the Mifflin-St Jeor sum with
    [+ 5] when the lower-cased gender is male or m and with [- 161]
    otherwise, [5 * age] being converted to a float first (the one step
    that can raise); the TDEE is 1.55 times the BMR; the target is the TDEE
    less 500 when the lower-cased goal is weight loss, plus 300 when it is
    muscle gain, and the TDEE itself otherwise; a call that returns gives
    the rounded target as [daily_calories].  For weight loss, 80 kg, 175 cm,
    28 years, male, the BMR is 1758.75, the TDEE 2726.0625, the target
    2226.0625 and the result 2226 kcal with 223 g protein, 74 g fat and
    167 g carbohydrate. *)
Theorem calories_follow_mifflin_st_jeor :
  (forall (w h : float) (age : Z) (gender : string),
      (lower gender = "male" \/ lower gender = "m" ->
       bmr w h age gender
       = (a <- float_of_int (5 * age) ;;
          Ok (add (sub (add (mul (of_Z 10) w) (mul c_6_25 h)) a) (of_Z 5))))
      /\ (lower gender <> "male" -> lower gender <> "m" ->
          bmr w h age gender
          = (a <- float_of_int (5 * age) ;;
             Ok (sub (sub (add (mul (of_Z 10) w) (mul c_6_25 h)) a) (of_Z 161)))))
  /\ (forall b : float, tdee b = mul b c_1_55)
  /\ (forall (goal : string) (t : float),
        (lower goal = "weight loss" -> calorie_target goal t = sub t (of_Z 500))
        /\ (lower goal = "muscle gain" -> calorie_target goal t = add t (of_Z 300))
        /\ (lower goal <> "weight loss" -> lower goal <> "muscle gain" ->
            calorie_target goal t = t))
  /\ (forall (goal : string) (w h : float) (age : Z) (gender : string) (r : calories),
        calculate_calories_value goal w h age gender = Ok r ->
        exists b : float,
          bmr w h age gender = Ok b
          /\ round (calorie_target goal (tdee b)) = Ok (daily_calories r))
  /\ (exists b : float,
        bmr (of_Z 80) (of_Z 175) 28 "male" = Ok b
        /\ (to_Q b == 175875 # 100)%Q
        /\ (to_Q (tdee b) == 27260625 # 10000)%Q
        /\ (to_Q (calorie_target "weight loss" (tdee b)) == 22260625 # 10000)%Q
        /\ calculate_calories_value "weight loss" (of_Z 80) (of_Z 175) 28 "male"
           = Ok {| goal_of := "weight loss"; daily_calories := 2226;
                   protein := 223; fat := 74; carbs := 167 |}).
Proof.
  split; [| split; [| split; [| split]]].
  - intros w h age gender. rewrite bmr_is_spec_bmr. unfold spec_bmr. split.
    + intros Hmale. apply spec_is_male_iff in Hmale. now rewrite Hmale.
    + intros Hn1 Hn2. destruct (spec_is_male gender) eqn:Hm; [| reflexivity].
      apply spec_is_male_iff in Hm. tauto.
  - reflexivity.
  - intros goal t. rewrite calorie_target_is_spec. split; [| split].
    + intros Hg. apply spec_goal_kind_weight_loss in Hg. now rewrite Hg.
    + intros Hg. apply spec_goal_kind_muscle_gain in Hg. now rewrite Hg.
    + intros Hn1 Hn2.
      assert (Hk : spec_goal_kind goal = OtherGoal) by (apply spec_goal_kind_other; tauto).
      now rewrite Hk.
  - intros goal w h age gender r Hr.
    destruct (calculate_calories_value_steps _ _ _ _ _ _ Hr) as (a & Ha & Hsteps).
    cbv zeta in Hsteps.
    destruct (spec_pcts (spec_goal_kind goal)) as [[pp fp] cp].
    destruct Hsteps as (_ & Hdaily & _).
    exists (spec_bmr (spec_is_male gender) w h a). split.
    + rewrite bmr_is_spec_bmr, Ha. reflexivity.
    + rewrite calorie_target_is_spec. exact Hdaily.
  - eexists. split; [vm_compute; reflexivity |].
    repeat split; vm_compute; reflexivity.
Qed.

(** The rule at a concrete call: muscle gain, 60 kg, 165 cm, 35 years, a
    gender that is not male; the call returns 2308 kcal. *)
Lemma calories_follow_mifflin_st_jeor_witness :
  bmr (of_Z 60) (of_Z 165) 35 "Female"
  = (a <- float_of_int (5 * 35) ;;
     Ok (sub (sub (add (mul (of_Z 10) (of_Z 60)) (mul c_6_25 (of_Z 165))) a)
             (of_Z 161)))
  /\ (forall t : float, calorie_target "Muscle Gain" t = add t (of_Z 300))
  /\ exists b : float,
       bmr (of_Z 60) (of_Z 165) 35 "Female" = Ok b
       /\ round (calorie_target "Muscle Gain" (tdee b)) = Ok 2308.
Proof.
  destruct calories_follow_mifflin_st_jeor as (Hbmr & _ & Htarget & Hcall & _).
  split; [| split].
  - apply (Hbmr (of_Z 60) (of_Z 165) 35 "Female"); vm_compute; discriminate.
  - intros t. apply (Htarget "Muscle Gain" t). vm_compute. reflexivity.
  - apply (Hcall "Muscle Gain" (of_Z 60) (of_Z 165) 35 "Female"
             {| goal_of := "Muscle Gain"; daily_calories := 2308;
                protein := 173; fat := 64; carbs := 260 |}).
    vm_compute. reflexivity.
Defined.

(** C1 as the specification words it fails on its own example: the call
    for weight loss, 80 kg, 175 cm, 28 years, male does not return 2311. *)
Lemma worked_example_is_not_2311 :
  ~ (exists r : calories,
        calculate_calories_value "weight loss" (of_Z 80) (of_Z 175) 28 "male" = Ok r
        /\ daily_calories r = 2311).
Proof.
  intros (r & Hr & Hd).
  vm_compute in Hr. injection Hr as Heq. rewrite <- Heq in Hd.
  cbn in Hd. discriminate Hd.
Qed.

(** The percentage constants are the floats nearest to the decimal
    fractions: each is within [2 ^ -55] (half a unit in the last place) of its fraction. *)
Lemma percent_literals :
  (Qabs (to_Q c_0_40 - (40 # 100)) <= 2 ^ (-55)
   /\ Qabs (to_Q c_0_30 - (30 # 100)) <= 2 ^ (-55)
   /\ Qabs (to_Q c_0_25 - (25 # 100)) <= 2 ^ (-55)
   /\ Qabs (to_Q c_0_45 - (45 # 100)) <= 2 ^ (-55))%Q.
Proof. split; [| split; [| split]]; vm_compute; discriminate. Qed.



(** *** Non-negative macros close to the target *)

Local Open Scope Q_scope.

(** One macro of a target between -1/2 and [10 ^ 14 + 1]: the grams
    are not negative, and their calorie equivalent is within half the
    divisor, and a rounding error of at most 5/64, of the share. *)
Lemma macro_close (target pct : float) (sy : bool) (my : positive) (ey : Z)
  (k : Q) (g : Z) :
  is_number target ->
  - (1 # 2) <= to_Q target <= 100000000000001 ->
  is_number pct ->
  0 <= to_Q pct <= 1 # 2 ->
  to_Q (S754_finite sy my ey) == k ->
  4 <= k <= 9 ->
  round (div (mul target pct) (S754_finite sy my ey)) = Ok g ->
  Qabs (k * inject_Z g - to_Q target * to_Q pct) <= k * (1 # 2) + (5 # 64)
  /\ (0 <= g)%Z.
Proof.
  intros Ht Htr Hc Hcr Hk Hkr Hg.
  set (t := to_Q target) in *. set (c := to_Q pct) in *.
  assert (Hpow : 2 ^ 47 == 140737488355328) by reflexivity.
  assert (Hdelta : (1 # 2) * 2 ^ Z.max (47 - 53) (-1074) == 1 # 128) by reflexivity.
  (* the product *)
  assert (Hprod : Qabs (t * c) < 2 ^ 47).
  { rewrite Hpow. apply Qabs_Qlt_condition. split; nra. }
  destruct (FloatProps.mul_error target pct 47 Ht Hc Hprod ltac:(lia)) as [Hna Ha].
  fold t c in Ha. rewrite Hdelta in Ha.
  set (a := to_Q (mul target pct)) in *.
  apply Qabs_Qle_condition in Ha.
  (* the quotient *)
  assert (Habs_y : Qabs (to_Q (S754_finite sy my ey)) == k).
  { rewrite Hk. apply Qabs_pos. lra. }
  assert (Hquot : Qabs a < 2 ^ 47 * Qabs (to_Q (S754_finite sy my ey))).
  { rewrite Habs_y, Hpow. apply Qabs_Qlt_condition. split; nra. }
  destruct (FloatProps.div_error (mul target pct) sy my ey 47 Hna Hquot ltac:(lia))
    as [Hnq Hq].
  fold a in Hq. rewrite Hdelta, Habs_y, Hk in Hq.
  set (q := to_Q (div (mul target pct) (S754_finite sy my ey))) in *.
  apply Qabs_Qle_condition in Hq.
  (* the rounding *)
  pose proof (FloatProps.round_nearest _ _ Hg) as Hr. fold q in Hr.
  apply Qabs_Qle_condition in Hr.
  set (G := inject_Z g) in *.
  split.
  - apply Qabs_Qle_condition. split; nra.
  - assert (Hgt : -1 < G) by nra.
    unfold G in Hgt. change (-1) with (inject_Z (-1)) in Hgt.
    rewrite <- Zlt_Qlt in Hgt. lia.
Qed.

Lemma pct_values :
  to_Q c_0_40 == 7205759403792794 # 18014398509481984
  /\ to_Q c_0_30 == 5404319552844595 # 18014398509481984
  /\ to_Q c_0_25 == 1 # 4
  /\ to_Q c_0_45 == 8106479329266893 # 18014398509481984.
Proof. repeat split; reflexivity. Qed.

Lemma divisor_values :
  of_Z 4 = S754_finite false 4503599627370496 (-50)
  /\ of_Z 9 = S754_finite false 5066549580791808 (-49)
  /\ to_Q (of_Z 4) == 4 /\ to_Q (of_Z 9) == 9.
Proof. repeat split; reflexivity. Qed.

(** The three macros of one target, for shares that add up to one. *)
Lemma macros_close (target pp fp cp : float) (d p f c : Z) :
  is_number pp -> is_number fp -> is_number cp ->
  0 <= to_Q pp <= 1 # 2 -> 0 <= to_Q fp <= 1 # 2 -> 0 <= to_Q cp <= 1 # 2 ->
  to_Q pp + to_Q fp + to_Q cp == 1 ->
  round target = Ok d ->
  (0 <= d <= 100000000000000)%Z ->
  round (div (mul target pp) (of_Z 4)) = Ok p ->
  round (div (mul target fp) (of_Z 9)) = Ok f ->
  round (div (mul target cp) (of_Z 4)) = Ok c ->
  (0 <= p /\ 0 <= f /\ 0 <= c /\ Z.abs (p * 4 + c * 4 + f * 9 - d) <= 9)%Z.
Proof.
  intros Hnp Hnf Hnc Hrp Hrf Hrc Hsum Hd Hdr Hp Hf Hc.
  destruct divisor_values as (E4 & E9 & V4 & V9).
  pose proof (FloatProps.round_is_number _ _ Hd) as Hnt.
  pose proof (FloatProps.round_nearest _ _ Hd) as Hdn.
  apply Qabs_Qle_condition in Hdn.
  assert (HdQ : 0 <= inject_Z d <= 100000000000000).
  { change 0 with (inject_Z 0).
    change 100000000000000 with (inject_Z 100000000000000).
    rewrite <- !Zle_Qle. exact Hdr. }
  assert (Htr : - (1 # 2) <= to_Q target <= 100000000000001) by (split; lra).
  rewrite E4 in Hp, Hc, V4. rewrite E9 in Hf, V9.
  destruct (macro_close target pp _ _ _ 4 p Hnt Htr Hnp Hrp V4 ltac:(split; lra) Hp)
    as [Hpc Hp0].
  destruct (macro_close target fp _ _ _ 9 f Hnt Htr Hnf Hrf V9 ltac:(split; lra) Hf)
    as [Hfc Hf0].
  destruct (macro_close target cp _ _ _ 4 c Hnt Htr Hnc Hrc V4 ltac:(split; lra) Hc)
    as [Hcc Hc0].
  split; [exact Hp0 |]. split; [exact Hf0 |]. split; [exact Hc0 |].
  apply Qabs_Qle_condition in Hpc, Hfc, Hcc.
  set (t := to_Q target) in *.
  assert (Hone : t * to_Q pp + t * to_Q fp + t * to_Q cp == t).
  { setoid_replace (t * to_Q pp + t * to_Q fp + t * to_Q cp)
      with (t * (to_Q pp + to_Q fp + to_Q cp)) by ring.
    rewrite Hsum. ring. }
  set (x := (p * 4 + c * 4 + f * 9 - d)%Z).
  assert (Hx : inject_Z x == 4 * inject_Z p + 4 * inject_Z c + 9 * inject_Z f - inject_Z d).
  { unfold x, Z.sub. rewrite !inject_Z_plus, !inject_Z_mult, inject_Z_opp.
    change (inject_Z 4) with 4. change (inject_Z 9) with 9. ring. }
  assert (Hlt : inject_Z (-10) < inject_Z x /\ inject_Z x < inject_Z 10).
  { rewrite Hx. change (inject_Z (-10)) with (-10). change (inject_Z 10) with 10.
    split; lra. }
  rewrite <- !Zlt_Qlt in Hlt. lia.
Qed.

Local Close Scope Q_scope.

(** C6, as the code has it: whenever the call returns a [daily_calories]
    between 0 and [10 ^ 14], the three macro gram values are non-negative
    integers and their calorie equivalent (4 kcal per gram of protein and
    of carbohydrate, 9 per gram of fat) is within 9 kcal, that is 3 kcal per
    macro, of [daily_calories]. *)
Theorem macros_nonnegative_and_close
  (goal : string) (w h : float) (age : Z) (gender : string) (r : calories) :
  calculate_calories_value goal w h age gender = Ok r ->
  0 <= daily_calories r <= 100000000000000 ->
  0 <= protein r /\ 0 <= fat r /\ 0 <= carbs r
  /\ Z.abs (macro_calories r - daily_calories r) <= 9.
Proof.
  intros Hr Hrange.
  destruct (calculate_calories_value_steps _ _ _ _ _ _ Hr) as (a & Ha & Hsteps).
  cbv zeta in Hsteps. unfold macro_calories.
  destruct pct_values as (V40 & V30 & V25 & V45).
  destruct (spec_goal_kind goal); cbn [spec_pcts] in Hsteps;
    destruct Hsteps as (_ & Hd & Hp & Hf & Hc);
    (apply (fun Hnp Hnf Hnc Hrp Hrf Hrc Hsum =>
              macros_close _ _ _ _ _ _ _ _ Hnp Hnf Hnc Hrp Hrf Hrc Hsum
                Hd Hrange Hp Hf Hc);
     try exact I;
     rewrite ?V40, ?V30, ?V25, ?V45;
     first [ reflexivity | split; discriminate ]).
Qed.

(** C6 at the worked example: 223 g, 74 g and 167 g make 2226 kcal. *)
Lemma macros_nonnegative_and_close_witness :
  0 <= 223 /\ 0 <= 74 /\ 0 <= 167 /\ Z.abs (223 * 4 + 167 * 4 + 74 * 9 - 2226) <= 9.
Proof.
  apply (macros_nonnegative_and_close "weight loss" (of_Z 80) (of_Z 175) 28 "male"
           {| goal_of := "weight loss"; daily_calories := 2226;
              protein := 223; fat := 74; carbs := 167 |}).
  - vm_compute. reflexivity.
  - cbn. lia.
Defined.

(** C6 as the specification words it fails twice: a light person who wants
    to lose weight gets negative grams (10 kg, 50 cm, 30 years: -85 kcal,
    -9 g, -3 g, -6 g), and for a weight of [10 ^ 17] kg the macros of the
    default split are 32 kcal away from [daily_calories]. *)
Lemma macros_negative_or_far :
  ~ (forall (goal : string) (w h : float) (age : Z) (gender : string) (r : calories),
        calculate_calories_value goal w h age gender = Ok r ->
        0 <= protein r /\ 0 <= fat r /\ 0 <= carbs r
        /\ Z.abs (macro_calories r - daily_calories r) <= 9)
  /\ calculate_calories_value "weight loss" (of_Z 10) (of_Z 50) 30 "male"
     = Ok {| goal_of := "weight loss"; daily_calories := -85;
             protein := -9; fat := -3; carbs := -6 |}
  /\ (exists r : calories,
        calculate_calories_value "maintain" (of_Z (10 ^ 17)) (of_Z 175) 28 "male" = Ok r
        /\ 0 <= protein r /\ 0 <= fat r /\ 0 <= carbs r
        /\ macro_calories r - daily_calories r = 32).
Proof.
  split; [| split].
  - intros H.
    destruct (H "weight loss" (of_Z 10) (of_Z 50) 30 "male"
                {| goal_of := "weight loss"; daily_calories := -85;
                   protein := -9; fat := -3; carbs := -6 |}) as [Hneg _].
    + vm_compute. reflexivity.
    + cbn in Hneg. lia.
  - vm_compute. reflexivity.
  - eexists. split; [vm_compute; reflexivity |]. cbn. repeat split; lia.
Qed.

End CaloriesProps.

(** ** Binary64 arithmetic: sums, differences and integers *)
Module FloatSumProps.

Import FloatProps.

(** *** Aligning a mantissa to a lower exponent *)

Lemma iter_xO_value (d : positive) (m : positive) :
  Z.pos (Pos.iter xO m d) = Z.pos m * 2 ^ Z.pos d.
Proof.
  induction d as [| d IH] using Pos.peano_ind.
  - simpl. lia.
  - rewrite Pos.iter_succ, Pos2Z.inj_xO, IH, Pos2Z.inj_succ, Z.pow_succ_r by lia. ring.
Qed.

Lemma shl_align_value (mx : positive) (ex ez : Z) :
  ez <= ex ->
  snd (shl_align mx ex ez) = ez
  /\ Z.pos (fst (shl_align mx ex ez)) = Z.pos mx * 2 ^ (ex - ez).
Proof.
  intros Hle. unfold shl_align.
  destruct (ez - ex) as [| d | d] eqn:Hd; cbn [fst snd]; try lia.
  - replace (ex - ez) with 0 by lia. split; lia.
  - replace (ex - ez) with (Z.pos d) by lia. split; [reflexivity | apply iter_xO_value].
Qed.

Local Open Scope Q_scope.

Section Sums.

Variables prec emax : Z.
Hypothesis prec_pos : (0 < prec)%Z.
Hypothesis prec_lt_emax : (prec < emax)%Z.

Local Abbreviation fexp := (SpecFloat.fexp prec emax).

(** Rounding a mantissa and an exponent: the result is a number within half
    of [2 ^ fexp K] of a magnitude below [2 ^ K], and the magnitude itself
    when it fits the format. *)
Lemma binary_round_error (sx : bool) (mx : positive) (ex K : Z) :
  inject_Z (Z.pos mx) * 2 ^ ex < 2 ^ K ->
  (K <= emax - prec)%Z ->
  let z := binary_round prec emax sx mx ex in
  let v := Float.sgn sx * (inject_Z (Z.pos mx) * 2 ^ ex) in
  Float.is_number z
  /\ Qabs (Float.to_Q z - v) <= (1 # 2) * 2 ^ fexp K
  /\ ((fexp (Z.pos (digits2_pos mx) + ex) <= ex)%Z -> Float.to_Q z == v).
Proof.
  intros Hlt HK z v. unfold z, binary_round.
  pose proof (magnitude_digits _ _ _ (Pos2Z.is_pos mx) Hlt) as Hdig.
  cbn [Zdigits2] in Hdig.
  set (f := fexp (Z.pos (digits2_pos mx) + ex)) in *.
  assert (HfK : (f <= fexp K)%Z) by (apply fexp_mono; exact Hdig).
  assert (Hcap : (fexp K + 1 <= emax - prec)%Z).
  { unfold SpecFloat.fexp, SpecFloat.emin. lia. }
  destruct (Z_le_gt_dec f ex) as [Hle | Hgt].
  - (* the mantissa is shifted up to the exponent [f] *)
    destruct (shl_align_value mx ex f Hle) as [He Hm].
    destruct (shl_align mx ex f) as [mz ez]. cbn [fst snd] in He, Hm. subst ez.
    assert (Hs : (0 <= ex - f)%Z) by lia.
    assert (Hval : inject_Z (Z.pos mz) * 2 ^ f == inject_Z (Z.pos mx) * 2 ^ ex).
    { rewrite Hm, inject_Z_mult, (pow2_inject _ Hs).
      replace ex with ((ex - f) + f)%Z at 2 by lia. rewrite pow2_add. ring. }
    assert (Hdz : (Zdigits2 (Z.pos mz) <= Z.pos (digits2_pos mx) + (ex - f))%Z).
    { apply Zdigits2_le_iff; [lia | lia |].
      rewrite Hm, Z.pow_add_r by lia.
      pose proof (digits2_pos_bounds mx) as [_ Hhi].
      apply Z.mul_lt_mono_pos_r; [apply Z.pow_pos_nonneg; lia | exact Hhi]. }
    assert (He' : Z.max f (fexp (Zdigits2 (Z.pos mz) + f)) = f).
    { assert (fexp (Zdigits2 (Z.pos mz) + f) <= f)%Z; [| lia].
      unfold f at 2. apply fexp_mono. lia. }
    destruct (binary_round_aux_error prec emax prec_pos sx (Z.pos mz) 1 (Z.pos mz) f loc_Exact
                (Pos2Z.is_nonneg _) Z.lt_0_1) as (Hnum & Herr & Hexact).
    { unfold Float.locates. cbn. lia. }
    { rewrite He'. lia. }
    rewrite He' in Herr, Hexact.
    assert (Hv : Float.sgn sx * (inject_Z (Z.pos mz) / inject_Z 1 * 2 ^ f) == v).
    { unfold v. rewrite <- Hval. change (inject_Z 1) with 1. field. }
    split; [destruct Hnum as [-> | (m & e & ->)]; exact I |].
    split.
    + rewrite <- Hv. eapply Qle_trans; [exact Herr |].
      pose proof (pow2_le _ _ HfK). lra.
    + intros _. rewrite <- Hv. apply Hexact; reflexivity.
  - (* the mantissa is kept and rounded at the exponent [f] *)
    assert (Hal : shl_align mx ex f = (mx, ex)).
    { unfold shl_align. destruct (f - ex)%Z as [| d | d] eqn:Hd; try reflexivity; lia. }
    rewrite Hal.
    assert (He' : Z.max ex (fexp (Zdigits2 (Z.pos mx) + ex)) = f).
    { cbn [Zdigits2]. fold f. lia. }
    destruct (binary_round_aux_error prec emax prec_pos sx (Z.pos mx) 1 (Z.pos mx) ex loc_Exact
                (Pos2Z.is_nonneg _) Z.lt_0_1) as (Hnum & Herr & Hexact).
    { unfold Float.locates. cbn. lia. }
    { rewrite He'. lia. }
    rewrite He' in Herr, Hexact.
    assert (Hv : Float.sgn sx * (inject_Z (Z.pos mx) / inject_Z 1 * 2 ^ ex) == v).
    { unfold v. change (inject_Z 1) with 1. field. }
    split; [destruct Hnum as [-> | (m & e & ->)]; exact I |].
    split.
    + rewrite <- Hv. eapply Qle_trans; [exact Herr |].
      pose proof (pow2_le _ _ HfK). lra.
    + intros Hfit. lia.
Qed.

(** The same for a signed mantissa. *)
Lemma binary_normalize_error (m e K : Z) (szero : bool) :
  Qabs (inject_Z m * 2 ^ e) < 2 ^ K ->
  (K <= emax - prec)%Z ->
  let z := binary_normalize prec emax m e szero in
  Float.is_number z
  /\ Qabs (Float.to_Q z - inject_Z m * 2 ^ e) <= (1 # 2) * 2 ^ fexp K
  /\ ((fexp (Zdigits2 m + e) <= e)%Z -> Float.to_Q z == inject_Z m * 2 ^ e).
Proof.
  intros Hlt HK z. unfold z.
  pose proof (pow2_pos (fexp K)) as Hpow.
  destruct m as [| p | p]; cbn [binary_normalize Zdigits2].
  - split; [exact I |]. cbn [Float.to_Q]. change (inject_Z 0) with 0. split.
    + setoid_replace (0 - 0 * 2 ^ e) with 0 by ring. cbn [Qabs Z.abs]. lra.
    + intros _. ring.
  - assert (Hmag : inject_Z (Z.pos p) * 2 ^ e < 2 ^ K).
    { rewrite Qabs_pos in Hlt; [exact Hlt | apply mantissa_nonneg]. }
    destruct (binary_round_error false p e K Hmag HK) as (Hn & Herr & Hex).
    cbn [Float.sgn] in Herr, Hex.
    split; [exact Hn |]. split.
    + setoid_replace (inject_Z (Z.pos p) * 2 ^ e) with (1 * (inject_Z (Z.pos p) * 2 ^ e)) by ring.
      exact Herr.
    + intros Hfit. rewrite (Hex Hfit). ring.
  - assert (Hneg : inject_Z (Z.neg p) == - inject_Z (Z.pos p)).
    { change (Z.neg p) with (- Z.pos p)%Z. rewrite inject_Z_opp. reflexivity. }
    assert (Hmag : inject_Z (Z.pos p) * 2 ^ e < 2 ^ K).
    { rewrite Hneg in Hlt.
      setoid_replace (- inject_Z (Z.pos p) * 2 ^ e) with (- (inject_Z (Z.pos p) * 2 ^ e)) in Hlt by ring.
      rewrite Qabs_opp, Qabs_pos in Hlt; [exact Hlt | apply mantissa_nonneg]. }
    destruct (binary_round_error true p e K Hmag HK) as (Hn & Herr & Hex).
    cbn [Float.sgn] in Herr, Hex.
    split; [exact Hn |]. split.
    + rewrite Hneg.
      setoid_replace (- inject_Z (Z.pos p) * 2 ^ e) with (-1 * (inject_Z (Z.pos p) * 2 ^ e)) by ring.
      exact Herr.
    + intros Hfit. rewrite (Hex Hfit), Hneg. ring.
Qed.

Lemma cond_Zopp_Q (s : bool) (m : Z) :
  inject_Z (cond_Zopp s m) == Float.sgn s * inject_Z m.
Proof. destruct s; cbn [cond_Zopp Float.sgn]; [rewrite inject_Z_opp |]; ring. Qed.

(** A mantissa aligned to a lower exponent stands for the same number. *)
Lemma aligned_value (s : bool) (m : positive) (e ez : Z) :
  (ez <= e)%Z ->
  inject_Z (cond_Zopp s (Z.pos (fst (shl_align m e ez)))) * 2 ^ ez
  == Float.to_Q (S754_finite s m e).
Proof.
  intros Hle. destruct (shl_align_value m e ez Hle) as [_ Hm].
  assert (Hs : (0 <= e - ez)%Z) by lia.
  rewrite cond_Zopp_Q, Hm, inject_Z_mult, (pow2_inject _ Hs), to_Q_finite.
  replace e with ((e - ez) + ez)%Z at 2 by lia. rewrite pow2_add. ring.
Qed.

Lemma Qabs_zero_le (b : Q) : 0 <= b -> forall u : Q, u == 0 -> Qabs u <= b.
Proof. intros Hb u Hu. rewrite Hu. exact Hb. Qed.

(** The sum of two numbers whose exact sum is below [2 ^ K] is a number
    within half of [2 ^ fexp K] of the exact sum. *)
Lemma SFadd_error (x y : spec_float) (K : Z) :
  Float.is_number x -> Float.is_number y ->
  Qabs (Float.to_Q x + Float.to_Q y) < 2 ^ K ->
  (K <= emax - prec)%Z ->
  Float.is_number (SFadd prec emax x y)
  /\ Qabs (Float.to_Q (SFadd prec emax x y) - (Float.to_Q x + Float.to_Q y))
     <= (1 # 2) * 2 ^ fexp K.
Proof.
  intros Hx Hy Hlt HK.
  assert (Hpos : 0 <= (1 # 2) * 2 ^ fexp K).
  { pose proof (pow2_pos (fexp K)). lra. }
  destruct x as [sx | sx | | sx mx ex]; try contradiction;
    destruct y as [sy | sy | | sy my ey]; try contradiction.
  - split; [destruct sx, sy; exact I |].
    apply (Qabs_zero_le _ Hpos). destruct sx, sy; cbn; ring.
  - split; [exact I |]. apply (Qabs_zero_le _ Hpos). cbn [SFadd Float.to_Q]. ring.
  - split; [exact I |]. apply (Qabs_zero_le _ Hpos). cbn [SFadd Float.to_Q]. ring.
  - cbn [SFadd]. set (ez := Z.min ex ey).
    set (m := (cond_Zopp sx (Z.pos (fst (shl_align mx ex ez)))
               + cond_Zopp sy (Z.pos (fst (shl_align my ey ez))))%Z).
    assert (Hval : inject_Z m * 2 ^ ez
                   == Float.to_Q (S754_finite sx mx ex) + Float.to_Q (S754_finite sy my ey)).
    { unfold m. rewrite inject_Z_plus.
      rewrite <- (aligned_value sx mx ex ez), <- (aligned_value sy my ey ez) by (unfold ez; lia).
      ring. }
    rewrite <- Hval in Hlt |- *.
    destruct (binary_normalize_error m ez K false Hlt HK) as (Hn & Herr & _).
    split; assumption.
Qed.

(** The same for a difference. *)
Lemma SFsub_error (x y : spec_float) (K : Z) :
  Float.is_number x -> Float.is_number y ->
  Qabs (Float.to_Q x - Float.to_Q y) < 2 ^ K ->
  (K <= emax - prec)%Z ->
  Float.is_number (SFsub prec emax x y)
  /\ Qabs (Float.to_Q (SFsub prec emax x y) - (Float.to_Q x - Float.to_Q y))
     <= (1 # 2) * 2 ^ fexp K.
Proof.
  intros Hx Hy Hlt HK.
  assert (Hpos : 0 <= (1 # 2) * 2 ^ fexp K).
  { pose proof (pow2_pos (fexp K)). lra. }
  destruct x as [sx | sx | | sx mx ex]; try contradiction;
    destruct y as [sy | sy | | sy my ey]; try contradiction.
  - split; [destruct sx, sy; exact I |].
    apply (Qabs_zero_le _ Hpos). destruct sx, sy; cbn; ring.
  - split; [exact I |]. apply (Qabs_zero_le _ Hpos). cbn [SFsub].
    rewrite !to_Q_finite. cbn [Float.to_Q]. destruct sy; cbn [negb Float.sgn]; ring.
  - split; [exact I |]. apply (Qabs_zero_le _ Hpos). cbn [SFsub Float.to_Q]. ring.
  - cbn [SFsub]. set (ez := Z.min ex ey).
    set (m := (cond_Zopp sx (Z.pos (fst (shl_align mx ex ez)))
               - cond_Zopp sy (Z.pos (fst (shl_align my ey ez))))%Z).
    assert (Hval : inject_Z m * 2 ^ ez
                   == Float.to_Q (S754_finite sx mx ex) - Float.to_Q (S754_finite sy my ey)).
    { unfold m, Z.sub. rewrite inject_Z_plus, inject_Z_opp.
      rewrite <- (aligned_value sx mx ex ez), <- (aligned_value sy my ey ez) by (unfold ez; lia).
      ring. }
    rewrite <- Hval in Hlt |- *.
    destruct (binary_normalize_error m ez K false Hlt HK) as (Hn & Herr & _).
    split; assumption.
Qed.

End Sums.

(** *** The operations at binary64 *)

Lemma add_error (x y : Float.float) (K : Z) :
  Float.is_number x -> Float.is_number y ->
  Qabs (Float.to_Q x + Float.to_Q y) < 2 ^ K ->
  (K <= 971)%Z ->
  Float.is_number (Float.add x y)
  /\ Qabs (Float.to_Q (Float.add x y) - (Float.to_Q x + Float.to_Q y))
     <= (1 # 2) * 2 ^ Z.max (K - 53) (-1074).
Proof.
  intros Hx Hy Hlt HK.
  apply (SFadd_error Float.prec Float.emax); try assumption; reflexivity.
Qed.

Lemma sub_error (x y : Float.float) (K : Z) :
  Float.is_number x -> Float.is_number y ->
  Qabs (Float.to_Q x - Float.to_Q y) < 2 ^ K ->
  (K <= 971)%Z ->
  Float.is_number (Float.sub x y)
  /\ Qabs (Float.to_Q (Float.sub x y) - (Float.to_Q x - Float.to_Q y))
     <= (1 # 2) * 2 ^ Z.max (K - 53) (-1074).
Proof.
  intros Hx Hy Hlt HK.
  apply (SFsub_error Float.prec Float.emax); try assumption; reflexivity.
Qed.

(** An integer of magnitude below [2 ^ 53] is a float. *)
Lemma of_Z_exact (n : Z) :
  (Z.abs n < 2 ^ 53)%Z ->
  Float.is_number (Float.of_Z n) /\ Float.to_Q (Float.of_Z n) == inject_Z n.
Proof.
  intros Hn. unfold Float.of_Z.
  assert (Hlt : Qabs (inject_Z n * 2 ^ 0) < 2 ^ 53).
  { setoid_replace (inject_Z n * 2 ^ 0) with (inject_Z n) by (cbn; ring).
    rewrite <- (pow2_inject 53) by lia.
    apply Qabs_Qlt_condition. rewrite <- inject_Z_opp, <- !Zlt_Qlt. lia. }
  destruct (binary_normalize_error Float.prec Float.emax ltac:(reflexivity) ltac:(reflexivity)
              n 0 53 false Hlt ltac:(unfold Float.prec, Float.emax; lia))
    as (Hnum & _ & Hex).
  split; [exact Hnum |].
  rewrite Hex; [cbn; ring |].
  assert (Hd : (Zdigits2 n <= 53)%Z).
  { destruct n as [| p | p].
    - cbn. lia.
    - apply (Zdigits2_le_iff (Z.pos p)); lia.
    - change (Zdigits2 (Z.neg p)) with (Zdigits2 (Z.pos p)).
      apply (Zdigits2_le_iff (Z.pos p)); lia. }
  unfold SpecFloat.fexp, SpecFloat.emin, Float.prec, Float.emax. lia.
Qed.

Lemma float_of_int_exact (n : Z) :
  (Z.abs n < 2 ^ 53)%Z ->
  exists a : Float.float,
    Float.float_of_int n = Py.Ok a /\ Float.is_number a /\ Float.to_Q a == inject_Z n.
Proof.
  intros Hn. destruct (of_Z_exact n Hn) as [Hnum Hval].
  unfold Float.float_of_int.
  destruct (Float.of_Z n) as [s | s | | s m e] eqn:E; try contradiction;
    eexists; (split; [reflexivity |]); split; assumption.
Qed.

End FloatSumProps.

(** ** Binary64 arithmetic: an integer past the largest float *)
Module FloatOverflowProps.

Import FloatProps.

Section Overflow.

Variables prec emax : Z.
Hypothesis prec_pos : 0 < prec.
Hypothesis prec_lt_emax : prec < emax.

Local Abbreviation fexp := (SpecFloat.fexp prec emax).
Local Abbreviation emin := (SpecFloat.emin prec emax).

(** The second normalisation of a positive rounded mantissa keeps it
    positive and does not lower the exponent. *)
Lemma renormalise_positive (m1 e' : Z) :
  0 < m1 <= 2 ^ prec -> emin <= e' ->
  e' <= snd (shr_fexp prec emax m1 e' loc_Exact)
  /\ 0 < shr_m (fst (shr_fexp prec emax m1 e' loc_Exact)).
Proof.
  intros Hm1 Hemin. unfold shr_fexp, shr.
  destruct (Z.eq_dec m1 (2 ^ prec)) as [Heq | Hlt].
  - assert (Hdig : Zdigits2 m1 = prec + 1).
    { assert (Hle : Zdigits2 m1 <= prec + 1).
      { apply Zdigits2_le_iff; [lia | lia |].
        rewrite Heq, Z.pow_add_r, Z.pow_1_r by lia. lia. }
      assert (Hge : ~ Zdigits2 m1 <= prec).
      { intros H. apply Zdigits2_le_iff in H; lia. }
      lia. }
    rewrite Hdig. unfold SpecFloat.fexp.
    replace (Z.max (prec + 1 + e' - prec) emin - e') with 1 by lia.
    cbn [iter_pos shr_record_of_loc fst snd].
    assert (Hev : m1 = 2 * 2 ^ (prec - 1)).
    { rewrite Heq. replace prec with (1 + (prec - 1)) at 1 by lia.
      rewrite Z.pow_add_r by lia. reflexivity. }
    assert (Hpp : 0 < 2 ^ (prec - 1)) by (apply Z.pow_pos_nonneg; lia).
    destruct m1 as [| [q | q |] | q]; try lia; cbn [shr_1 shr_m orb]; lia.
  - assert (Hdig : Zdigits2 m1 <= prec) by (apply Zdigits2_le_iff; lia).
    unfold SpecFloat.fexp.
    destruct (Z.max (Zdigits2 m1 + e' - prec) emin - e') as [| p | p] eqn:Hn;
      try lia; cbn [shr_record_of_loc shr_m fst snd]; lia.
Qed.

(** A positive integer of more than [emax] binary digits rounds to an
    infinity. *)
Lemma binary_round_overflow (sx : bool) (p : positive) :
  2 ^ emax <= Z.pos p ->
  binary_round prec emax sx p 0 = S754_infinity sx.
Proof.
  intros Hbig.
  assert (Hd : emax < Z.pos (digits2_pos p)).
  { pose proof (digits2_pos_bounds p) as [_ Hhi].
    destruct (Z_lt_le_dec emax (Z.pos (digits2_pos p))) as [H | H]; [exact H | exfalso].
    assert (2 ^ Z.pos (digits2_pos p) <= 2 ^ emax) by (apply Z.pow_le_mono_r; lia).
    lia. }
  set (d := Z.pos (digits2_pos p)) in *.
  assert (Hf : fexp (d + 0) = d - prec).
  { unfold SpecFloat.fexp, SpecFloat.emin. lia. }
  unfold binary_round. fold d. rewrite Hf.
  assert (Hal : shl_align p 0 (d - prec) = (p, 0)).
  { unfold shl_align. destruct (d - prec - 0) as [| q | q] eqn:Hq; try reflexivity; lia. }
  rewrite Hal. unfold binary_round_aux.
  pose proof (shr_fexp_locates prec emax prec_pos (Z.pos p) 1 (Z.pos p) 0 loc_Exact
                (Pos2Z.is_nonneg _) Z.lt_0_1) as Hshr.
  cbn [Zdigits2] in Hshr. fold d in Hshr. rewrite Hf in Hshr.
  replace (Z.max 0 (d - prec)) with (d - prec) in Hshr by lia.
  specialize (Hshr ltac:(unfold Float.locates; cbn; lia)). cbv zeta in Hshr.
  destruct (shr_fexp prec emax (Z.pos p) 0 loc_Exact) as [mrs' e1].
  destruct Hshr as (-> & Hl & Hm).
  rewrite Z.sub_0_r, Z.mul_1_r in Hl.
  assert (Hk : 0 < 2 ^ (d - prec)) by (apply Z.pow_pos_nonneg; lia).
  pose proof (round_nearest_even_close _ _ _ Hk Hl) as Hr. cbv zeta in Hr.
  pose proof (locates_bounds _ _ _ Hk Hl) as [_ Hup].
  set (m1 := round_nearest_even (shr_m mrs') (loc_of_shr_record mrs')) in *.
  destruct Hr as [_ Hnear].
  assert (Hlow : 2 ^ (prec - 1) <= shr_m mrs').
  { pose proof (digits2_pos_bounds p) as [Hlo _]. fold d in Hlo.
    assert (E : 2 ^ (d - 1) = 2 ^ (prec - 1) * 2 ^ (d - prec)).
    { rewrite <- Z.pow_add_r by lia. f_equal. lia. }
    rewrite E in Hlo.
    assert (H1 : 2 ^ (prec - 1) * 2 ^ (d - prec) < (shr_m mrs' + 1) * 2 ^ (d - prec)) by lia.
    apply Z.mul_lt_mono_pos_r in H1; [lia | exact Hk]. }
  assert (Hpp : 0 < 2 ^ (prec - 1)) by (apply Z.pow_pos_nonneg; lia).
  destruct (renormalise_positive m1 (d - prec)) as [He Hpos].
  { lia. }
  { unfold SpecFloat.emin. lia. }
  destruct (shr_fexp prec emax m1 (d - prec) loc_Exact) as [mrs'' e''].
  cbn [fst snd] in He, Hpos.
  destruct (shr_m mrs'') as [| m | m]; try lia.
  replace (e'' <=? emax - prec) with false; [reflexivity |].
  symmetry. apply Z.leb_gt. lia.
Qed.

End Overflow.

(** An integer of magnitude [2 ^ 1024] or more has no float: the conversion
    raises. *)
Lemma float_of_int_overflow (n : Z) :
  2 ^ 1024 <= Z.abs n -> Float.float_of_int n = Py.Raise Py.OverflowError.
Proof.
  intros Hn. unfold Float.float_of_int, Float.of_Z.
  destruct n as [| p | p]; cbn [binary_normalize].
  - exfalso. change (Z.abs 0) with 0 in Hn.
    assert (0 < 2 ^ 1024) by (apply Z.pow_pos_nonneg; lia). lia.
  - rewrite (binary_round_overflow Float.prec Float.emax); 
      [reflexivity | reflexivity | reflexivity | exact Hn].
  - rewrite (binary_round_overflow Float.prec Float.emax);
      [reflexivity | reflexivity | reflexivity | exact Hn].
Qed.

End FloatOverflowProps.

(** ** The calorie calculator against the exact rule *)
Module CaloriesAccuracy.

Import PyStr Json Py Float Tools ExactRule.
Import FloatProps FloatSumProps.

Local Open Scope Q_scope.

(** The constants of the source, as rationals: only 1.55 is not exact. *)
Lemma constant_values :
  to_Q (of_Z 10) == 10 /\ to_Q c_6_25 == 625 # 100
  /\ to_Q c_1_55 == 6980579422424269 # 4503599627370496
  /\ to_Q (of_Z 5) == 5 /\ to_Q (of_Z 161) == 161
  /\ to_Q (of_Z 500) == 500 /\ to_Q (of_Z 300) == 300.
Proof. repeat split; reflexivity. Qed.

Lemma pow2_26 : 2 ^ 26 == 67108864.
Proof. reflexivity. Qed.

Lemma half_ulp_26 : (1 # 2) * 2 ^ Z.max (26 - 53) (-1074) == 1 # 268435456.
Proof. reflexivity. Qed.

Lemma in_range (n : Z) (b : Z) :
  (Z.abs n <= b)%Z -> - inject_Z b <= inject_Z n <= inject_Z b.
Proof. intros H. rewrite <- inject_Z_opp, <- !Zle_Qle. lia. Qed.

(** The sum before the gender constant: within three roundings of the exact
    sum. *)
Lemma base_accurate (w h : float) (age : Z) :
  is_number w -> is_number h ->
  Qabs (to_Q w) <= 1000000 -> Qabs (to_Q h) <= 1000000 ->
  (Z.abs age <= 1000000)%Z ->
  exists a : float,
    float_of_int (5 * age) = Ok a
    /\ let base := sub (add (mul (of_Z 10) w) (mul c_6_25 h)) a in
       is_number base
       /\ Qabs (to_Q base - (10 * to_Q w + (625 # 100) * to_Q h - inject_Z (5 * age)))
          <= 4 # 268435456.
Proof.
  intros Hw Hh Hwr Hhr Har.
  destruct constant_values as (V10 & V625 & _).
  apply Qabs_Qle_condition in Hwr, Hhr.
  destruct (float_of_int_exact (5 * age)) as (a & Ha & Hna & Hva); [lia |].
  exists a. split; [exact Ha |]. cbv zeta.
  pose proof (in_range (5 * age) 5000000 ltac:(lia)) as Hage.
  change (inject_Z 5000000) with 5000000 in Hage.
  rewrite <- Hva in Hage |- *.
  set (W := to_Q w) in *. set (H := to_Q h) in *. set (A := to_Q a) in *.
  (* 10 * weight_kg *)
  destruct (mul_error (of_Z 10) w 26 I Hw) as [Hn1 He1]; [| lia |].
  { rewrite V10, pow2_26. fold W. apply Qabs_Qlt_condition. split; lra. }
  rewrite half_ulp_26, V10 in He1. fold W in He1.
  apply Qabs_Qle_condition in He1.
  set (m1 := mul (of_Z 10) w) in *. set (M1 := to_Q m1) in *.
  (* 6.25 * height_cm *)
  destruct (mul_error c_6_25 h 26 I Hh) as [Hn2 He2]; [| lia |].
  { rewrite V625, pow2_26. fold H. apply Qabs_Qlt_condition. split; lra. }
  rewrite half_ulp_26, V625 in He2. fold H in He2.
  apply Qabs_Qle_condition in He2.
  set (m2 := mul c_6_25 h) in *. set (M2 := to_Q m2) in *.
  (* the sum of the two *)
  destruct (add_error m1 m2 26 Hn1 Hn2) as [Hn3 He3]; [| lia |].
  { rewrite pow2_26. fold M1 M2. apply Qabs_Qlt_condition. split; lra. }
  rewrite half_ulp_26 in He3. fold M1 M2 in He3.
  apply Qabs_Qle_condition in He3.
  set (s1 := add m1 m2) in *. set (S1 := to_Q s1) in *.
  (* less 5 * age *)
  destruct (sub_error s1 a 26 Hn3 Hna) as [Hn4 He4]; [| lia |].
  { rewrite pow2_26. fold S1 A. apply Qabs_Qlt_condition. split; lra. }
  rewrite half_ulp_26 in He4. fold S1 A in He4.
  apply Qabs_Qle_condition in He4.
  split; [exact Hn4 |].
  apply Qabs_Qle_condition. split; lra.
Qed.

(** The BMR: within four roundings of the exact BMR. *)
Lemma bmr_accurate (w h : float) (age : Z) (gender : string) :
  is_number w -> is_number h ->
  Qabs (to_Q w) <= 1000000 -> Qabs (to_Q h) <= 1000000 ->
  (Z.abs age <= 1000000)%Z ->
  exists b : float,
    bmr w h age gender = Ok b
    /\ is_number b
    /\ Qabs (to_Q b - exact_bmr (to_Q w) (to_Q h) age gender) <= 5 # 268435456
    /\ Qabs (exact_bmr (to_Q w) (to_Q h) age gender) <= 21250161.
Proof.
  intros Hw Hh Hwr Hhr Har.
  destruct (base_accurate w h age Hw Hh Hwr Hhr Har) as (a & Ha & Hbase).
  cbv zeta in Hbase. destruct Hbase as [Hnb Heb].
  destruct constant_values as (_ & _ & _ & V5 & V161 & _).
  apply Qabs_Qle_condition in Hwr, Hhr, Heb.
  pose proof (in_range (5 * age) 5000000 ltac:(lia)) as Hage.
  change (inject_Z 5000000) with 5000000 in Hage.
  unfold bmr, exact_bmr. rewrite Ha. cbn [bind].
  set (base := sub (add (mul (of_Z 10) w) (mul c_6_25 h)) a) in *.
  set (B := to_Q base) in *. set (W := to_Q w) in *. set (H := to_Q h) in *.
  set (A := inject_Z (5 * age)) in *.
  destruct (in_list (lower gender) ["male"; "m"]); eexists; (split; [reflexivity |]).
  - destruct (add_error base (of_Z 5) 26 Hnb I) as [Hn He]; [| lia |].
    { rewrite pow2_26, V5. fold B. apply Qabs_Qlt_condition. split; lra. }
    rewrite half_ulp_26, V5 in He. fold B in He. apply Qabs_Qle_condition in He.
    split; [exact Hn |]. split; apply Qabs_Qle_condition; split; lra.
  - destruct (sub_error base (of_Z 161) 26 Hnb I) as [Hn He]; [| lia |].
    { rewrite pow2_26, V161. fold B. apply Qabs_Qlt_condition. split; lra. }
    rewrite half_ulp_26, V161 in He. fold B in He. apply Qabs_Qle_condition in He.
    split; [exact Hn |]. split; apply Qabs_Qle_condition; split; lra.
Qed.

(** The calorie target: within [2 ^ -24] of the exact target. *)
Lemma target_accurate (goal : string) (w h : float) (age : Z) (gender : string) :
  is_number w -> is_number h ->
  Qabs (to_Q w) <= 1000000 -> Qabs (to_Q h) <= 1000000 ->
  (Z.abs age <= 1000000)%Z ->
  exists b : float,
    bmr w h age gender = Ok b
    /\ is_number (calorie_target goal (tdee b))
    /\ Qabs (to_Q (calorie_target goal (tdee b))
             - exact_calories goal (to_Q w) (to_Q h) age gender) <= 1 # 16777216
    /\ Qabs (exact_calories goal (to_Q w) (to_Q h) age gender) <= 33000000.
Proof.
  intros Hw Hh Hwr Hhr Har.
  destruct (bmr_accurate w h age gender Hw Hh Hwr Hhr Har) as (b & Hb & Hnb & Heb & Hbb).
  exists b. split; [exact Hb |].
  destruct constant_values as (_ & _ & V155 & _ & _ & V500 & V300).
  apply Qabs_Qle_condition in Heb, Hbb.
  unfold exact_calories, exact_target, exact_tdee, calorie_target, tdee.
  set (E := exact_bmr (to_Q w) (to_Q h) age gender) in *.
  set (B := to_Q b) in *.
  destruct (mul_error b c_1_55 26 Hnb I) as [Hnt Het]; [| lia |].
  { rewrite pow2_26, V155. fold B. apply Qabs_Qlt_condition. split; lra. }
  rewrite half_ulp_26, V155 in Het. fold B in Het. apply Qabs_Qle_condition in Het.
  set (t := mul b c_1_55) in *. set (T := to_Q t) in *.
  destruct (String.eqb (lower goal) "weight loss");
    [| destruct (String.eqb (lower goal) "muscle gain")].
  - destruct (sub_error t (of_Z 500) 26 Hnt I) as [Hn He]; [| lia |].
    { rewrite pow2_26, V500. fold T. apply Qabs_Qlt_condition. split; lra. }
    rewrite half_ulp_26, V500 in He. fold T in He. apply Qabs_Qle_condition in He.
    split; [exact Hn |]. split; apply Qabs_Qle_condition; split; lra.
  - destruct (add_error t (of_Z 300) 26 Hnt I) as [Hn He]; [| lia |].
    { rewrite pow2_26, V300. fold T. apply Qabs_Qlt_condition. split; lra. }
    rewrite half_ulp_26, V300 in He. fold T in He. apply Qabs_Qle_condition in He.
    split; [exact Hn |]. split; apply Qabs_Qle_condition; split; lra.
  - split; [exact Hnt |]. fold T. split; apply Qabs_Qle_condition; split; lra.
Qed.

(** One macro: the product with the share and the quotient by the calories
    per gram each add one rounding to the distance [eta] between the float
    share and the exact share [S]. *)
Lemma macro_accurate (target pct : float) (sy : bool) (my : positive) (ey : Z)
  (k S eta : Q) :
  is_number target -> is_number pct ->
  Qabs (to_Q target * to_Q pct - S) <= eta ->
  Qabs S <= 33000000 -> 0 <= eta <= 1 ->
  to_Q (S754_finite sy my ey) == k -> 4 <= k <= 9 ->
  exists g : Z,
    round (div (mul target pct) (S754_finite sy my ey)) = Ok g
    /\ Qabs (k * inject_Z g - S) <= k * (1 # 2) + eta + (10 # 268435456).
Proof.
  intros Ht Hp Hs HS Heta Hk Hkr.
  apply Qabs_Qle_condition in Hs, HS.
  set (P := to_Q target * to_Q pct) in *.
  destruct (mul_error target pct 26 Ht Hp) as [Hnm Hem]; [| lia |].
  { rewrite pow2_26. fold P. apply Qabs_Qlt_condition. split; lra. }
  rewrite half_ulp_26 in Hem. fold P in Hem. apply Qabs_Qle_condition in Hem.
  set (m := mul target pct) in *. set (M := to_Q m) in *.
  assert (Habs_y : Qabs (to_Q (S754_finite sy my ey)) == k).
  { rewrite Hk. apply Qabs_pos. lra. }
  destruct (div_error m sy my ey 26 Hnm) as [Hnq Heq]; [| lia |].
  { rewrite Habs_y, pow2_26. fold M. apply Qabs_Qlt_condition. split; lra. }
  rewrite half_ulp_26, Habs_y, Hk in Heq. fold M in Heq.
  apply Qabs_Qle_condition in Heq.
  destruct (round_of_number _ Hnq) as [g Hg].
  exists g. split; [exact Hg |].
  pose proof (round_nearest _ _ Hg) as Hr. apply Qabs_Qle_condition in Hr.
  set (q := to_Q (div m (S754_finite sy my ey))) in *.
  set (G := inject_Z g) in *.
  apply Qabs_Qle_condition. split; nra.
Qed.

(** The three macros of a target that is close to the exact target [T]. *)
Ltac macro_of target T Hnt pct Vpct k Vk share :=
  let g := fresh "g" in
  let Hg := fresh "Hg" in
  let Hc := fresh "Hc" in
  lazymatch type of Vk with
  | to_Q (S754_finite ?sy ?my ?ey) == _ =>
      destruct (macro_accurate target pct sy my ey k (T * share) (1 # 16777216) Hnt I)
        as (g & Hg & Hc)
  end;
  [ rewrite Vpct; apply Qabs_Qle_condition; split; lra
  | apply Qabs_Qle_condition; split; lra
  | split; lra
  | exact Vk
  | split; lra
  | apply Qabs_Qle_condition in Hc ].

(** On every input of moderate size the dictionary is built, and each of
    its numbers is within one half, and [2 ^ -24], of the exact value of the
    rule. *)
Lemma calories_close
  (goal : string) (w h : float) (age : Z) (gender : string) :
  is_number w -> is_number h ->
  Qabs (to_Q w) <= 1000000 -> Qabs (to_Q h) <= 1000000 ->
  (Z.abs age <= 1000000)%Z ->
  exists r : calories,
    calculate_calories_value goal w h age gender = Ok r
    /\ goal_of r = goal
    /\ let T := exact_calories goal (to_Q w) (to_Q h) age gender in
       let '(protein_pct, fat_pct, carb_pct) := exact_pcts goal in
       Qabs (inject_Z (daily_calories r) - T) <= (1 # 2) + (1 # 16777216)
       /\ Qabs (inject_Z (protein r) - T * protein_pct / 4) <= (1 # 2) + (1 # 16777216)
       /\ Qabs (inject_Z (fat r) - T * fat_pct / 9) <= (1 # 2) + (1 # 16777216)
       /\ Qabs (inject_Z (carbs r) - T * carb_pct / 4) <= (1 # 2) + (1 # 16777216).
Proof.
  intros Hw Hh Hwr Hhr Har.
  destruct (target_accurate goal w h age gender Hw Hh Hwr Hhr Har)
    as (b & Hb & Hnt & Het & HTb).
  destruct CaloriesProps.pct_values as (V40 & V30 & V25 & V45).
  destruct CaloriesProps.divisor_values as (E4 & E9 & V4 & V9).
  rewrite E4 in V4. rewrite E9 in V9.
  unfold calculate_calories_value. rewrite Hb. cbn [bind]. cbv zeta.
  destruct (round_of_number _ Hnt) as [d Hd].
  pose proof (round_nearest _ _ Hd) as Hdn.
  apply Qabs_Qle_condition in Het, HTb, Hdn.
  set (target := calorie_target goal (tdee b)) in *.
  set (T := exact_calories goal (to_Q w) (to_Q h) age gender) in *.
  clearbody target T. rewrite E4, E9.
  unfold macro_pcts, exact_pcts.
  destruct (String.eqb (lower goal) "weight loss");
    [| destruct (String.eqb (lower goal) "muscle gain")].
  - macro_of target T Hnt c_0_40 V40 4 V4 (40 # 100).
    macro_of target T Hnt c_0_30 V30 9 V9 (30 # 100).
    macro_of target T Hnt c_0_30 V30 4 V4 (30 # 100).
    rewrite Hg, Hg0, Hg1, Hd. cbn [bind].
    eexists. split; [reflexivity |]. split; [reflexivity |].
    cbn [daily_calories protein fat carbs]. unfold Qdiv.
    change (/ 4) with (1 # 4). change (/ 9) with (1 # 9).
    repeat split; apply Qabs_Qle_condition; split; lra.
  - macro_of target T Hnt c_0_30 V30 4 V4 (30 # 100).
    macro_of target T Hnt c_0_25 V25 9 V9 (25 # 100).
    macro_of target T Hnt c_0_45 V45 4 V4 (45 # 100).
    rewrite Hg, Hg0, Hg1, Hd. cbn [bind].
    eexists. split; [reflexivity |]. split; [reflexivity |].
    cbn [daily_calories protein fat carbs]. unfold Qdiv.
    change (/ 4) with (1 # 4). change (/ 9) with (1 # 9).
    repeat split; apply Qabs_Qle_condition; split; lra.
  - macro_of target T Hnt c_0_30 V30 4 V4 (30 # 100).
    macro_of target T Hnt c_0_30 V30 9 V9 (30 # 100).
    macro_of target T Hnt c_0_40 V40 4 V4 (40 # 100).
    rewrite Hg, Hg0, Hg1, Hd. cbn [bind].
    eexists. split; [reflexivity |]. split; [reflexivity |].
    cbn [daily_calories protein fat carbs]. unfold Qdiv.
    change (/ 4) with (1 # 4). change (/ 9) with (1 # 9).
    repeat split; apply Qabs_Qle_condition; split; lra.
Qed.

(** The shares as floats: each at most one half, and the three of a goal
    add up to one exactly. *)
Lemma pct_ranges :
  0 <= to_Q c_0_40 <= 1 # 2 /\ 0 <= to_Q c_0_30 <= 1 # 2
  /\ 0 <= to_Q c_0_25 <= 1 # 2 /\ 0 <= to_Q c_0_45 <= 1 # 2.
Proof. repeat split; vm_compute; discriminate. Qed.

Lemma pct_sums :
  to_Q c_0_40 + to_Q c_0_30 + to_Q c_0_30 == 1
  /\ to_Q c_0_30 + to_Q c_0_25 + to_Q c_0_45 == 1
  /\ to_Q c_0_30 + to_Q c_0_30 + to_Q c_0_40 == 1.
Proof. repeat split; vm_compute; reflexivity. Qed.

(** The exact target of a person of adult size is at least 44 kcal. *)
Lemma exact_calories_adult (goal : string) (W H : Q) (age : Z) (gender : string) :
  30 <= W -> 130 <= H -> (0 <= age <= 120)%Z ->
  44 <= exact_calories goal W H age gender.
Proof.
  intros HW HH Hage.
  assert (HA : 0 <= inject_Z (5 * age) <= 600).
  { change 0 with (inject_Z 0). change 600 with (inject_Z 600).
    rewrite <- !Zle_Qle. lia. }
  unfold exact_calories, exact_target, exact_tdee, exact_bmr.
  set (A := inject_Z (5 * age)) in *.
  destruct (in_list (lower gender) ["male"; "m"]);
    (destruct (String.eqb (lower goal) "weight loss");
     [| destruct (String.eqb (lower goal) "muscle gain")]); lra.
Qed.

Local Close Scope Q_scope.

(** X1: on every input of moderate size (weight and height of magnitude at
    most [10 ^ 6], age likewise) the tool returns the serialised dictionary,
    with the goal echoed, and each number of it is the exact value of the
    rule rounded to an integer, up to [2 ^ -24] at a tie: the daily calories
    against the exact target, each macro against its exact share of the
    exact target divided by 4 or by 9. *)
Theorem calculate_calories_accurate
  (goal : string) (w h : float) (age : Z) (gender : string) :
  is_number w -> is_number h ->
  (Qabs (to_Q w) <= 1000000)%Q -> (Qabs (to_Q h) <= 1000000)%Q ->
  Z.abs age <= 1000000 ->
  exists r : calories,
    calculate_calories goal w h age gender = Ok (dumps (calories_json r))
    /\ goal_of r = goal
    /\ let T := exact_calories goal (to_Q w) (to_Q h) age gender in
       let '(protein_pct, fat_pct, carb_pct) := exact_pcts goal in
       (Qabs (inject_Z (daily_calories r) - T) <= (1 # 2) + (1 # 16777216)
        /\ Qabs (inject_Z (protein r) - T * protein_pct / 4) <= (1 # 2) + (1 # 16777216)
        /\ Qabs (inject_Z (fat r) - T * fat_pct / 9) <= (1 # 2) + (1 # 16777216)
        /\ Qabs (inject_Z (carbs r) - T * carb_pct / 4) <= (1 # 2) + (1 # 16777216))%Q.
Proof.
  intros Hw Hh Hwr Hhr Har.
  destruct (calories_close goal w h age gender Hw Hh Hwr Hhr Har) as (r & Hr & Hg & Hclose).
  exists r. unfold calculate_calories. rewrite Hr. cbn [bind].
  split; [reflexivity |]. split; [exact Hg | exact Hclose].
Qed.

(** The theorem at the demo's person (80 kg, 175 cm, 28 years, male) and the
    goal of losing weight. *)
Lemma calculate_calories_accurate_witness :
  exists r : calories,
    calculate_calories "weight loss" (of_Z 80) (of_Z 175) 28 "male"
    = Ok (dumps (calories_json r))
    /\ (Qabs (inject_Z (daily_calories r)
              - exact_calories "weight loss" (to_Q (of_Z 80)) (to_Q (of_Z 175)) 28 "male")
        <= (1 # 2) + (1 # 16777216))%Q.
Proof.
  destruct (calculate_calories_accurate "weight loss" (of_Z 80) (of_Z 175) 28 "male")
    as (r & Hr & _ & Hd & _).
  - exact I.
  - exact I.
  - vm_compute. discriminate.
  - vm_compute. discriminate.
  - lia.
  - exists r. split; [exact Hr | exact Hd].
Defined.

(** X2: for a person of adult size (30 to 1000 kg, 130 to 300 cm, 0 to 120
    years) and any goal and gender the call returns, the daily calories are
    positive, no macro is negative, and the calorie equivalent of the macros
    is within 9 kcal of the daily calories. *)
Theorem adult_calories_are_positive
  (goal : string) (w h : float) (age : Z) (gender : string) :
  is_number w -> is_number h ->
  (30 <= to_Q w <= 1000)%Q -> (130 <= to_Q h <= 300)%Q ->
  0 <= age <= 120 ->
  exists r : calories,
    calculate_calories_value goal w h age gender = Ok r
    /\ 0 < daily_calories r
    /\ 0 <= protein r /\ 0 <= fat r /\ 0 <= carbs r
    /\ Z.abs (macro_calories r - daily_calories r) <= 9.
Proof.
  intros Hw Hh Hwr Hhr Har.
  assert (Hwa : (Qabs (to_Q w) <= 1000000)%Q) by (apply Qabs_Qle_condition; split; lra).
  assert (Hha : (Qabs (to_Q h) <= 1000000)%Q) by (apply Qabs_Qle_condition; split; lra).
  destruct (target_accurate goal w h age gender Hw Hh Hwa Hha ltac:(lia))
    as (b & Hb & Hnt & Het & HTb).
  destruct (calories_close goal w h age gender Hw Hh Hwa Hha ltac:(lia))
    as (r & Hr & _ & Hclose).
  exists r. split; [exact Hr |].
  pose proof (exact_calories_adult goal (to_Q w) (to_Q h) age gender
                (proj1 Hwr) (proj1 Hhr) Har) as Hlow.
  cbv zeta in Hclose.
  destruct (exact_pcts goal) as [[pp fp] cp]. destruct Hclose as (Hd & _).
  apply Qabs_Qle_condition in Hd, HTb.
  set (T := exact_calories goal (to_Q w) (to_Q h) age gender) in *.
  assert (Hpos : 0 < daily_calories r).
  { assert (H0 : (inject_Z 0 < inject_Z (daily_calories r))%Q).
    { change (inject_Z 0) with 0%Q. lra. }
    now rewrite <- Zlt_Qlt in H0. }
  assert (Hup : daily_calories r <= 100000000000000).
  { assert (H0 : (inject_Z (daily_calories r) <= inject_Z 100000000000000)%Q).
    { change (inject_Z 100000000000000) with 100000000000000%Q. lra. }
    now rewrite <- Zle_Qle in H0. }
  split; [exact Hpos |].
  destruct (CaloriesProps.calculate_calories_value_steps _ _ _ _ _ _ Hr)
    as (a & Ha & Hsteps).
  cbv zeta in Hsteps. unfold macro_calories.
  destruct pct_ranges as (R40 & R30 & R25 & R45).
  destruct pct_sums as (Sloss & Sgain & Skeep).
  assert (Hrange : 0 <= daily_calories r <= 100000000000000) by lia.
  destruct (spec_goal_kind goal); cbn [spec_pcts] in Hsteps;
    destruct Hsteps as (_ & Hdd & Hp & Hf & Hc).
  - exact (CaloriesProps.macros_close _ c_0_40 c_0_30 c_0_30 _ _ _ _
             I I I R40 R30 R30 Sloss Hdd Hrange Hp Hf Hc).
  - exact (CaloriesProps.macros_close _ c_0_30 c_0_25 c_0_45 _ _ _ _
             I I I R30 R25 R45 Sgain Hdd Hrange Hp Hf Hc).
  - exact (CaloriesProps.macros_close _ c_0_30 c_0_30 c_0_40 _ _ _ _
             I I I R30 R30 R40 Skeep Hdd Hrange Hp Hf Hc).
Qed.

(** The theorem at the demo's person and the goal of losing weight. *)
Lemma adult_calories_are_positive_witness :
  exists r : calories,
    calculate_calories_value "weight loss" (of_Z 80) (of_Z 175) 28 "male" = Ok r
    /\ 0 < daily_calories r
    /\ 0 <= protein r /\ 0 <= fat r /\ 0 <= carbs r
    /\ Z.abs (macro_calories r - daily_calories r) <= 9.
Proof.
  apply (adult_calories_are_positive "weight loss" (of_Z 80) (of_Z 175) 28 "male").
  - exact I.
  - exact I.
  - split; vm_compute; discriminate.
  - split; vm_compute; discriminate.
  - lia.
Defined.

End CaloriesAccuracy.

(** ** The calorie calculator: how goals and genders relate *)
Module CaloriesRelations.

Import PyStr Json Py Float Tools ExactRule.
Import FloatProps FloatSumProps CaloriesAccuracy.

Lemma in_list_male (gender : string) :
  in_list (lower gender) ["male"; "m"] = true
  <-> lower gender = "male" \/ lower gender = "m".
Proof.
  unfold in_list. cbn [existsb]. rewrite orb_false_r, orb_true_iff, !String.eqb_eq.
  tauto.
Qed.

Lemma in_list_not_male (gender : string) :
  in_list (lower gender) ["male"; "m"] = false
  <-> lower gender <> "male" /\ lower gender <> "m".
Proof.
  unfold in_list. cbn [existsb]. rewrite orb_false_r, orb_false_iff, !String.eqb_neq.
  tauto.
Qed.

Local Open Scope Q_scope.

Lemma pow2_47 : 2 ^ 47 == 140737488355328.
Proof. reflexivity. Qed.

Lemma half_ulp_47 : (1 # 2) * 2 ^ Z.max (47 - 53) (-1074) == 1 # 128.
Proof. reflexivity. Qed.

Lemma within_one (x : Z) : -2 < inject_Z x < 2 -> (Z.abs x <= 1)%Z.
Proof.
  intros [H1 H2]. change (-2) with (inject_Z (-2)) in H1.
  change 2 with (inject_Z 2) in H2. rewrite <- Zlt_Qlt in H1, H2. lia.
Qed.

(** Rounding after a float subtraction of a small integer: the integer is
    taken off the rounded value, up to one unit. *)
Lemma round_sub_offset (t : float) (c d d' : Z) :
  (0 <= c <= 1000)%Z ->
  round t = Ok d -> (Z.abs d <= 100000000000000)%Z ->
  round (sub t (of_Z c)) = Ok d' ->
  (Z.abs (d - c - d') <= 1)%Z.
Proof.
  intros Hc Hd Hr Hd'.
  pose proof (round_is_number _ _ Hd) as Hnt.
  destruct (of_Z_exact c ltac:(lia)) as [Hnc Hvc].
  pose proof (round_nearest _ _ Hd) as Hdn. apply Qabs_Qle_condition in Hdn.
  pose proof (round_nearest _ _ Hd') as Hdn'. apply Qabs_Qle_condition in Hdn'.
  pose proof (in_range d 100000000000000 Hr) as HdQ.
  change (inject_Z 100000000000000) with 100000000000000 in HdQ.
  assert (HcQ : 0 <= inject_Z c <= 1000).
  { change 0 with (inject_Z 0). change 1000 with (inject_Z 1000).
    rewrite <- !Zle_Qle. exact Hc. }
  destruct (sub_error t (of_Z c) 47 Hnt Hnc) as [_ He]; [| lia |].
  { rewrite pow2_47, Hvc. apply Qabs_Qlt_condition. split; lra. }
  rewrite half_ulp_47, Hvc in He. apply Qabs_Qle_condition in He.
  apply within_one. unfold Z.sub. rewrite !inject_Z_plus, !inject_Z_opp.
  split; lra.
Qed.

(** The same after a float addition. *)
Lemma round_add_offset (t : float) (c d d' : Z) :
  (0 <= c <= 1000)%Z ->
  round t = Ok d -> (Z.abs d <= 100000000000000)%Z ->
  round (add t (of_Z c)) = Ok d' ->
  (Z.abs (d + c - d') <= 1)%Z.
Proof.
  intros Hc Hd Hr Hd'.
  pose proof (round_is_number _ _ Hd) as Hnt.
  destruct (of_Z_exact c ltac:(lia)) as [Hnc Hvc].
  pose proof (round_nearest _ _ Hd) as Hdn. apply Qabs_Qle_condition in Hdn.
  pose proof (round_nearest _ _ Hd') as Hdn'. apply Qabs_Qle_condition in Hdn'.
  pose proof (in_range d 100000000000000 Hr) as HdQ.
  change (inject_Z 100000000000000) with 100000000000000 in HdQ.
  assert (HcQ : 0 <= inject_Z c <= 1000).
  { change 0 with (inject_Z 0). change 1000 with (inject_Z 1000).
    rewrite <- !Zle_Qle. exact Hc. }
  destruct (add_error t (of_Z c) 47 Hnt Hnc) as [_ He]; [| lia |].
  { rewrite pow2_47, Hvc. apply Qabs_Qlt_condition. split; lra. }
  rewrite half_ulp_47, Hvc in He. apply Qabs_Qle_condition in He.
  apply within_one. unfold Z.sub. rewrite !inject_Z_plus, !inject_Z_opp.
  split; lra.
Qed.

Local Close Scope Q_scope.

(** What a call that returns rounded for its daily calories. *)
Lemma daily_of_returned
  (goal : string) (w h : float) (age : Z) (gender : string) (r : calories) :
  calculate_calories_value goal w h age gender = Ok r ->
  exists b : float,
    bmr w h age gender = Ok b
    /\ round (calorie_target goal (tdee b)) = Ok (daily_calories r).
Proof.
  intros Hr.
  destruct (CaloriesProps.calculate_calories_value_steps _ _ _ _ _ _ Hr)
    as (a & Ha & Hsteps).
  cbv zeta in Hsteps.
  destruct (spec_pcts (spec_goal_kind goal)) as [[pp fp] cp].
  destruct Hsteps as (_ & Hdaily & _).
  exists (spec_bmr (spec_is_male gender) w h a). split.
  - rewrite CaloriesProps.bmr_is_spec_bmr, Ha. reflexivity.
  - rewrite CaloriesProps.calorie_target_is_spec. exact Hdaily.
Qed.

(** X3: for one person, against the call with a goal that is neither
    weight loss nor muscle gain (and that returned at most [10 ^ 14] kcal in
    magnitude), the call for weight loss returns 500 kcal less and the call
    for muscle gain 300 kcal more, up to one unit of rounding, and the call
    with any other unrecognised goal returns the same daily calories. *)
Theorem goals_shift_daily_calories
  (keep goal : string) (w h : float) (age : Z) (gender : string)
  (r_keep r : calories) :
  lower keep <> "weight loss" -> lower keep <> "muscle gain" ->
  calculate_calories_value keep w h age gender = Ok r_keep ->
  calculate_calories_value goal w h age gender = Ok r ->
  Z.abs (daily_calories r_keep) <= 100000000000000 ->
  (lower goal = "weight loss" ->
   Z.abs (daily_calories r_keep - 500 - daily_calories r) <= 1)
  /\ (lower goal = "muscle gain" ->
      Z.abs (daily_calories r_keep + 300 - daily_calories r) <= 1)
  /\ (lower goal <> "weight loss" -> lower goal <> "muscle gain" ->
      daily_calories r = daily_calories r_keep).
Proof.
  intros Hk1 Hk2 Hkeep Hr Hrange.
  destruct (daily_of_returned _ _ _ _ _ _ Hkeep) as (b & Hb & Hdk).
  destruct (daily_of_returned _ _ _ _ _ _ Hr) as (b' & Hb' & Hd).
  rewrite Hb in Hb'. injection Hb' as <-.
  apply String.eqb_neq in Hk1, Hk2.
  unfold calorie_target in Hdk, Hd. rewrite Hk1, Hk2 in Hdk.
  split; [| split].
  - intros Hg. apply String.eqb_eq in Hg. rewrite Hg in Hd.
    apply (round_sub_offset (tdee b) 500); [lia | assumption ..].
  - intros Hg.
    assert (Hn : String.eqb (lower goal) "weight loss" = false).
    { rewrite Hg. reflexivity. }
    apply String.eqb_eq in Hg. rewrite Hn, Hg in Hd.
    apply (round_add_offset (tdee b) 300); [lia | assumption ..].
  - intros Hn1 Hn2. apply String.eqb_neq in Hn1, Hn2. rewrite Hn1, Hn2 in Hd.
    rewrite Hdk in Hd. now injection Hd.
Qed.

(** The theorem at the demo's person: 2726 kcal to keep the weight, 2226 to
    lose weight. *)
Lemma goals_shift_daily_calories_witness :
  exists r_keep r : calories,
    calculate_calories_value "maintain" (of_Z 80) (of_Z 175) 28 "male" = Ok r_keep
    /\ calculate_calories_value "Weight Loss" (of_Z 80) (of_Z 175) 28 "male" = Ok r
    /\ daily_calories r_keep = 2726
    /\ Z.abs (daily_calories r_keep - 500 - daily_calories r) <= 1.
Proof.
  exists {| goal_of := "maintain"; daily_calories := 2726;
            protein := 204; fat := 91; carbs := 273 |},
         {| goal_of := "Weight Loss"; daily_calories := 2226;
            protein := 223; fat := 74; carbs := 167 |}.
  assert (Hk : calculate_calories_value "maintain" (of_Z 80) (of_Z 175) 28 "male"
               = Ok {| goal_of := "maintain"; daily_calories := 2726;
                       protein := 204; fat := 91; carbs := 273 |})
    by (vm_compute; reflexivity).
  assert (Hl : calculate_calories_value "Weight Loss" (of_Z 80) (of_Z 175) 28 "male"
               = Ok {| goal_of := "Weight Loss"; daily_calories := 2226;
                       protein := 223; fat := 74; carbs := 167 |})
    by (vm_compute; reflexivity).
  split; [exact Hk |]. split; [exact Hl |]. split; [reflexivity |].
  destruct (goals_shift_daily_calories "maintain" "Weight Loss"
              (of_Z 80) (of_Z 175) 28 "male" _ _
              ltac:(vm_compute; discriminate) ltac:(vm_compute; discriminate)
              Hk Hl ltac:(cbn; lia)) as (H & _ & _).
  apply H. vm_compute. reflexivity.
Defined.

Local Open Scope Q_scope.

(** The exact targets of two genders differ by 166 times 1.55. *)
Lemma exact_calories_by_gender (goal : string) (W H : Q) (age : Z)
  (male other : string) :
  in_list (lower male) ["male"; "m"] = true ->
  in_list (lower other) ["male"; "m"] = false ->
  exact_calories goal W H age male - exact_calories goal W H age other == 2573 # 10.
Proof.
  intros Hm Ho.
  unfold exact_calories, exact_target, exact_tdee, exact_bmr. rewrite Hm, Ho.
  destruct (String.eqb (lower goal) "weight loss");
    [| destruct (String.eqb (lower goal) "muscle gain")]; ring.
Qed.

Local Close Scope Q_scope.

(** X4: on an input of moderate size, the call with a gender that
    lower-cases to male or m returns 257 or 258 kcal more than the call with
    any other gender string, whatever the goal. *)
Theorem male_adds_257_or_258
  (goal : string) (w h : float) (age : Z) (male other : string) :
  is_number w -> is_number h ->
  (Qabs (to_Q w) <= 1000000)%Q -> (Qabs (to_Q h) <= 1000000)%Q ->
  Z.abs age <= 1000000 ->
  lower male = "male" \/ lower male = "m" ->
  lower other <> "male" -> lower other <> "m" ->
  exists r_male r_other : calories,
    calculate_calories_value goal w h age male = Ok r_male
    /\ calculate_calories_value goal w h age other = Ok r_other
    /\ 257 <= daily_calories r_male - daily_calories r_other <= 258.
Proof.
  intros Hw Hh Hwr Hhr Har Hm Ho1 Ho2.
  apply in_list_male in Hm.
  assert (Ho : in_list (lower other) ["male"; "m"] = false)
    by (apply in_list_not_male; split; assumption).
  destruct (calories_close goal w h age male Hw Hh Hwr Hhr Har) as (rm & Hrm & _ & Hcm).
  destruct (calories_close goal w h age other Hw Hh Hwr Hhr Har) as (ro & Hro & _ & Hco).
  exists rm, ro. split; [exact Hrm |]. split; [exact Hro |].
  cbv zeta in Hcm, Hco.
  destruct (exact_pcts goal) as [[pp fp] cp].
  destruct Hcm as (Hdm & _). destruct Hco as (Hdo & _).
  apply Qabs_Qle_condition in Hdm, Hdo.
  pose proof (exact_calories_by_gender goal (to_Q w) (to_Q h) age male other Hm Ho) as Hdiff.
  set (Tm := exact_calories goal (to_Q w) (to_Q h) age male) in *.
  set (To := exact_calories goal (to_Q w) (to_Q h) age other) in *.
  assert (Hb : (inject_Z 256 < inject_Z (daily_calories rm - daily_calories ro)
                /\ inject_Z (daily_calories rm - daily_calories ro) < inject_Z 259)%Q).
  { unfold Z.sub. rewrite inject_Z_plus, inject_Z_opp.
    change (inject_Z 256) with 256%Q. change (inject_Z 259) with 259%Q.
    split; lra. }
  rewrite <- !Zlt_Qlt in Hb. lia.
Qed.

(** The theorem at the demo's person and a woman of the same size. *)
Lemma male_adds_257_or_258_witness :
  exists r_male r_other : calories,
    calculate_calories_value "weight loss" (of_Z 80) (of_Z 175) 28 "Male" = Ok r_male
    /\ calculate_calories_value "weight loss" (of_Z 80) (of_Z 175) 28 "female" = Ok r_other
    /\ 257 <= daily_calories r_male - daily_calories r_other <= 258.
Proof.
  apply (male_adds_257_or_258 "weight loss" (of_Z 80) (of_Z 175) 28 "Male" "female").
  - exact I.
  - exact I.
  - vm_compute. discriminate.
  - vm_compute. discriminate.
  - lia.
  - left. reflexivity.
  - vm_compute. discriminate.
  - vm_compute. discriminate.
Defined.

(** X5: the numbers of the result depend on the goal and on the gender
    only through their lower-cased forms: two calls whose goals, and whose
    genders, agree after lower-casing both raise the same exception, or
    both return, with the same four numbers, each echoing the goal as its
    caller spelled it. *)
Theorem calories_ignore_case
  (goal1 goal2 : string) (w h : float) (age : Z) (gender1 gender2 : string) :
  lower goal1 = lower goal2 -> lower gender1 = lower gender2 ->
  match calculate_calories_value goal1 w h age gender1,
        calculate_calories_value goal2 w h age gender2 with
  | Ok r1, Ok r2 =>
      goal_of r1 = goal1 /\ goal_of r2 = goal2
      /\ daily_calories r1 = daily_calories r2
      /\ protein r1 = protein r2 /\ fat r1 = fat r2 /\ carbs r1 = carbs r2
  | Raise e1, Raise e2 => e1 = e2
  | _, _ => False
  end.
Proof.
  intros Hg Hs.
  unfold calculate_calories_value, bmr, calorie_target, macro_pcts.
  rewrite Hg, Hs.
  destruct (in_list (lower gender2) ["male"; "m"]);
    (destruct (float_of_int (5 * age)) as [a | e]; cbn [bind]; [| reflexivity]);
    (destruct (String.eqb (lower goal2) "weight loss");
     [| destruct (String.eqb (lower goal2) "muscle gain")]);
    repeat match goal with
           | |- context [round ?x] =>
               destruct (round x) as [? | ?]; cbn [bind]; [| reflexivity]
           end;
    cbn; repeat split.
Qed.

(** The theorem at two spellings of the demo's call. *)
Lemma calories_ignore_case_witness :
  match calculate_calories_value "Weight Loss" (of_Z 80) (of_Z 175) 28 "MALE",
        calculate_calories_value "weight loss" (of_Z 80) (of_Z 175) 28 "male" with
  | Ok r1, Ok r2 =>
      goal_of r1 = "Weight Loss" /\ goal_of r2 = "weight loss"
      /\ daily_calories r1 = daily_calories r2
      /\ protein r1 = protein r2 /\ fat r1 = fat r2 /\ carbs r1 = carbs r2
  | Raise e1, Raise e2 => e1 = e2
  | _, _ => False
  end.
Proof.
  apply (calories_ignore_case "Weight Loss" "weight loss" (of_Z 80) (of_Z 175) 28
           "MALE" "male"); reflexivity.
Defined.

End CaloriesRelations.

(** ** The calorie calculator: what makes it raise *)
Module CaloriesErrors.

Import PyStr Json Py Float Tools.
Import FloatProps FloatSumProps FloatOverflowProps CaloriesAccuracy.

(** *** A NaN goes through every operation *)

Lemma mul_nan_l (y : float) : mul S754_nan y = S754_nan.
Proof. reflexivity. Qed.

Lemma mul_nan_r (x : float) : mul x S754_nan = S754_nan.
Proof. destruct x; reflexivity. Qed.

Lemma add_nan_l (y : float) : add S754_nan y = S754_nan.
Proof. reflexivity. Qed.

Lemma add_nan_r (x : float) : add x S754_nan = S754_nan.
Proof. destruct x; reflexivity. Qed.

Lemma sub_nan_l (y : float) : sub S754_nan y = S754_nan.
Proof. reflexivity. Qed.

Lemma div_nan_l (y : float) : div S754_nan y = S754_nan.
Proof. reflexivity. Qed.

(** *** An infinity goes through every operation with a number *)

Lemma add_inf_l (s : bool) (y : float) :
  is_number y -> add (S754_infinity s) y = S754_infinity s.
Proof. destruct y; intros H; try contradiction; reflexivity. Qed.

Lemma add_inf_r (s : bool) (x : float) :
  is_number x -> add x (S754_infinity s) = S754_infinity s.
Proof. destruct x; intros H; try contradiction; reflexivity. Qed.

Lemma sub_inf_l (s : bool) (y : float) :
  is_number y -> sub (S754_infinity s) y = S754_infinity s.
Proof. destruct y; intros H; try contradiction; reflexivity. Qed.

(** An infinity goes through the constants of the source, which are all
    positive. *)
Lemma inf_through_constants (s : bool) :
  let inf := S754_infinity s in
  mul (of_Z 10) inf = inf /\ mul c_6_25 inf = inf
  /\ add inf (of_Z 5) = inf /\ sub inf (of_Z 161) = inf
  /\ mul inf c_1_55 = inf
  /\ sub inf (of_Z 500) = inf /\ add inf (of_Z 300) = inf
  /\ mul inf c_0_40 = inf /\ mul inf c_0_30 = inf
  /\ mul inf c_0_25 = inf /\ mul inf c_0_45 = inf
  /\ div inf (of_Z 4) = inf /\ div inf (of_Z 9) = inf.
Proof. destruct s; repeat split; vm_compute; reflexivity. Qed.

(** The target decides: a NaN target makes the call raise [ValueError], an
    infinite one [OverflowError], both at the first [round]. *)
Lemma target_decides (goal : string) (w h : float) (age : Z) (gender : string)
  (b : float) :
  bmr w h age gender = Ok b ->
  (calorie_target goal (tdee b) = S754_nan ->
   calculate_calories_value goal w h age gender = Raise ValueError)
  /\ (forall s : bool,
        calorie_target goal (tdee b) = S754_infinity s ->
        calculate_calories_value goal w h age gender = Raise OverflowError).
Proof.
  intros Hb. unfold calculate_calories_value. rewrite Hb. cbn [bind]. cbv zeta.
  split.
  - intros ->. unfold macro_pcts.
    destruct (String.eqb (lower goal) "weight loss");
      [| destruct (String.eqb (lower goal) "muscle gain")];
      rewrite !mul_nan_l, !div_nan_l; reflexivity.
  - intros s ->.
    destruct (inf_through_constants s)
      as (_ & _ & _ & _ & _ & _ & _ & M40 & M30 & M25 & M45 & D4 & D9).
    cbv zeta in M40, M30, M25, M45, D4, D9. unfold macro_pcts.
    destruct (String.eqb (lower goal) "weight loss");
      [| destruct (String.eqb (lower goal) "muscle gain")];
      rewrite ?M40, ?M30, ?M25, ?M45, ?D4, ?D9; reflexivity.
Qed.

(** A NaN or an infinite BMR gives a target of the same kind. *)
Lemma target_of_nan (goal : string) : calorie_target goal (tdee S754_nan) = S754_nan.
Proof.
  unfold calorie_target, tdee. rewrite mul_nan_l.
  destruct (String.eqb (lower goal) "weight loss");
    [| destruct (String.eqb (lower goal) "muscle gain")]; reflexivity.
Qed.

Lemma target_of_inf (goal : string) (s : bool) :
  calorie_target goal (tdee (S754_infinity s)) = S754_infinity s.
Proof.
  destruct (inf_through_constants s) as (_ & _ & _ & _ & M & S500 & A300 & _).
  cbv zeta in M, S500, A300.
  unfold calorie_target, tdee. rewrite M.
  destruct (String.eqb (lower goal) "weight loss");
    [| destruct (String.eqb (lower goal) "muscle gain")]; assumption || reflexivity.
Qed.

Local Open Scope Q_scope.

(** A moderate weight or height times its constant is a number. *)
Lemma scaled_is_number (c x : float) (k : Q) :
  is_number c -> to_Q c == k -> 0 <= k <= 10 ->
  is_number x -> Qabs (to_Q x) <= 1000000 ->
  is_number (mul c x).
Proof.
  intros Hc Hk Hkr Hx Hxr. apply Qabs_Qle_condition in Hxr.
  destruct (mul_error c x 26 Hc Hx) as [Hn _]; [| lia | exact Hn].
  rewrite Hk, pow2_26. apply Qabs_Qlt_condition. split; nra.
Qed.

Local Close Scope Q_scope.

(** X6: with an age below [2 ^ 50] in magnitude, a NaN weight or
    height makes the tool raise [ValueError], and an infinite weight beside a
    height of moderate size, or an infinite height beside a weight of
    moderate size, makes it raise [OverflowError]; no dictionary is
    serialised. *)
Theorem nonnumbers_raise
  (goal : string) (w h : float) (age : Z) (gender : string) :
  Z.abs age < 2 ^ 50 ->
  (w = S754_nan \/ h = S754_nan ->
   calculate_calories goal w h age gender = Raise ValueError)
  /\ (forall s : bool,
        w = S754_infinity s -> is_number h -> (Qabs (to_Q h) <= 1000000)%Q ->
        calculate_calories goal w h age gender = Raise OverflowError)
  /\ (forall s : bool,
        h = S754_infinity s -> is_number w -> (Qabs (to_Q w) <= 1000000)%Q ->
        calculate_calories goal w h age gender = Raise OverflowError).
Proof.
  intros Hage.
  destruct (float_of_int_exact (5 * age) ltac:(lia)) as (a & Ha & Hna & _).
  destruct constant_values as (V10 & V625 & _).
  assert (Hbmr_nan : w = S754_nan \/ h = S754_nan -> bmr w h age gender = Ok S754_nan).
  { intros Hnan. unfold bmr. rewrite Ha. cbn [bind].
    assert (Hsum : add (mul (of_Z 10) w) (mul c_6_25 h) = S754_nan).
    { destruct Hnan as [-> | ->].
      - rewrite mul_nan_r. apply add_nan_l.
      - rewrite mul_nan_r. apply add_nan_r. }
    rewrite Hsum, sub_nan_l.
    destruct (in_list (lower gender) ["male"; "m"]); reflexivity. }
  assert (Hbmr_inf : forall s : bool,
             add (mul (of_Z 10) w) (mul c_6_25 h) = S754_infinity s ->
             bmr w h age gender = Ok (S754_infinity s)).
  { intros s Hsum. unfold bmr. rewrite Ha. cbn [bind].
    rewrite Hsum, (sub_inf_l s a Hna).
    destruct (inf_through_constants s) as (_ & _ & A5 & S161 & _).
    cbv zeta in A5, S161.
    destruct (in_list (lower gender) ["male"; "m"]); [rewrite A5 | rewrite S161];
      reflexivity. }
  split; [| split].
  - intros Hnan. unfold calculate_calories.
    destruct (target_decides goal w h age gender _ (Hbmr_nan Hnan)) as [H _].
    rewrite (H (target_of_nan goal)). reflexivity.
  - intros s -> Hh Hhr. unfold calculate_calories.
    destruct (inf_through_constants s) as (M10 & _). cbv zeta in M10.
    assert (Hsum : add (mul (of_Z 10) (S754_infinity s)) (mul c_6_25 h) = S754_infinity s).
    { rewrite M10. apply add_inf_l.
      apply (scaled_is_number c_6_25 h (625 # 100) I V625); [split; discriminate | assumption ..]. }
    destruct (target_decides goal _ h age gender _ (Hbmr_inf s Hsum)) as [_ H].
    rewrite (H s (target_of_inf goal s)). reflexivity.
  - intros s -> Hw Hwr. unfold calculate_calories.
    destruct (inf_through_constants s) as (_ & M625 & _). cbv zeta in M625.
    assert (Hsum : add (mul (of_Z 10) w) (mul c_6_25 (S754_infinity s)) = S754_infinity s).
    { rewrite M625. apply add_inf_r.
      apply (scaled_is_number (of_Z 10) w 10 I V10); [split; discriminate | assumption ..]. }
    destruct (target_decides goal w _ age gender _ (Hbmr_inf s Hsum)) as [_ H].
    rewrite (H s (target_of_inf goal s)). reflexivity.
Qed.

(** The theorem at a NaN weight and at an infinite weight. *)
Lemma nonnumbers_raise_witness :
  calculate_calories "weight loss" S754_nan (of_Z 175) 28 "male" = Raise ValueError
  /\ calculate_calories "weight loss" (S754_infinity false) (of_Z 175) 28 "male"
     = Raise OverflowError.
Proof.
  split.
  - destruct (nonnumbers_raise "weight loss" S754_nan (of_Z 175) 28 "male"
                ltac:(vm_compute; reflexivity)) as (H & _ & _).
    apply H. left. reflexivity.
  - destruct (nonnumbers_raise "weight loss" (S754_infinity false) (of_Z 175) 28 "male"
                ltac:(vm_compute; reflexivity)) as (_ & H & _).
    apply (H false eq_refl I). vm_compute. discriminate.
Defined.

(** X7: an age whose five-fold is [2 ^ 1024] or more in magnitude makes
    the tool raise [OverflowError] (the integer [5 * age] has no float),
    whatever the other arguments are, a NaN weight included. *)
Theorem huge_age_raises
  (goal : string) (w h : float) (age : Z) (gender : string) :
  2 ^ 1024 <= Z.abs (5 * age) ->
  calculate_calories goal w h age gender = Raise OverflowError.
Proof.
  intros Hage. unfold calculate_calories, calculate_calories_value, bmr.
  rewrite (float_of_int_overflow _ Hage).
  destruct (in_list (lower gender) ["male"; "m"]); reflexivity.
Qed.

(** The theorem at the age [2 ^ 1024] and a NaN weight. *)
Lemma huge_age_raises_witness :
  calculate_calories "weight loss" S754_nan (of_Z 175) (2 ^ 1024) "male"
  = Raise OverflowError.
Proof.
  apply huge_age_raises. vm_compute. discriminate.
Defined.

End CaloriesErrors.

(** ** [round]: whole numbers and ties *)
Module RoundingProps.

Import PyStr Py Float Tools.
Import FloatProps FloatSumProps.

Lemma even_of_opposite_less_one (n : Z) : Z.even (- n - 1) = negb (Z.even n).
Proof.
  replace (- n - 1) with (- (n + 1)) by lia.
  rewrite Z.even_opp, Z.even_add. destruct (Z.even n); reflexivity.
Qed.

(** Half-even rounding of a quotient that lies halfway between [q] and
    [q + 1]. *)
Lemma round_half_even_tie (m d q : Z) :
  0 < d -> 2 * m = (2 * q + 1) * d ->
  round_half_even m d = if Z.even q then q else q + 1.
Proof.
  intros Hd Hm. unfold round_half_even.
  assert (Hmod : 2 * (m - d * q) = d) by lia.
  assert (Hq : m / d = q).
  { symmetry. apply (Z.div_unique_pos m d q (m - d * q)); lia. }
  assert (Hr : m mod d = m - d * q).
  { symmetry. apply (Z.mod_unique_pos m d q (m - d * q)); lia. }
  rewrite Hq, Hr.
  replace (2 * (m - d * q) ?= d) with Eq; [reflexivity |].
  symmetry. apply Z.compare_eq_iff. exact Hmod.
Qed.

Local Open Scope Q_scope.

(** A float that is a whole number is rounded to that number. *)
Lemma round_whole (x : float) (n d : Z) :
  round x = Ok d -> to_Q x == inject_Z n -> d = n.
Proof.
  intros Hd Hx. pose proof (round_nearest _ _ Hd) as Hn.
  rewrite Hx in Hn. apply Qabs_Qle_condition in Hn.
  assert (Hb : inject_Z (-1) < inject_Z (d - n) /\ inject_Z (d - n) < inject_Z 1).
  { unfold Z.sub. rewrite inject_Z_plus, inject_Z_opp.
    change (inject_Z (-1)) with (-1). change (inject_Z 1) with 1. split; lra. }
  rewrite <- !Zlt_Qlt in Hb. lia.
Qed.

(** The integer equation behind a float that stands for [n + 1/2]. *)
Lemma half_integer_mantissa (s : bool) (m : positive) (e n : Z) :
  to_Q (S754_finite s m e) == inject_Z n + (1 # 2) ->
  (e < 0)%Z /\ (2 * cond_Zopp s (Z.pos m) = (2 * n + 1) * 2 ^ (- e))%Z.
Proof.
  intros H.
  destruct (Z_lt_le_dec e 0) as [He | He].
  - split; [exact He |].
    assert (Hk : (0 <= - e)%Z) by lia.
    assert (Hone : 2 ^ e * inject_Z (2 ^ (- e)) == 1).
    { rewrite (pow2_inject _ Hk), <- pow2_add.
      now replace (e + - e)%Z with 0%Z by lia. }
    assert (E : to_Q (S754_finite s m e) * inject_Z (2 ^ (- e))
                == inject_Z (cond_Zopp s (Z.pos m))).
    { rewrite to_Q_finite, cond_Zopp_Q.
      setoid_replace (sgn s * (inject_Z (Z.pos m) * 2 ^ e) * inject_Z (2 ^ (- e)))
        with (sgn s * inject_Z (Z.pos m) * (2 ^ e * inject_Z (2 ^ (- e)))) by ring.
      rewrite Hone. ring. }
    rewrite H in E.
    apply inject_Z_injective.
    rewrite !inject_Z_mult, inject_Z_plus, inject_Z_mult, <- E.
    change (inject_Z 2) with 2. change (inject_Z 1) with 1. ring.
  - exfalso.
    assert (E : to_Q (S754_finite s m e)
                == inject_Z (cond_Zopp s (Z.pos m) * 2 ^ e)).
    { rewrite to_Q_finite, inject_Z_mult, cond_Zopp_Q, (pow2_inject _ He). ring. }
    rewrite H in E.
    assert (E2 : inject_Z (2 * n + 1) == inject_Z (2 * (cond_Zopp s (Z.pos m) * 2 ^ e))).
    { rewrite inject_Z_plus, !inject_Z_mult, <- E.
      change (inject_Z 2) with 2. change (inject_Z 1) with 1. ring. }
    apply (proj1 (inject_Z_injective _ _)) in E2.
    set (X := (cond_Zopp s (Z.pos m) * 2 ^ e)%Z) in E2. clearbody X. lia.
Qed.

Local Close Scope Q_scope.

(** A float halfway between two integers is rounded to the even one. *)
Lemma round_tie (x : float) (n d : Z) :
  round x = Ok d -> (to_Q x == inject_Z n + (1 # 2))%Q ->
  d = if Z.even n then n else n + 1.
Proof.
  destruct x as [s | s | | s m e]; cbn [round]; intros Hd Hx; try discriminate Hd.
  - exfalso. cbn [to_Q] in Hx.
    assert (E : (inject_Z 0 == inject_Z (2 * n + 1))%Q).
    { rewrite inject_Z_plus, inject_Z_mult.
      change (inject_Z 0) with 0%Q. change (inject_Z 2) with 2%Q.
      change (inject_Z 1) with 1%Q. lra. }
    apply (proj1 (inject_Z_injective _ _)) in E. lia.
  - destruct (half_integer_mantissa s m e n Hx) as [He Hm].
    replace (0 <=? e) with false in Hd by (symmetry; apply Z.leb_gt; exact He).
    injection Hd as <-.
    assert (HD : 0 < 2 ^ (- e)) by (apply Z.pow_pos_nonneg; lia).
    destruct s; cbn [cond_Zopp] in Hm |- *.
    + rewrite (round_half_even_tie (Z.pos m) (2 ^ (- e)) (- n - 1) HD) by lia.
      rewrite even_of_opposite_less_one. destruct (Z.even n); cbn [negb]; lia.
    + apply (round_half_even_tie (Z.pos m) (2 ^ (- e)) n HD). lia.
Qed.

(** X8: the daily calories are the calorie target rounded half to even,
    as Python 3 rounds: a target that is a whole number is returned as it
    is, and a target halfway between two integers goes to the even one (a
    target of 1844.5 gives 1844, one of 1813.5 gives 1814). *)
Theorem daily_calories_round_half_to_even
  (goal : string) (w h : float) (age : Z) (gender : string) (r : calories) :
  calculate_calories_value goal w h age gender = Ok r ->
  exists b : float,
    bmr w h age gender = Ok b
    /\ forall n : Z,
         ((to_Q (calorie_target goal (tdee b)) == inject_Z n)%Q ->
          daily_calories r = n)
         /\ ((to_Q (calorie_target goal (tdee b)) == inject_Z n + (1 # 2))%Q ->
             daily_calories r = if Z.even n then n else n + 1).
Proof.
  intros Hr.
  destruct (CaloriesRelations.daily_of_returned _ _ _ _ _ _ Hr) as (b & Hb & Hd).
  exists b. split; [exact Hb |]. intros n. split; intros Ht.
  - exact (round_whole _ _ _ Hd Ht).
  - exact (round_tie _ _ _ Hd Ht).
Qed.

(** The theorem at two persons whose targets are 1844.5 and 1813.5 kcal. *)
Lemma daily_calories_round_half_to_even_witness :
  (exists r : calories,
      calculate_calories_value "maintain" (of_Z 40) (of_Z 140) 18 "male" = Ok r
      /\ daily_calories r = 1844)
  /\ (exists r : calories,
        calculate_calories_value "maintain" (of_Z 40) (of_Z 140) 22 "male" = Ok r
        /\ daily_calories r = 1814).
Proof.
  split.
  - destruct (calculate_calories_value "maintain" (of_Z 40) (of_Z 140) 18 "male")
      as [r | e] eqn:E; [| exfalso; vm_compute in E; discriminate E].
    exists r. split; [reflexivity |].
    destruct (daily_calories_round_half_to_even _ _ _ _ _ _ E) as (b & Hb & Hn).
    assert (Eb : Ok b = Ok (of_Z 1190)).
    { rewrite <- Hb. vm_compute. reflexivity. }
    injection Eb as ->.
    destruct (Hn 1844) as [_ Htie]. apply Htie. vm_compute. reflexivity.
  - destruct (calculate_calories_value "maintain" (of_Z 40) (of_Z 140) 22 "male")
      as [r | e] eqn:E; [| exfalso; vm_compute in E; discriminate E].
    exists r. split; [reflexivity |].
    destruct (daily_calories_round_half_to_even _ _ _ _ _ _ E) as (b & Hb & Hn).
    assert (Eb : Ok b = Ok (of_Z 1170)).
    { rewrite <- Hb. vm_compute. reflexivity. }
    injection Eb as ->.
    destruct (Hn 1813) as [_ Htie]. apply Htie. vm_compute. reflexivity.
Defined.

End RoundingProps.

(** ** The calorie calculator: one unit more *)
Module CaloriesSensitivity.

Import PyStr Json Py Float Tools ExactRule.
Import FloatProps CaloriesAccuracy.

Local Open Scope Q_scope.

(** The exact target is linear in the weight, the height and the age, with
    the slopes 15.5, 9.6875 and -7.75 kcal. *)
Lemma exact_calories_slopes (goal : string) (W W' H H' : Q) (age age' : Z)
  (gender : string) :
  exact_calories goal W' H' age' gender - exact_calories goal W H age gender
  == (155 # 10) * (W' - W) + (96875 # 10000) * (H' - H)
     - (775 # 100) * (inject_Z age' - inject_Z age).
Proof.
  unfold exact_calories, exact_target, exact_tdee, exact_bmr.
  rewrite !inject_Z_mult. change (inject_Z 5) with 5.
  destruct (in_list (lower gender) ["male"; "m"]);
    (destruct (String.eqb (lower goal) "weight loss");
     [| destruct (String.eqb (lower goal) "muscle gain")]); ring.
Qed.

(** Two calls on inputs of moderate size: the difference of the daily
    calories is within one unit, and [2 ^ -23], of the difference of the
    exact targets. *)
Lemma daily_difference
  (goal : string) (w w' h h' : float) (age age' : Z) (gender : string) :
  is_number w -> is_number w' -> is_number h -> is_number h' ->
  Qabs (to_Q w) <= 1000000 -> Qabs (to_Q w') <= 1000000 ->
  Qabs (to_Q h) <= 1000000 -> Qabs (to_Q h') <= 1000000 ->
  (Z.abs age <= 1000000)%Z -> (Z.abs age' <= 1000000)%Z ->
  exists r r' : calories,
    calculate_calories_value goal w h age gender = Ok r
    /\ calculate_calories_value goal w' h' age' gender = Ok r'
    /\ Qabs (inject_Z (daily_calories r' - daily_calories r)
             - ((155 # 10) * (to_Q w' - to_Q w) + (96875 # 10000) * (to_Q h' - to_Q h)
                - (775 # 100) * (inject_Z age' - inject_Z age)))
       <= 1 + (1 # 8388608).
Proof.
  intros Hw Hw' Hh Hh' Hwr Hwr' Hhr Hhr' Har Har'.
  destruct (calories_close goal w h age gender Hw Hh Hwr Hhr Har) as (r & Hr & _ & Hc).
  destruct (calories_close goal w' h' age' gender Hw' Hh' Hwr' Hhr' Har') as (r' & Hr' & _ & Hc').
  exists r, r'. split; [exact Hr |]. split; [exact Hr' |].
  cbv zeta in Hc, Hc'. destruct (exact_pcts goal) as [[pp fp] cp].
  destruct Hc as (Hd & _). destruct Hc' as (Hd' & _).
  apply Qabs_Qle_condition in Hd, Hd'.
  rewrite <- (exact_calories_slopes goal (to_Q w) (to_Q w') (to_Q h) (to_Q h') age age' gender).
  unfold Z.sub. rewrite inject_Z_plus, inject_Z_opp.
  apply Qabs_Qle_condition. split; lra.
Qed.

Lemma between (x lo hi : Z) :
  inject_Z lo - 1 < inject_Z x < inject_Z hi + 1 -> (lo <= x <= hi)%Z.
Proof.
  intros [H1 H2].
  assert (H1' : inject_Z (lo - 1) < inject_Z x).
  { unfold Z.sub. rewrite inject_Z_plus, inject_Z_opp. change (inject_Z 1) with 1. lra. }
  assert (H2' : inject_Z x < inject_Z (hi + 1)).
  { rewrite inject_Z_plus. change (inject_Z 1) with 1. lra. }
  rewrite <- Zlt_Qlt in H1', H2'. lia.
Qed.

Local Close Scope Q_scope.

(** X9: on inputs of moderate size, one kilogram more adds 15 or 16 kcal to
    the daily calories, one centimetre more adds 9 or 10, and one year more
    takes 7 or 8 off, whatever the goal and the gender (the exact slopes
    are 15.5, 9.6875 and 7.75 kcal). *)
Theorem one_unit_more
  (goal : string) (w w' h h' : float) (age : Z) (gender : string) :
  is_number w -> is_number w' -> is_number h -> is_number h' ->
  (Qabs (to_Q w) <= 1000000)%Q -> (Qabs (to_Q w') <= 1000000)%Q ->
  (Qabs (to_Q h) <= 1000000)%Q -> (Qabs (to_Q h') <= 1000000)%Q ->
  Z.abs age < 1000000 ->
  (to_Q w' == to_Q w + 1)%Q -> (to_Q h' == to_Q h + 1)%Q ->
  exists r heavier taller older : calories,
    calculate_calories_value goal w h age gender = Ok r
    /\ calculate_calories_value goal w' h age gender = Ok heavier
    /\ calculate_calories_value goal w h' age gender = Ok taller
    /\ calculate_calories_value goal w h (age + 1) gender = Ok older
    /\ 15 <= daily_calories heavier - daily_calories r <= 16
    /\ 9 <= daily_calories taller - daily_calories r <= 10
    /\ 7 <= daily_calories r - daily_calories older <= 8.
Proof.
  intros Hw Hw' Hh Hh' Hwr Hwr' Hhr Hhr' Har Ew Eh.
  destruct (daily_difference goal w w' h h age age gender)
    as (r & r1 & Hr & Hr1 & Hd1); try assumption; try lia.
  destruct (daily_difference goal w w h h' age age gender)
    as (r0 & r2 & Hr0 & Hr2 & Hd2); try assumption; try lia.
  rewrite Hr in Hr0. injection Hr0 as <-.
  destruct (daily_difference goal w w h h age (age + 1) gender)
    as (r0 & r3 & Hr0 & Hr3 & Hd3); try assumption; try lia.
  rewrite Hr in Hr0. injection Hr0 as <-.
  exists r, r1, r2, r3.
  split; [exact Hr |]. split; [exact Hr1 |]. split; [exact Hr2 |]. split; [exact Hr3 |].
  rewrite Ew in Hd1. rewrite Eh in Hd2. rewrite inject_Z_plus in Hd3.
  apply Qabs_Qle_condition in Hd1, Hd2, Hd3.
  split; [| split].
  - apply between. change (inject_Z 15) with 15%Q. change (inject_Z 16) with 16%Q.
    split; lra.
  - apply between. change (inject_Z 9) with 9%Q. change (inject_Z 10) with 10%Q.
    split; lra.
  - apply between. change (inject_Z 7) with 7%Q. change (inject_Z 8) with 8%Q.
    replace (daily_calories r - daily_calories r3)
      with (- (daily_calories r3 - daily_calories r)) by lia.
    rewrite inject_Z_opp. change (inject_Z 1) with 1%Q in Hd3. split; lra.
Qed.

(** The theorem at the demo's person. *)
Lemma one_unit_more_witness :
  exists r heavier taller older : calories,
    calculate_calories_value "weight loss" (of_Z 80) (of_Z 175) 28 "male" = Ok r
    /\ calculate_calories_value "weight loss" (of_Z 81) (of_Z 175) 28 "male" = Ok heavier
    /\ calculate_calories_value "weight loss" (of_Z 80) (of_Z 176) 28 "male" = Ok taller
    /\ calculate_calories_value "weight loss" (of_Z 80) (of_Z 175) (28 + 1) "male" = Ok older
    /\ 15 <= daily_calories heavier - daily_calories r <= 16
    /\ 9 <= daily_calories taller - daily_calories r <= 10
    /\ 7 <= daily_calories r - daily_calories older <= 8.
Proof.
  apply (one_unit_more "weight loss" (of_Z 80) (of_Z 81) (of_Z 175) (of_Z 176) 28 "male");
    try exact I; try (vm_compute; discriminate); try lia; vm_compute; reflexivity.
Defined.

End CaloriesSensitivity.

(** ** Strings: concatenation and lower-casing *)
Module StringProps.

Import PyStr.

Lemma append_nil_r (s : string) : s ++ "" = s.
Proof. induction s as [| c s IH]; simpl; [reflexivity | now rewrite IH]. Qed.

Lemma append_assoc (a b c : string) : (a ++ b) ++ c = a ++ (b ++ c).
Proof. induction a as [| x a IH]; simpl; [reflexivity | now rewrite IH]. Qed.

Lemma length_append (a b : string) :
  String.length (a ++ b) = (String.length a + String.length b)%nat.
Proof. induction a as [| x a IH]; simpl; [reflexivity | now rewrite IH]. Qed.

(** A common prefix, and a common suffix, can be taken off an equation. *)
Lemma append_inj_l (p x y : string) : p ++ x = p ++ y -> x = y.
Proof.
  induction p as [| c p IH]; simpl; intros H; [exact H |].
  injection H as H. now apply IH.
Qed.

Lemma append_inj_r (x y s : string) : x ++ s = y ++ s -> x = y.
Proof.
  revert y. induction x as [| c x IH]; intros [| d y] H; simpl in H.
  - reflexivity.
  - exfalso. apply (f_equal String.length) in H. simpl in H.
    rewrite length_append in H. lia.
  - exfalso. apply (f_equal String.length) in H. simpl in H.
    rewrite length_append in H. lia.
  - injection H as -> H. f_equal. now apply IH.
Qed.

Lemma lower_length (s : string) : String.length (lower s) = String.length s.
Proof. induction s as [| c s IH]; simpl; [reflexivity | now rewrite IH]. Qed.

Lemma lower_append (a b : string) : lower (a ++ b) = lower a ++ lower b.
Proof. induction a as [| x a IH]; simpl; [reflexivity | now rewrite IH]. Qed.

(** Lower-casing twice is lower-casing once. *)
Lemma lower_char_idempotent (c : ascii) : lower_char (lower_char c) = lower_char c.
Proof. destruct c as [[] [] [] [] [] [] [] []]; reflexivity. Qed.

Lemma lower_idempotent (s : string) : lower (lower s) = lower s.
Proof.
  induction s as [| c s IH]; simpl; [reflexivity |].
  now rewrite lower_char_idempotent, IH.
Qed.

End StringProps.

(** ** The exercise catalogue: which inputs get which answer *)
Module ExerciseAnswers.

Import PyStr Json Tools StringProps.

Lemma dict_get_key {A : Type} (d : list (string * A)) (k : string) (v : A) :
  dict_get d k = Some v -> In k (dict_keys d).
Proof.
  induction d as [| [k' v'] d IH]; simpl; [discriminate |].
  destruct (String.eqb_spec k k') as [-> | Hne]; intros H.
  - now left.
  - right. now apply IH.
Qed.

(** The five names are lower-case already. *)
Lemma supported_are_lower (name : string) : In name supported -> lower name = name.
Proof.
  simpl. intros [<- | [<- | [<- | [<- | [<- | []]]]]]; reflexivity.
Qed.

(** Two hits with the same answer are hits on the same name. *)
Lemma hits_differ (x y : string) (lx ly : list string) :
  dict_get exercise_data x = Some lx -> dict_get exercise_data y = Some ly ->
  dumps (exercise_record x lx) = dumps (exercise_record y ly) -> x = y.
Proof.
  intros Hx Hy H.
  pose proof (dict_get_key _ _ _ Hx) as Kx. pose proof (dict_get_key _ _ _ Hy) as Ky.
  simpl in Kx, Ky.
  destruct Kx as [<- | [<- | [<- | [<- | [<- | []]]]]];
    vm_compute in Hx; injection Hx as <-;
    destruct Ky as [<- | [<- | [<- | [<- | [<- | []]]]]];
    vm_compute in Hy; injection Hy as <-;
    first [ reflexivity | vm_compute in H; discriminate H ].
Qed.

(** X10: the answer tells the lower-cased input and nothing more of
    it: two inputs get the same answer exactly when they agree after
    lower-casing; in particular an input and its lower-cased form get the
    same answer. *)
Theorem answer_identifies_lowered_input (a b : string) :
  (get_exercise_info a = get_exercise_info b <-> lower a = lower b)
  /\ get_exercise_info (lower a) = get_exercise_info a.
Proof.
  assert (Hsame : forall x y, lower x = lower y ->
                              get_exercise_info x = get_exercise_info y).
  { intros x y E. unfold get_exercise_info, get_exercise_info_value. now rewrite E. }
  split; [split |].
  - unfold get_exercise_info, get_exercise_info_value.
    destruct (dict_get exercise_data (lower a)) as [la |] eqn:Ha;
      destruct (dict_get exercise_data (lower b)) as [lb |] eqn:Hb;
      cbn [render]; intros H.
    + exact (hits_differ _ _ _ _ Ha Hb H).
    + exfalso. symmetry in H. unfold exercise_record in H.
      exact (ExerciseProps.not_available_is_no_object _ _ H).
    + exfalso. unfold exercise_record in H.
      exact (ExerciseProps.not_available_is_no_object _ _ H).
    + unfold not_available in H.
      apply append_inj_l in H. now apply append_inj_r in H.
  - apply Hsame.
  - apply Hsame. apply lower_idempotent.
Qed.

(** X11: the lookup neither trims its input nor searches inside it:
    a supported name, in any casing, with any characters added before it or
    after it (a blank, a newline, a plural s) is a miss, answered with the sentence
    that quotes the lower-cased input as it came. *)
Theorem padded_name_is_a_miss (before name after : string) :
  In (lower name) supported -> before ++ after <> "" ->
  get_exercise_info (before ++ name ++ after)
  = "Exercise information for " ++ lower (before ++ name ++ after)
    ++ " is not available.".
Proof.
  intros Hin Hne. unfold get_exercise_info, get_exercise_info_value.
  destruct (dict_get exercise_data (lower (before ++ name ++ after))) as [l |] eqn:Hget;
    [exfalso | reflexivity].
  apply dict_get_key in Hget.
  rewrite !lower_append in Hget.
  simpl in Hin. revert Hget.
  destruct Hin as [<- | [<- | [<- | [<- | [<- | []]]]]];
    simpl; intros [E | [E | [E | [E | [E | []]]]]];
    pose proof (f_equal String.length E) as Hl;
    rewrite !length_append, !lower_length in Hl; cbn [String.length] in Hl;
    (destruct before as [| c1 [| c1' before]]; destruct after as [| c2 [| c2' after]];
     cbn [String.length] in Hl; try lia;
     first [ now apply Hne | cbn in E; discriminate E ]).
Qed.

(** The theorem at a name followed by a blank, and at a plural. *)
Lemma padded_name_is_a_miss_witness :
  get_exercise_info "chest " = "Exercise information for chest  is not available."
  /\ get_exercise_info "Arms and legs"
     = "Exercise information for arms and legs is not available.".
Proof.
  split.
  - apply (padded_name_is_a_miss "" "chest" " ").
    + simpl. now left.
    + discriminate.
  - apply (padded_name_is_a_miss "" "Arms" " and legs").
    + simpl. tauto.
    + discriminate.
Defined.

End ExerciseAnswers.

(** ** The serialised results *)
Module SerialisedProps.

Import PyStr Json Py Float Tools Text StringProps.

(** *** Classes of characters *)

Lemma all_chars_append (p : ascii -> bool) (a b : string) :
  all_chars p (a ++ b) = all_chars p a && all_chars p b.
Proof.
  induction a as [| c a IH]; simpl; [reflexivity |].
  now rewrite IH, andb_assoc.
Qed.

Lemma escape_char_printable (c : ascii) : printable (escape_char c) = true.
Proof. destruct c as [[] [] [] [] [] [] [] []]; reflexivity. Qed.

(** Whatever the text, its escaped form is printable ASCII. *)
Lemma escape_printable (s : string) : printable (escape s) = true.
Proof.
  induction s as [| c s IH]; [reflexivity |].
  pose proof (escape_char_printable c) as Hc.
  cbn [escape]. unfold printable in *.
  now rewrite all_chars_append, Hc, IH.
Qed.

Lemma string_of_uint_digits (d : Decimal.uint) :
  all_chars number_char (NilEmpty.string_of_uint d) = true.
Proof. induction d; simpl; try rewrite IHd; reflexivity. Qed.

Lemma dumps_int_number_chars (n : Z) : all_chars number_char (dumps_int n) = true.
Proof.
  unfold dumps_int, NilZero.string_of_int, NilZero.string_of_uint.
  destruct (Z.to_int n) as [d | d]; destruct d; simpl;
    try rewrite string_of_uint_digits; reflexivity.
Qed.

Lemma number_char_printable (c : ascii) :
  number_char c = true -> printable_char c = true.
Proof. destruct c as [[] [] [] [] [] [] [] []]; simpl; intros H; (reflexivity || discriminate H). Qed.

Lemma all_chars_weaken (p q : ascii -> bool) (s : string) :
  (forall c, p c = true -> q c = true) ->
  all_chars p s = true -> all_chars q s = true.
Proof.
  intros Hpq. induction s as [| c s IH]; simpl; [reflexivity |].
  rewrite !andb_true_iff. intros [Hc Hs]. split; [now apply Hpq | now apply IH].
Qed.

Lemma dumps_int_printable (n : Z) : printable (dumps_int n) = true.
Proof.
  apply (all_chars_weaken number_char); [exact number_char_printable |].
  apply dumps_int_number_chars.
Qed.

(** *** The text of a serialised calorie dictionary *)

Lemma calories_text (r : calories) :
  dumps (calories_json r)
  = ("{" ++ dq ++ "goal" ++ dq ++ ": " ++ dq)
    ++ escape (goal_of r)
    ++ (dq ++ ", " ++ dq ++ "daily_calories" ++ dq ++ ": ")
    ++ dumps_int (daily_calories r)
    ++ (", " ++ dq ++ "macros" ++ dq ++ ": {" ++ dq ++ "protein" ++ dq ++ ": ")
    ++ dumps_int (protein r)
    ++ (", " ++ dq ++ "fat" ++ dq ++ ": ")
    ++ dumps_int (fat r)
    ++ (", " ++ dq ++ "carbs" ++ dq ++ ": ")
    ++ dumps_int (carbs r)
    ++ "}}".
Proof.
  destruct r as [g d p f c]. unfold calories_json.
  cbn [dumps goal_of daily_calories protein fat carbs]. unfold dumps_str.
  change (escape "goal") with "goal". change (escape "daily_calories") with "daily_calories".
  change (escape "macros") with "macros". change (escape "protein") with "protein".
  change (escape "fat") with "fat". change (escape "carbs") with "carbs".
  unfold dq. repeat first [rewrite append_assoc | progress cbn [append]]. reflexivity.
Qed.

(** X13: whatever characters the goal holds (quotes, newlines,
    control characters, accented letters), the text the calorie tool returns
    is printable ASCII, blank to tilde, throughout; the exercise tool
    escapes nothing of its own: its answer is printable exactly when the
    lower-cased muscle group is. *)
Theorem tool_outputs_are_printable :
  (forall (goal : string) (w h : float) (age : Z) (gender : string) (text : string),
      calculate_calories goal w h age gender = Ok text -> printable text = true)
  /\ (forall muscle_group : string,
        printable (get_exercise_info muscle_group) = printable (lower muscle_group)).
Proof.
  split.
  - intros goal w h age gender text. unfold calculate_calories.
    destruct (calculate_calories_value goal w h age gender) as [r | e];
      cbn [bind]; [| discriminate].
    intros H.
    assert (E : text = dumps (calories_json r)).
    { exact (f_equal (fun x => match x with Ok a => a | Raise _ => EmptyString end)
               (eq_sym H)). }
    rewrite E, calories_text.
    pose proof (escape_printable (goal_of r)) as Hg.
    pose proof (dumps_int_printable (daily_calories r)) as Hd.
    pose proof (dumps_int_printable (protein r)) as Hp.
    pose proof (dumps_int_printable (fat r)) as Hf.
    pose proof (dumps_int_printable (carbs r)) as Hc.
    unfold printable in *.
    rewrite !all_chars_append, Hg, Hd, Hp, Hf, Hc. reflexivity.
  - intros muscle_group. unfold get_exercise_info, get_exercise_info_value.
    destruct (dict_get exercise_data (lower muscle_group)) as [l |] eqn:Hget;
      cbn [render].
    + pose proof (ExerciseAnswers.dict_get_key _ _ _ Hget) as Hkey.
      revert Hget. simpl in Hkey.
      destruct Hkey as [<- | [<- | [<- | [<- | [<- | []]]]]];
        intros Hget; vm_compute in Hget; injection Hget as <-;
        vm_compute; reflexivity.
    + unfold not_available, printable. rewrite !all_chars_append.
      change (all_chars printable_char "Exercise information for ") with true.
      change (all_chars printable_char " is not available.") with true.
      now rewrite andb_true_r.
Qed.

(** The theorem at a goal with a quote and a newline in it, and at a miss
    on a line feed. *)
Lemma tool_outputs_are_printable_witness :
  (exists text : string,
      calculate_calories (String "034" (String "010" "bulk")) (of_Z 80) (of_Z 175) 28 "male"
      = Ok text
      /\ printable text = true)
  /\ printable (get_exercise_info (String "010" "")) = false.
Proof.
  destruct tool_outputs_are_printable as [Hcal Hex].
  split.
  - destruct (calculate_calories (String "034" (String "010" "bulk"))
                (of_Z 80) (of_Z 175) 28 "male") as [text | e] eqn:E.
    + exists text. split; [reflexivity |].
      exact (Hcal _ _ _ _ _ _ E).
    + exfalso. vm_compute in E. discriminate E.
  - rewrite Hex. reflexivity.
Defined.

End SerialisedProps.

(** ** The run driver: a run as a whole *)
Module DriverRuns.

Import Agents Driver DriverProps.



Section WithRuntime.

Variable World : Type.
Variable run_fitness_agent : string -> UserContext -> M World final_output.

Local Abbreviation handle := (handle_query World run_fitness_agent).
Local Abbreviation loop := (for_each World run_fitness_agent).

(** The state in which nothing was printed yet. *)
Local Abbreviation silent := (fun w : World => {| world := w; stdout := [] |}).






End WithRuntime.


End DriverRuns.

(** ** The guardrail: the prompt *)
Module PromptProps.

Import Agents Guardrail StringProps.

(** X17: the prompt handed to the analysis quotes the user's input
    whole and unchanged between two fixed texts: two inputs with the same
    prompt are the same input, and the prompt is 73 characters longer than
    the input, whatever its length. *)
Theorem prompt_quotes_the_input (input_data other : string) :
  (analysis_prompt input_data = analysis_prompt other -> input_data = other)
  /\ String.length (analysis_prompt input_data) = (String.length input_data + 73)%nat.
Proof.
  split.
  - unfold analysis_prompt. intros H.
    apply append_inj_l in H. now apply append_inj_r in H.
  - unfold analysis_prompt. rewrite !length_append. cbn [String.length]. lia.
Qed.

End PromptProps.
